(** * motec-reader: a shallow embedding of the MoTeC .ld decoder

    The development follows the TypeScript sources
    [src/utils.ts] (decodeString, BinaryReader), [src/ldChan.ts] (LdChan,
    readChannels), [src/ldHead.ts] (LdVehicle, LdVenue, LdEvent, LdHead) and
    [src/ldData.ts] (LdData).

    Conventions.
    - A Node [Buffer] is a [list byte]; offsets and lengths are [Z], as the
      code computes them with JS numbers that hold integers.
    - A JS number that holds a sample value, or that a caller passes as
      an index, is a binary64 [float]
      (Rocq's primitive floats are IEEE-754 binary64 with round-to-nearest-even,
      the arithmetic of JS [+], [*], [/] and unary [-]).
    - A thrown exception is the [Throw] branch of [Result]; the mutable
      cursor of the shared [BinaryReader] is threaded explicitly, and it keeps
      the value it had when an exception was thrown.
    - [Math.pow] is not defined by the sources (and ECMAScript leaves its
      precision to the implementation), so it is a parameter of the sections
      that use it.
    - Node's [Buffer] methods ([readUInt16LE] and the like, [slice],
      [indexOf], [toString('ascii')]) and the JS built-ins the code calls
      ([String.prototype.trim], the two regular expressions, property
      assignment on an object literal) are modelled after their
      documented behaviour, next to the code that calls them.
    - Reading the file from disk, [toObject] and the [toString] methods
      are outside the development. *)

From Stdlib Require Import ZArith Floats Uint63 Ascii String List Lia.
From Stdlib Require Import Init.Byte.
From stdpp Require Import gmap strings list.

Local Open Scope Z_scope.

(** ** Results and errors *)

(** The exceptions the code can raise.  The three [LdData.getChannel]
    errors and the [LdChan.data] error are [new Error(message)] with the
    message templates quoted below; [RangeError] is Node's
    [ERR_OUT_OF_RANGE], thrown by the [Buffer.read*] accessors. *)
Inductive Error : Type :=
| RangeError (offset : Z)
    (* Buffer.readUInt16LE & co. at an offset outside the buffer *)
| UnknownDataType (name : string)
    (* `Channel ${name} has unknown data type` *)
| IndexOutOfRange (index : float)
    (* `Channel index ${index} out of range`, for a number [index] *)
| ChannelNotFound (name : string)
    (* `Channel '${name}' not found` *)
| AmbiguousChannelName (name : string).
    (* `Multiple channels with name '${name}' found` *)

Inductive Result (A : Type) : Type :=
| Ok (a : A)
| Throw (e : Error).
Arguments Ok {A} a.
Arguments Throw {A} e.

Definition is_Ok {A} (r : Result A) : bool :=
  match r with Ok _ => true | Throw _ => false end.

(** ** Node's Buffer, as far as the code uses it *)

Definition Buffer : Type := list byte.

Definition Buffer_length (b : Buffer) : Z := Z.of_nat (length b).

Definition byte_val (b : byte) : Z := Z.of_N (Byte.to_N b).

(** Little-endian value of a run of bytes. *)
Fixpoint le_value (bs : list byte) : Z :=
  match bs with
  | [] => 0
  | b :: bs' => byte_val b + 256 * le_value bs'
  end.

(** Two's-complement reading of an unsigned [w]-bit value. *)
Definition to_signed (w : Z) (u : Z) : Z :=
  if u <? 2 ^ (w - 1) then u else u - 2 ^ w.

(** The [n] bytes at offset [off]; only used when they are in range. *)
Definition bytes_at (b : Buffer) (off n : Z) : list byte :=
  firstn (Z.to_nat n) (skipn (Z.to_nat off) b).

(** [buf.readUIntLE]-style accessors: Node throws ERR_OUT_OF_RANGE unless
    [0 <= offset <= buf.length - width]. *)
Definition in_bounds (b : Buffer) (offset width : Z) : bool :=
  (0 <=? offset) && (offset + width <=? Buffer_length b).

Definition Buffer_readUIntLE (width : Z) (b : Buffer) (offset : Z) : Result Z :=
  if in_bounds b offset width
  then Ok (le_value (bytes_at b offset width))
  else Throw (RangeError offset).

Definition Buffer_readIntLE (width : Z) (b : Buffer) (offset : Z) : Result Z :=
  match Buffer_readUIntLE width b offset with
  | Ok u => Ok (to_signed (8 * width) u)
  | Throw e => Throw e
  end.

Definition Buffer_readUInt32LE := Buffer_readUIntLE 4.
Definition Buffer_readUInt16LE := Buffer_readUIntLE 2.
Definition Buffer_readInt16LE := Buffer_readIntLE 2.
Definition Buffer_readInt32LE := Buffer_readIntLE 4.

(** [adjustOffset] of Node's [Buffer.prototype.slice]: negative offsets
    count from the end, everything is clamped to [[0, length]]. *)
Definition adjustOffset (offset length : Z) : Z :=
  if offset =? 0 then 0
  else if offset <? 0 then
    (if 0 <? offset + length then offset + length else 0)
  else if offset <? length then offset
  else length.

(** [buf.slice(start, end)]: never throws, clamps to the buffer. *)
Definition Buffer_slice (b : Buffer) (start end_ : Z) : Buffer :=
  let len := Buffer_length b in
  let s := adjustOffset start len in
  let e := adjustOffset end_ len in
  let newLength := if s <? e then e - s else 0 in
  bytes_at b s newLength.

(** [buf.indexOf(0)]: index of the first zero byte, or -1. *)
Fixpoint Buffer_indexOf0 (b : Buffer) : Z :=
  match b with
  | [] => -1
  | x :: b' =>
      if byte_val x =? 0 then 0
      else let i := Buffer_indexOf0 b' in
           if i <? 0 then -1 else i + 1
  end.

(** [buf.toString('ascii')]: Node clears the high bit of every byte. *)
Definition ascii_char (b : byte) : ascii :=
  ascii_of_N (N.land (Byte.to_N b) 127).

Fixpoint Buffer_toString_ascii (b : Buffer) : string :=
  match b with
  | [] => EmptyString
  | x :: b' => String (ascii_char x) (Buffer_toString_ascii b')
  end.

(** [String.prototype.trim]: the JS white space among the code points
    below 128 is TAB, LF, VT, FF, CR and SPACE. *)
Definition is_js_space (c : ascii) : bool :=
  let n := N_of_ascii c in
  ((9 <=? n) && (n <=? 13))%N || (n =? 32)%N.

Fixpoint trim_start (s : string) : string :=
  match s with
  | EmptyString => EmptyString
  | String c s' => if is_js_space c then trim_start s' else s
  end.

(** Drops trailing white space: a character is kept when something
    non-blank follows it or it is itself non-blank. *)
Fixpoint trim_end (s : string) : string :=
  match s with
  | EmptyString => EmptyString
  | String c s' =>
      match trim_end s' with
      | EmptyString => if is_js_space c then EmptyString else String c EmptyString
      | t => String c t
      end
  end.

Definition String_trim (s : string) : string := trim_end (trim_start s).

(** [decodeString] (utils.ts). *)
Definition decodeString (buffer : Buffer) : string :=
  let nullIndex := Buffer_indexOf0 buffer in
  let endIndex := if 0 <=? nullIndex then nullIndex else Buffer_length buffer in
  String_trim (Buffer_toString_ascii (Buffer_slice buffer 0 endIndex)).

(** ** BinaryReader (utils.ts) *)

Record BinaryReader : Type := mkReader {
  buffer : Buffer;
  position : Z
}.

Definition set_position (p : Z) (r : BinaryReader) : BinaryReader :=
  mkReader (buffer r) p.

(** A method of the reader: it returns or throws, and leaves a reader. *)
Definition M (A : Type) : Type := BinaryReader -> Result A * BinaryReader.

Definition ret {A} (a : A) : M A := fun r => (Ok a, r).

Definition bind {A B} (m : M A) (k : A -> M B) : M B :=
  fun r =>
    match m r with
    | (Ok a, r') => k a r'
    | (Throw e, r') => (Throw e, r')
    end.

Notation "'do' x <- m ; k" := (bind m (fun x => k))
  (at level 10, x name, m at level 100, k at level 200).
Notation "m ;; k" := (bind m (fun _ => k))
  (at level 100, k at level 200, right associativity).

Definition seek (p : Z) : M unit := fun r => (Ok tt, set_position p r).

Definition tell : M Z := fun r => (Ok (position r), r).

Definition skip (bytes : Z) : M unit :=
  fun r => (Ok tt, set_position (position r + bytes) r).

(** The fixed-width reads share one shape: read at the cursor, and
    advance only when the read did not throw. *)
Definition read_with {A} (rd : Buffer -> Z -> Result A) (width : Z) : M A :=
  fun r =>
    match rd (buffer r) (position r) with
    | Ok v => (Ok v, set_position (position r + width) r)
    | Throw e => (Throw e, r)
    end.

Definition readUInt32LE : M Z := read_with Buffer_readUInt32LE 4.
Definition readUInt16LE : M Z := read_with Buffer_readUInt16LE 2.
Definition readInt16LE : M Z := read_with Buffer_readInt16LE 2.
Definition readInt32LE : M Z := read_with Buffer_readInt32LE 4.

Definition readBytes (length : Z) : M Buffer :=
  fun r =>
    (Ok (Buffer_slice (buffer r) (position r) (position r + length)),
     set_position (position r + length) r).

(** ** JS numbers *)

(** The JS number holding the integer [z] (exact below 2^53). *)
Definition Z2F (z : Z) : float :=
  if z <? 0 then PrimFloat.opp (PrimFloat.of_uint63 (Uint63.of_Z (- z)))
  else PrimFloat.of_uint63 (Uint63.of_Z z).

(** The integer a JS number holds, if it holds one: [-0] holds 0; NaN,
    the infinities and the numbers with a fractional part hold none. *)
Definition integer_value (x : float) : option Z :=
  match Prim2SF x with
  | S754_zero _ => Some 0
  | S754_finite s m e =>
      let a :=
        if 0 <=? e then Some (Z.pos m * 2 ^ e)
        else if Z.pos m mod 2 ^ (- e) =? 0 then Some (Z.pos m / 2 ^ (- e))
        else None in
      option_map (fun z => if s then - z else z) a
  | _ => None
  end.

(** [array[x]] for a JS number [x].  The property key is [ToString(x)],
    which names an element of the array only when [x] holds a
    non-negative integer ([-0] gives the key "0").  With any other key
    ("NaN", "0.5", "-1", ...) and past the last element there is no such
    property, and the value of the expression is [undefined]: [None]. *)
Definition Array_at {A} (xs : list A) (x : float) : option A :=
  match integer_value x with
  | Some i => if 0 <=? i then xs !! Z.to_nat i else None
  | None => None
  end.

(** The number whose IEEE-754 encoding with [ebits] exponent bits and
    [fbits] fraction bits is [bits]: what [buf.readFloatLE] (8, 23) and
    [buf.readDoubleLE] (11, 52) return for the bytes they read. *)
Definition float_of_bits (ebits fbits : Z) (bits : Z) : float :=
  let sign := Z.testbit bits (ebits + fbits) in
  let e := (bits / 2 ^ fbits) mod 2 ^ ebits in
  let f := bits mod 2 ^ fbits in
  let bias := 2 ^ (ebits - 1) - 1 in
  if e =? 2 ^ ebits - 1 then
    (if f =? 0 then (if sign then neg_infinity else infinity) else nan)
  else
    let m := if e =? 0 then f else 2 ^ fbits + f in
    let ex := (if e =? 0 then 1 else e) - bias - fbits in
    let v := Z.ldexp (Z2F m) ex in
    if sign then PrimFloat.opp v else v.

Definition Buffer_readFloatLE (b : Buffer) (offset : Z) : Result float :=
  match Buffer_readUIntLE 4 b offset with
  | Ok u => Ok (float_of_bits 8 23 u)
  | Throw e => Throw e
  end.

Definition Buffer_readDoubleLE (b : Buffer) (offset : Z) : Result float :=
  match Buffer_readUIntLE 8 b offset with
  | Ok u => Ok (float_of_bits 11 52 u)
  | Throw e => Throw e
  end.

(** ** The records of ldChan.ts, ldHead.ts and ldData.ts *)

(** [DataType] of ldChan.ts without its [null]; a channel's [dtype] is an
    [option DataType]. *)
Inductive DataType : Type := int16 | int32 | float16 | float32.

(** The [dtype] parameter of [BinaryReader.readNumericArray]. *)
Inductive NumericType : Type :=
| Tint16 | Tint32 | Tfloat32 | Tfloat16 | Tgps | Ttimestamp.

Definition numeric_of (d : DataType) : NumericType :=
  match d with
  | int16 => Tint16
  | int32 => Tint32
  | float16 => Tfloat16
  | float32 => Tfloat32
  end.

Module LdChan.
(** The fields of class [LdChan]; [_data] is the private cache, [None]
    for [null].  The [reader] field is the one shared [BinaryReader] of
    the document, which the functions below take as their state. *)
Record t : Type := mk {
  _data : option (list float);
  metaPtr : Z;
  prevMetaPtr : Z;
  nextMetaPtr : Z;
  dataPtr : Z;
  dataLen : Z;
  dtype : option DataType;
  freq : Z;
  shift : Z;
  mul : Z;
  scale : Z;
  dec : Z;
  name : string;
  shortName : string;
  unit : string
}.

Definition set_data (d : list float) (c : t) : t :=
  mk (Some d) (metaPtr c) (prevMetaPtr c) (nextMetaPtr c) (dataPtr c)
     (dataLen c) (dtype c) (freq c) (shift c) (mul c) (scale c) (dec c)
     (name c) (shortName c) (unit c).
End LdChan.

Module LdVehicle.
Record t : Type := mk {
  id : string;
  weight : Z;
  type : string;
  comment : string
}.
End LdVehicle.

Module LdVenue.
Record t : Type := mk {
  name : string;
  vehiclePtr : Z;
  vehicle : option LdVehicle.t
}.
End LdVenue.

Module LdEvent.
Record t : Type := mk {
  name : string;
  session : string;
  comment : string;
  venuePtr : Z;
  venue : option LdVenue.t
}.
End LdEvent.

(** What [LdHead.fromFile] passes to the [Date] constructor: the six
    numbers of [new Date(year, month - 1, day, hour, minute, second)], or
    the argument-less [new Date()] (the clock at decode time). *)
Inductive JsDate : Type :=
| DateOf (year monthIndex day hour minute second : Z)
| DateNow.

Module LdHead.
Record t : Type := mk {
  metaPtr : Z;
  dataPtr : Z;
  eventPtr : Z;
  event : option LdEvent.t;
  driver : string;
  vehicleId : string;
  venue : string;
  datetime : JsDate;
  shortComment : string
}.
End LdHead.

Module LdData.
(** [head] and [channels] as in the class; [reader] is the
    [BinaryReader] that every channel of [channels] holds a reference
    to. *)
Record t : Type := mk {
  head : LdHead.t;
  channels : list LdChan.t;
  reader : BinaryReader
}.
End LdData.

(** ** ldChan.ts: channel meta data *)

(** The "Determine data type" block of [LdChan.fromFile]. *)
Definition resolve_dtype (dtypeA dtypeRaw : Z) : option DataType :=
  if dtypeA =? 0x07 then
    (if dtypeRaw =? 2 then Some float16
     else if dtypeRaw =? 4 then Some float32
     else None)
  else if existsb (Z.eqb dtypeA) [0; 0x03; 0x05] then
    (if dtypeRaw =? 2 then Some int16
     else if dtypeRaw =? 4 then Some int32
     else None)
  else None.

(** [LdChan.fromFile(reader, metaPtr)]. *)
Definition LdChan_fromFile (metaPtr : Z) : M LdChan.t :=
  seek metaPtr ;;
  do prevMetaPtr <- readUInt32LE;
  do nextMetaPtr <- readUInt32LE;
  do dataPtr <- readUInt32LE;
  do dataLen <- readUInt32LE;
  skip 2 ;;
  do dtypeA <- readUInt16LE;
  do dtypeRaw <- readUInt16LE;
  do freq <- readUInt16LE;
  do shift <- readInt16LE;
  do mul <- readInt16LE;
  do scale <- readInt16LE;
  do dec <- readInt16LE;
  do nameB <- readBytes 32;
  do shortNameB <- readBytes 8;
  do unitB <- readBytes 12;
  skip 40 ;;
  let dtype := resolve_dtype dtypeA dtypeRaw in
  ret (LdChan.mk None metaPtr prevMetaPtr nextMetaPtr dataPtr dataLen dtype
         freq shift mul scale dec
         (decodeString nameB) (decodeString shortNameB) (decodeString unitB)).

(** [readChannels(reader, metaPtr)].  The source is a [while] loop with no
    bound, so the model takes fuel: [None] means the loop was still
    running when the fuel ran out. *)
Fixpoint readChannels_loop (fuel : nat) (channels : list LdChan.t)
    (currentPtr : Z) (r : BinaryReader)
  : option (Result (list LdChan.t) * BinaryReader) :=
  if currentPtr =? 0 then Some (Ok channels, r)
  else
    match fuel with
    | O => None
    | S fuel' =>
        match LdChan_fromFile currentPtr r with
        | (Ok chan, r') =>
            readChannels_loop fuel' (channels ++ [chan]) (LdChan.nextMetaPtr chan) r'
        | (Throw e, r') => Some (Throw e, r')
        end
    end.

Definition readChannels (fuel : nat) (metaPtr : Z) (r : BinaryReader)
  : option (Result (list LdChan.t) * BinaryReader) :=
  readChannels_loop fuel [] metaPtr r.

(** ** ldHead.ts *)

Definition LdVehicle_fromFile : M LdVehicle.t :=
  do idB <- readBytes 64;
  skip 128 ;;
  do weight <- readUInt32LE;
  do typeB <- readBytes 32;
  do commentB <- readBytes 32;
  ret (LdVehicle.mk (decodeString idB) weight (decodeString typeB)
         (decodeString commentB)).

(** The save / seek / parse / restore block around a nested record. *)
Definition at_pointer {A} (ptr : Z) (parse : M A) : M (option A) :=
  if 0 <? ptr then
    do currentPos <- tell;
    seek ptr ;;
    do x <- parse;
    seek currentPos ;;
    ret (Some x)
  else ret None.

Definition LdVenue_fromFile : M LdVenue.t :=
  do nameB <- readBytes 64;
  skip 1034 ;;
  do vehiclePtr <- readUInt16LE;
  do vehicle <- at_pointer vehiclePtr LdVehicle_fromFile;
  ret (LdVenue.mk (decodeString nameB) vehiclePtr vehicle).

Definition LdEvent_fromFile : M LdEvent.t :=
  do nameB <- readBytes 64;
  do sessionB <- readBytes 64;
  do commentB <- readBytes 1024;
  do venuePtr <- readUInt16LE;
  do venue <- at_pointer venuePtr LdVenue_fromFile;
  ret (LdEvent.mk (decodeString nameB) (decodeString sessionB)
         (decodeString commentB) venuePtr venue).

(** *** The date and time of the header *)

Definition is_digit (c : ascii) : bool :=
  let n := N_of_ascii c in ((48 <=? n) && (n <=? 57))%N.

(** [\d{n}] followed by [parseInt]: the value of exactly [n] digits. *)
Fixpoint digits (n : nat) (acc : Z) (s : string) : option (Z * string) :=
  match n with
  | O => Some (acc, s)
  | S n' =>
      match s with
      | String c s' =>
          if is_digit c
          then digits n' (10 * acc + (Z.of_N (N_of_ascii c) - 48)) s'
          else None
      | EmptyString => None
      end
  end.

Definition expect (c : ascii) (s : string) : option string :=
  match s with
  | String c' s' => if Ascii.eqb c c' then Some s' else None
  | EmptyString => None
  end.

(** [\s+]: at least one blank, then all the blanks that follow. *)
Definition spaces1 (s : string) : option string :=
  match s with
  | String c s' => if is_js_space c then Some (trim_start s') else None
  | EmptyString => None
  end.

(** [(\d{2})\/(\d{2})\/(\d{4})\s+(\d{2}):(\d{2})] at the head of [s]:
    day, month, year, hour, minute and the rest of the string. *)
Definition match_date_hm (s : string) : option (Z * Z * Z * Z * Z * string) :=
  match digits 2 0 s with None => None | Some (day, s) =>
  match expect "/" s with None => None | Some s =>
  match digits 2 0 s with None => None | Some (month, s) =>
  match expect "/" s with None => None | Some s =>
  match digits 4 0 s with None => None | Some (year, s) =>
  match spaces1 s with None => None | Some s =>
  match digits 2 0 s with None => None | Some (hour, s) =>
  match expect ":" s with None => None | Some s =>
  match digits 2 0 s with None => None | Some (minute, s) =>
  Some (day, month, year, hour, minute, s)
  end end end end end end end end end.

(** The pattern with seconds, [...:(\d{2})]. *)
Definition match_date_hms (s : string) : option (Z * Z * Z * Z * Z * Z) :=
  match match_date_hm s with None => None | Some (day, month, year, hour, minute, s) =>
  match expect ":" s with None => None | Some s =>
  match digits 2 0 s with None => None | Some (second, _) =>
  Some (day, month, year, hour, minute, second)
  end end end.

(** [str.match(re)] for a pattern without the global flag: the match at
    the leftmost position that has one. *)
Fixpoint regex_search {A} (at_head : string -> option A) (s : string) : option A :=
  match at_head s with
  | Some a => Some a
  | None =>
      match s with
      | EmptyString => None
      | String _ s' => regex_search at_head s'
      end
  end.

(** The "Parse datetime" block of [LdHead.fromFile]. *)
Definition parse_datetime (dateStr timeStr : string) : JsDate :=
  let s := (dateStr ++ " " ++ timeStr)%string in
  match regex_search match_date_hms s with
  | Some (day, month, year, hour, minute, second) =>
      DateOf year (month - 1) day hour minute second
  | None =>
      match regex_search match_date_hm s with
      | Some (day, month, year, hour, minute, _) =>
          DateOf year (month - 1) day hour minute 0
      | None => DateNow
      end
  end.

(** The text fields of the header in the order [LdHead.fromFile] reads
    them; [dateStr] and [timeStr] are locals of the source, kept here so
    that statements can speak about them. *)
Record HeadFields : Type := mkHeadFields {
  hf_metaPtr : Z;
  hf_dataPtr : Z;
  hf_eventPtr : Z;
  hf_dateStr : string;
  hf_timeStr : string;
  hf_driver : string;
  hf_vehicleId : string;
  hf_venue : string;
  hf_shortComment : string
}.

(** [LdHead.fromFile], from [reader.seek(0)] to the last [skip]. *)
Definition LdHead_readFields : M HeadFields :=
  seek 0 ;;
  skip 4 ;;
  skip 4 ;;
  do metaPtr <- readUInt32LE;
  do dataPtr <- readUInt32LE;
  skip 20 ;;
  do eventPtr <- readUInt32LE;
  skip 24 ;;
  skip (2 + 2 + 2) ;;
  skip 4 ;;
  skip 8 ;;
  skip 2 ;;
  skip 2 ;;
  skip 4 ;;
  skip 4 ;;
  do dateB <- readBytes 16;
  skip 16 ;;
  do timeB <- readBytes 16;
  skip 16 ;;
  do driverB <- readBytes 64;
  do vehicleIdB <- readBytes 64;
  skip 64 ;;
  do venueB <- readBytes 64;
  skip 64 ;;
  skip 1024 ;;
  skip 4 ;;
  skip 66 ;;
  do shortCommentB <- readBytes 64;
  skip 126 ;;
  ret (mkHeadFields metaPtr dataPtr eventPtr
         (decodeString dateB) (decodeString timeB) (decodeString driverB)
         (decodeString vehicleIdB) (decodeString venueB)
         (decodeString shortCommentB)).

(** [LdHead.fromFile(reader)]. *)
Definition LdHead_fromFile : M LdHead.t :=
  do f <- LdHead_readFields;
  let datetime := parse_datetime (hf_dateStr f) (hf_timeStr f) in
  do event <- at_pointer (hf_eventPtr f) LdEvent_fromFile;
  ret (LdHead.mk (hf_metaPtr f) (hf_dataPtr f) (hf_eventPtr f) event
         (hf_driver f) (hf_vehicleId f) (hf_venue f) datetime
         (hf_shortComment f)).

(** ** Sample decoding: the part of the code that calls [Math.pow] *)

Section Samples.

(** [Math.pow(base, exponent)] of the JS engine. *)
Variable Math_pow : float -> float -> float.

(** The body of [BinaryReader.readFloat16] after its [readUInt16LE]. *)
Definition decodeFloat16 (value : Z) : float :=
  let sign := Z.shiftr (Z.land value 0x8000) 15 in
  let exponent := Z.shiftr (Z.land value 0x7C00) 10 in
  let fraction := Z.land value 0x03FF in
  if exponent =? 0 then
    ((if (sign =? 0)%Z then 1 else -1) * Math_pow 2 (-14)
     * (Z2F fraction / Math_pow 2 10))%float
  else if exponent =? 0x1F then
    (if fraction =? 0
     then (if sign =? 0 then infinity else neg_infinity)
     else nan)
  else
    ((if (sign =? 0)%Z then 1 else -1)
     * Math_pow 2 (Z2F (exponent - 15)%Z)
     * (1 + Z2F fraction / Math_pow 2 10))%float.

Definition readFloat16 : M float :=
  do value <- readUInt16LE;
  ret (decodeFloat16 value).

(** One turn of the [switch] in [readNumericArray]: the value pushed. *)
Definition read_sample (dtype : NumericType) : M float :=
  match dtype with
  | Tint16 => do v <- readInt16LE; ret (Z2F v)
  | Tint32 | Ttimestamp => do v <- readInt32LE; ret (Z2F v)
  | Tgps => read_with Buffer_readDoubleLE 8
  | Tfloat32 => read_with Buffer_readFloatLE 4
  | Tfloat16 => readFloat16
  end.

(** The [for] loop of [readNumericArray], [n] turns left. *)
Fixpoint read_samples (n : nat) (dtype : NumericType) (result : list float)
  : M (list float) :=
  match n with
  | O => ret result
  | S n' =>
      do v <- read_sample dtype;
      read_samples n' dtype (result ++ [v])
  end.

(** [BinaryReader.readNumericArray(dataPtr, count, dtype)]. *)
Definition readNumericArray (dataPtr count : Z) (dtype : NumericType)
  : M (list float) :=
  seek dataPtr ;;
  read_samples (Z.to_nat count) dtype [].

(** The arrow function mapped over the raw data in [LdChan.data]. *)
Definition physical (ch : LdChan.t) (value : float) : float :=
  ((value / Z2F (LdChan.scale ch)
    * Math_pow 10 (- Z2F (LdChan.dec ch))
    + Z2F (LdChan.shift ch))
   * Z2F (LdChan.mul ch))%float.

(** The getter [LdChan.data]: the value returned or the error thrown,
    the channel (with its cache) and the shared reader afterwards. *)
Definition LdChan_data (ch : LdChan.t) (r : BinaryReader)
  : Result (list float) * LdChan.t * BinaryReader :=
  match LdChan.dtype ch with
  | None => (Throw (UnknownDataType (LdChan.name ch)), ch, r)
  | Some dtype =>
      match LdChan._data ch with
      | Some d => (Ok d, ch, r)
      | None =>
          match readNumericArray (LdChan.dataPtr ch) (LdChan.dataLen ch)
                  (numeric_of dtype) r with
          | (Ok rawData, r') =>
              let d := map (physical ch) rawData in
              (Ok d, LdChan.set_data d ch, r')
          | (Throw e, r') => (Throw e, ch, r')
          end
      end
  end.

End Samples.

(** ** ldData.ts *)

(** [LdData.fromFile] once [readFileBuffer] has returned [buffer]. *)
Definition LdData_fromBuffer (fuel : nat) (buffer : Buffer)
  : option (Result LdData.t) :=
  let reader := mkReader buffer 0 in
  match LdHead_fromFile reader with
  | (Throw e, _) => Some (Throw e)
  | (Ok head, reader) =>
      match readChannels fuel (LdHead.metaPtr head) reader with
      | None => None
      | Some (Throw e, _) => Some (Throw e)
      | Some (Ok channels, reader) => Some (Ok (LdData.mk head channels reader))
      end
  end.

(** The argument of [getChannel]: a JS number
    ([typeof nameOrIndex === 'number']: any binary64 value, NaN, the
    infinities and the numbers with a fractional part included) or a
    string. *)
Inductive NameOrIndex : Type :=
| Index (x : float)
| Name (s : string).

(** [LdData.getChannel(nameOrIndex)].  The value returned is a channel
    or, where [this.channels[nameOrIndex]] has no such element,
    [undefined]: [None].  The two comparisons of the guard are those of
    JS numbers ([x >= y] is [y <= x]; both are false when [x] is NaN),
    and [this.channels.length] is the number that holds the length. *)
Definition getChannel (d : LdData.t) (nameOrIndex : NameOrIndex)
  : Result (option LdChan.t) :=
  let channels := LdData.channels d in
  match nameOrIndex with
  | Index x =>
      if ((x <? 0) || (Z2F (Z.of_nat (length channels)) <=? x))%float
      then Throw (IndexOutOfRange x)
      else Ok (Array_at channels x)
  | Name n =>
      let matchingChannels :=
        List.filter (fun ch => String.eqb (LdChan.name ch) n) channels in
      match matchingChannels with
      | [] => Throw (ChannelNotFound n)
      | [ch] => Ok (Some ch)
      | _ :: _ :: _ => Throw (AmbiguousChannelName n)
      end
  end.

Definition getChannelNames (d : LdData.t) : list string :=
  map LdChan.name (LdData.channels d).

Definition channelCount (d : LdData.t) : Z :=
  Z.of_nat (length (LdData.channels d)).

(** A JS object literal [{}] used as a record of values of type [V]: its
    own properties, and its prototype when that is no longer
    [Object.prototype]. *)
Record JsObject (V : Type) : Type := mkObject {
  own : gmap string V;
  proto : option V
}.
Arguments mkObject {V}.
Arguments own {V}.
Arguments proto {V}.

Definition JsObject_empty {V} : JsObject V := mkObject ∅ None.

(** [obj[key] = value] for an object value (here an array): every key
    creates or overwrites an own property, except ["__proto__"], the
    accessor inherited from [Object.prototype], whose setter replaces the
    prototype and creates no own property. *)
Definition JsObject_set {V} (key : string) (value : V) (o : JsObject V)
  : JsObject V :=
  if String.eqb key "__proto__"
  then mkObject (own o) (Some value)
  else mkObject (<[key := value]> (own o)) (proto o).

(** [Object.keys(obj)], as a set. *)
Definition JsObject_keys {V} (o : JsObject V) : gset string := dom (own o).

Section DataMap.

Variable Math_pow : float -> float -> float.

(** The [for ... of] loop of [LdData.toDataMap] over the channels still
    to visit: the object built or the error thrown, those channels
    afterwards (caches filled as far as the loop got), and the
    reader. *)
Fixpoint toDataMap_loop (channels : list LdChan.t)
    (result : JsObject (list float)) (r : BinaryReader)
  : Result (JsObject (list float)) * list LdChan.t * BinaryReader :=
  match channels with
  | [] => (Ok result, [], r)
  | channel :: rest =>
      match LdChan_data Math_pow channel r with
      | (Ok d, channel', r') =>
          let '(res, rest', r'') :=
            toDataMap_loop rest (JsObject_set (LdChan.name channel) d result) r' in
          (res, channel' :: rest', r'')
      | (Throw e, channel', r') => (Throw e, channel' :: rest, r')
      end
  end.

(** [LdData.toDataMap()], with the document as it is afterwards. *)
Definition toDataMap (d : LdData.t)
  : Result (JsObject (list float)) * LdData.t :=
  let '(res, channels', r') :=
    toDataMap_loop (LdData.channels d) JsObject_empty (LdData.reader d) in
  (res, LdData.mk (LdData.head d) channels' r').

End DataMap.

(** * Definitions used to state the properties *)

(** ** Reading at absolute offsets *)

Definition u16_at (b : Buffer) (o : Z) : Z := le_value (bytes_at b o 2).
Definition u32_at (b : Buffer) (o : Z) : Z := le_value (bytes_at b o 4).
Definition i16_at (b : Buffer) (o : Z) : Z := to_signed 16 (u16_at b o).
Definition i32_at (b : Buffer) (o : Z) : Z := to_signed 32 (u32_at b o).

(** The channel record that starts at offset [p], field by field. *)
Definition channel_record (b : Buffer) (p : Z) : LdChan.t :=
  LdChan.mk None p
    (u32_at b p) (u32_at b (p + 4)) (u32_at b (p + 8)) (u32_at b (p + 12))
    (resolve_dtype (u16_at b (p + 18)) (u16_at b (p + 20)))
    (u16_at b (p + 22))
    (i16_at b (p + 24)) (i16_at b (p + 26)) (i16_at b (p + 28))
    (i16_at b (p + 30))
    (decodeString (Buffer_slice b (p + 32) (p + 64)))
    (decodeString (Buffer_slice b (p + 64) (p + 72)))
    (decodeString (Buffer_slice b (p + 72) (p + 84))).

(** The table of the specification, row by row. *)
Definition spec_dtype_table (dtypeClass dtypeWidth : Z) : option DataType :=
  match dtypeClass, dtypeWidth with
  | 0x07, 2 => Some float16
  | 0x07, 4 => Some float32
  | (0 | 0x03 | 0x05), 2 => Some int16
  | (0 | 0x03 | 0x05), 4 => Some int32
  | _, _ => None
  end.

(** ** Sample buffers *)

Definition byte_of_Z (z : Z) : byte :=
  match Byte.of_N (Z.to_N (z mod 256)) with
  | Some b => b
  | None => x00
  end.

(** The [n] little-endian bytes of [v] (two's complement when negative). *)
Fixpoint le_bytes (n : nat) (v : Z) : list byte :=
  match n with
  | O => []
  | S n' => byte_of_Z v :: le_bytes n' (v / 256)
  end.

(** A text field of [n] bytes: the characters, then zeros. *)
Definition text (n : nat) (s : string) : list byte :=
  firstn n (map byte_of_ascii (list_ascii_of_string s) ++ repeat x00 n).

Definition zeros (n : nat) : list byte := repeat x00 n.

(** A header of 1762 bytes in the layout [LdHead.fromFile] reads, without
    event. *)
Definition header_bytes (metaPtr : Z)
    (date time driver vehicleId venue shortComment : string) : list byte :=
  zeros 8 ++ le_bytes 4 metaPtr ++ zeros 82
  ++ text 16 date ++ zeros 16 ++ text 16 time ++ zeros 16
  ++ text 64 driver ++ text 64 vehicleId ++ zeros 64
  ++ text 64 venue ++ zeros 1158
  ++ text 64 shortComment ++ zeros 126.

(** A channel record of 124 bytes in the layout [LdChan.fromFile]
    reads. *)
Definition record_bytes (nextMetaPtr dataPtr dataLen dtypeA dtypeRaw
    shift mul scale dec : Z) (name : string) : list byte :=
  le_bytes 4 0 ++ le_bytes 4 nextMetaPtr ++ le_bytes 4 dataPtr
  ++ le_bytes 4 dataLen ++ zeros 2
  ++ le_bytes 2 dtypeA ++ le_bytes 2 dtypeRaw ++ le_bytes 2 50
  ++ le_bytes 2 shift ++ le_bytes 2 mul ++ le_bytes 2 scale ++ le_bytes 2 dec
  ++ text 32 name ++ zeros 60.

(** The scenario of the specification: driver "J.Doe", one int16 channel
    with raw samples 10, 20, 30 and scale 1, dec 1, shift 0, mul 1. *)
Definition scenario_doc : Buffer := Eval vm_compute in
  header_bytes 1762 "23/11/2005" "09:53:00" "J.Doe" "Car7" "Spa" "Wet"
  ++ record_bytes 0 1886 3 3 2 0 1 1 1 "Speed"
  ++ le_bytes 2 10 ++ le_bytes 2 20 ++ le_bytes 2 30.

(** Two channels that share the name "Speed", with different samples. *)
Definition duplicate_doc : Buffer := Eval vm_compute in
  header_bytes 1762 "23/11/2005" "09:53" "J.Doe" "" "" ""
  ++ record_bytes 1886 2010 2 3 2 0 1 1 0 "Speed"
  ++ record_bytes 0 2014 1 3 2 0 1 1 0 "Speed"
  ++ le_bytes 2 7 ++ le_bytes 2 8 ++ le_bytes 2 9.

(** A channel of unknown data type (class 9) followed by an int16
    channel. *)
Definition unknown_doc : Buffer := Eval vm_compute in
  header_bytes 1762 "" "" "J.Doe" "" "" ""
  ++ record_bytes 1886 2010 1 9 2 0 1 1 0 "Mystery"
  ++ record_bytes 0 2010 1 3 2 0 1 1 0 "Speed"
  ++ le_bytes 2 5.

(** A chain that cycles: the only record names itself as its successor. *)
Definition cyclic_doc : Buffer := Eval vm_compute in
  header_bytes 1762 "" "" "J.Doe" "" "" ""
  ++ record_bytes 1762 1886 0 3 2 0 1 1 0 "Loop".

(** A chain that comes back to its second record: the first record
    leads to the second, and the second names itself as its successor. *)
Definition rho_doc : Buffer := Eval vm_compute in
  header_bytes 1762 "" "" "J.Doe" "" "" ""
  ++ record_bytes 1886 2010 0 3 2 0 1 1 0 "Lead"
  ++ record_bytes 1886 2010 0 3 2 0 1 1 0 "Loop".

(** One channel of each data type: "Gear", int16, raw 3 and -2, scale 2;
    "Lap", int32, raw -5 and 70000, shift 1 and mul 2; "Volt", float32,
    raw 1.5 and -0.25; "Temp", float16, raw 1 and -2. *)
Definition typed_doc : Buffer := Eval vm_compute in
  header_bytes 1762 "" "" "J.Doe" "" "" ""
  ++ record_bytes 1886 2258 2 3 2 0 1 2 0 "Gear"
  ++ record_bytes 2010 2262 2 3 4 1 2 1 0 "Lap"
  ++ record_bytes 2134 2270 2 7 4 0 1 1 0 "Volt"
  ++ record_bytes 0 2278 2 7 2 0 1 1 0 "Temp"
  ++ le_bytes 2 3 ++ le_bytes 2 (-2)
  ++ le_bytes 4 (-5) ++ le_bytes 4 70000
  ++ le_bytes 4 0x3FC00000 ++ le_bytes 4 0xBE800000
  ++ le_bytes 2 0x3C00 ++ le_bytes 2 0xC000.

(** A channel whose name field holds the text "__proto__". *)
Definition proto_doc : Buffer := Eval vm_compute in
  header_bytes 1762 "" "" "J.Doe" "" "" ""
  ++ record_bytes 0 1886 1 3 2 0 1 1 0 "__proto__"
  ++ le_bytes 2 5.

(** The header the scenario buffer decodes to. *)
Definition scenario_head : LdHead.t :=
  LdHead.mk 1762 0 0 None "J.Doe" "Car7" "Spa" (DateOf 2005 10 23 9 53 0) "Wet".

(** ** An instance of [Math.pow] *)

Fixpoint pow_nat (b : float) (n : nat) : float :=
  match n with
  | O => 1%float
  | S n' => (b * pow_nat b n')%float
  end.

(** The integer a float holds (0 when it holds none). *)
Definition float_to_Z (x : float) : Z :=
  match Prim2SF x with
  | S754_finite s m e =>
      let a := if 0 <=? e then Z.pos m * 2 ^ e else Z.pos m / 2 ^ (- e) in
      if s then - a else a
  | _ => 0
  end.

(** Powers with an integral exponent by repeated multiplication, and one
    division for a negative exponent: exact for the powers of two in
    range, and the double nearest 1/10 for [10^(-1)].  It shows that what
    the theorems below assume of [Math.pow] can be had. *)
Definition pow_by_products (base exponent : float) : float :=
  let k := float_to_Z exponent in
  if k <? 0 then (1 / pow_nat base (Z.to_nat (- k)))%float
  else pow_nat base (Z.to_nat k).

(** The double nearest to 1/10: the JS literal [0.1]. *)
Definition one_tenth : float := 0x1.999999999999ap-4%float.

(** ** The raw sample at an offset *)

Definition width_of (dtype : NumericType) : Z :=
  match dtype with
  | Tint16 | Tfloat16 => 2
  | Tint32 | Ttimestamp | Tfloat32 => 4
  | Tgps => 8
  end.

(** The bytes a raw value of each data type takes. *)
Definition raw_width (dt : DataType) : Z :=
  match dt with
  | int16 | float16 => 2
  | int32 | float32 => 4
  end.

Section RawSamples.

Variable Math_pow : float -> float -> float.

(** The raw value of type [dtype] stored at offset [o]: int16 and int32
    as signed little-endian integers, float32 (and the 8-byte gps values)
    as IEEE-754, float16 through the half-float decoder. *)
Definition sample_at (dtype : NumericType) (b : Buffer) (o : Z) : float :=
  match dtype with
  | Tint16 => Z2F (i16_at b o)
  | Tint32 | Ttimestamp => Z2F (i32_at b o)
  | Tfloat32 => float_of_bits 8 23 (u32_at b o)
  | Tfloat16 => decodeFloat16 Math_pow (u16_at b o)
  | Tgps => float_of_bits 11 52 (le_value (bytes_at b o 8))
  end.

(** The [n] raw values stored from offset [o] on. *)
Definition samples_at (dtype : NumericType) (b : Buffer) (o : Z) (n : nat)
  : list float :=
  map (fun i => sample_at dtype b (o + Z.of_nat i * width_of dtype)) (seq 0 n).

(** The raw value of a channel of data type [dt] stored at offset [o], as
    the specification has it: an int16 or int32 is a signed
    little-endian integer of 2 or 4 bytes, a float32 the IEEE-754 single
    of 4 bytes, a float16 what the half-float decoder makes of the 16
    bits. *)
Definition raw_value (dt : DataType) (b : Buffer) (o : Z) : float :=
  match dt with
  | int16 => Z2F (i16_at b o)
  | int32 => Z2F (i32_at b o)
  | float32 => float_of_bits 8 23 (u32_at b o)
  | float16 => decodeFloat16 Math_pow (u16_at b o)
  end.

End RawSamples.

(** ** Channels of a given name *)

Definition named (n : string) (ch : LdChan.t) : bool :=
  String.eqb (LdChan.name ch) n.

(** ** Ranges *)

(** The byte range [[position, position + width)] does not lie within the
    buffer. *)
Definition range_outside (b : Buffer) (position width : Z) : Prop :=
  position < 0 \/ Buffer_length b < position + width.

(** An integer read of [width] bytes throws exactly on the ranges that
    are outside the buffer, with the cursor left in place; otherwise it
    returns the value [at_ b position] and advances by [width]. *)
Definition throws_iff_outside (rd : M Z) (width : Z) (at_ : Buffer -> Z -> Z)
  : Prop :=
  forall r : BinaryReader,
    (range_outside (buffer r) (position r) width ->
       rd r = (Throw (RangeError (position r)), r))
    /\ (~ range_outside (buffer r) (position r) width ->
       rd r = (Ok (at_ (buffer r) (position r)),
               set_position (position r + width) r)).

(** ** The header at absolute offsets *)

(** The decoded text field of [n] bytes at offset [o]. *)
Definition text_at (b : Buffer) (o n : Z) : string :=
  decodeString (Buffer_slice b o (o + n)).

(** The fields of the header, each at the offset where
    [LdHead.fromFile] finds it. *)
Definition header_fields (b : Buffer) : HeadFields :=
  mkHeadFields (u32_at b 8) (u32_at b 12) (u32_at b 36)
    (text_at b 94 16) (text_at b 126 16) (text_at b 158 64)
    (text_at b 222 64) (text_at b 350 64) (text_at b 1572 64).

(** ** The chain of channel records *)

(** The [nextMetaPtr] field of the record at offset [p]. *)
Definition next_of (b : Buffer) (p : Z) : Z := u32_at b (p + 4).

(** The chain that starts at [p] visits the records at the offsets [ps],
    each with its first 32 bytes in the buffer, and then reaches 0. *)
Inductive chain_to_zero (b : Buffer) : Z -> list Z -> Prop :=
| chain_end : chain_to_zero b 0 []
| chain_step (p : Z) (ps : list Z) :
    p <> 0 -> in_bounds b p 32 = true ->
    chain_to_zero b (next_of b p) ps ->
    chain_to_zero b p (p :: ps).

(** The chain that starts at [p] comes back to [p] after [k] records,
    none of them at offset 0 or outside the buffer. *)
Definition chain_cycles (b : Buffer) (p : Z) (k : nat) : Prop :=
  (0 < k)%nat
  /\ Nat.iter k (next_of b) p = p
  /\ forall i : nat, (i < k)%nat ->
       Nat.iter i (next_of b) p <> 0
       /\ in_bounds b (Nat.iter i (next_of b) p) 32 = true.

(** The chain that starts at [p] comes back, after [k] records, to the
    offset it was at after [j] records (its start when [j] is 0), none
    of the [k] records at offset 0 or outside the buffer. *)
Definition chain_revisits (b : Buffer) (p : Z) (j k : nat) : Prop :=
  (j < k)%nat
  /\ Nat.iter k (next_of b) p = Nat.iter j (next_of b) p
  /\ forall i : nat, (i < k)%nat ->
       Nat.iter i (next_of b) p <> 0
       /\ in_bounds b (Nat.iter i (next_of b) p) 32 = true.

(** The chain that starts at [p] never reaches 0 and never leaves the
    buffer. *)
Definition chain_forever (b : Buffer) (p : Z) : Prop :=
  forall i : nat,
    Nat.iter i (next_of b) p <> 0
    /\ in_bounds b (Nat.iter i (next_of b) p) 32 = true.

(** ** The half-precision rules of the specification *)

(** The three rules, on the sign bit, the 5 exponent bits and the 10
    fraction bits; [Z.ldexp 1 k] is the double [2^k]. *)
Definition spec_half (sign exponent fraction : Z) : float :=
  let s : float := if sign =? 0 then 1%float else (-1)%float in
  if exponent =? 0 then
    (s * Z.ldexp 1 (-14) * (Z2F fraction / 1024))%float
  else if exponent =? 31 then
    (if fraction =? 0
     then (if sign =? 0 then infinity else neg_infinity)
     else nan)
  else
    (s * Z.ldexp 1 (exponent - 15) * (1 + Z2F fraction / 1024))%float.

(** [Math.pow] returns the powers of two that the half-float decoder
    asks for without error. *)
Definition pow_exact_on_two (Math_pow : float -> float -> float) : Prop :=
  forall k : Z, -14 <= k <= 15 -> Math_pow 2%float (Z2F k) = Z.ldexp 1 k.

(** ** The data map of a document *)

(** The cache of a channel, empty when it was never filled. *)
Definition cached (ch : LdChan.t) : list float :=
  match LdChan._data ch with
  | Some d => d
  | None => []
  end.

(** [result[channel.name] = data] for a channel whose data is cached. *)
Definition bind_channel (o : JsObject (list float)) (ch : LdChan.t)
  : JsObject (list float) :=
  JsObject_set (LdChan.name ch) (cached ch) o.

(** The names that can become own keys of the data map. *)
Definition is_own_key (n : string) : bool := negb (String.eqb n "__proto__").

(** ** The documents the sample buffers load to *)

Definition empty_head : LdHead.t :=
  LdHead.mk 1762 0 0 None "J.Doe" "" "" DateNow "".

Definition duplicate_data : LdData.t :=
  LdData.mk
    (LdHead.mk 1762 0 0 None "J.Doe" "" "" (DateOf 2005 10 23 9 53 0) "")
    [channel_record duplicate_doc 1762; channel_record duplicate_doc 1886]
    (mkReader duplicate_doc 2010).

Definition proto_data : LdData.t :=
  LdData.mk empty_head [channel_record proto_doc 1762]
    (mkReader proto_doc 1886).

(** ** Ranges of integers *)

(** The [n] integers from [from] on. *)
Fixpoint zrange (n : nat) (from : Z) : list Z :=
  match n with
  | O => []
  | S n' => from :: zrange n' (from + 1)
  end.

(** ** Strings and text fields *)

(** The bytes of a string, one per character. *)
Definition bytes_of_string (s : string) : list byte :=
  map byte_of_ascii (list_ascii_of_string s).

(** Every character of [s] satisfies [p]. *)
Fixpoint all_chars (p : ascii -> bool) (s : string) : bool :=
  match s with
  | EmptyString => true
  | String c s' => p c && all_chars p s'
  end.

(** The first, and the last, character of [s] is JS white space. *)
Definition first_is_space (s : string) : bool :=
  match s with
  | EmptyString => false
  | String c _ => is_js_space c
  end.

Fixpoint last_is_space (s : string) : bool :=
  match s with
  | EmptyString => false
  | String c EmptyString => is_js_space c
  | String _ s' => last_is_space s'
  end.

(** A 7-bit character other than NUL. *)
Definition is_ascii7 (c : ascii) : bool :=
  let n := N_of_ascii c in ((0 <? n) && (n <? 128))%N.

(** A text that a zero-padded field holds as it is: 7-bit characters,
    no NUL, no white space at either end. *)
Definition clean_text (s : string) : bool :=
  all_chars is_ascii7 s && negb (first_is_space s) && negb (last_is_space s).

(** ** The nested records at absolute offsets *)

(** The vehicle record that starts at offset [p]. *)
Definition vehicle_record (b : Buffer) (p : Z) : LdVehicle.t :=
  LdVehicle.mk (text_at b p 64) (u32_at b (p + 192))
    (text_at b (p + 196) 32) (text_at b (p + 228) 32).

(** The one read of a vehicle record that can leave the buffer. *)
Definition vehicle_in_buffer (b : Buffer) (p : Z) : bool :=
  in_bounds b (p + 192) 4.

(** The venue record that starts at offset [p], with the vehicle its
    pointer leads to. *)
Definition venue_record (b : Buffer) (p : Z) : LdVenue.t :=
  let vehiclePtr := u16_at b (p + 1098) in
  LdVenue.mk (text_at b p 64) vehiclePtr
    (if 0 <? vehiclePtr then Some (vehicle_record b vehiclePtr) else None).

Definition venue_in_buffer (b : Buffer) (p : Z) : bool :=
  in_bounds b (p + 1098) 2
  && (let vehiclePtr := u16_at b (p + 1098) in
      if 0 <? vehiclePtr then vehicle_in_buffer b vehiclePtr else true).

(** The event record that starts at offset [p], with the venue its
    pointer leads to. *)
Definition event_record (b : Buffer) (p : Z) : LdEvent.t :=
  let venuePtr := u16_at b (p + 1152) in
  LdEvent.mk (text_at b p 64) (text_at b (p + 64) 64)
    (text_at b (p + 128) 1024) venuePtr
    (if 0 <? venuePtr then Some (venue_record b venuePtr) else None).

Definition event_in_buffer (b : Buffer) (p : Z) : bool :=
  in_bounds b (p + 1152) 2
  && (let venuePtr := u16_at b (p + 1152) in
      if 0 <? venuePtr then venue_in_buffer b venuePtr else true).

(** The header of a buffer, with the event its pointer leads to. *)
Definition head_record (b : Buffer) : LdHead.t :=
  let f := header_fields b in
  LdHead.mk (hf_metaPtr f) (hf_dataPtr f) (hf_eventPtr f)
    (if 0 <? hf_eventPtr f then Some (event_record b (hf_eventPtr f)) else None)
    (hf_driver f) (hf_vehicleId f) (hf_venue f)
    (parse_datetime (hf_dateStr f) (hf_timeStr f)) (hf_shortComment f).

Definition head_in_buffer (b : Buffer) : bool :=
  in_bounds b 0 40
  && (let eventPtr := u32_at b 36 in
      if 0 <? eventPtr then event_in_buffer b eventPtr else true).

(** ** A buffer with an event, a venue and a vehicle *)

Definition event_bytes (name session comment : string) (venuePtr : Z)
  : list byte :=
  text 64 name ++ text 64 session ++ text 1024 comment ++ le_bytes 2 venuePtr.

Definition venue_bytes (name : string) (vehiclePtr : Z) : list byte :=
  text 64 name ++ zeros 1034 ++ le_bytes 2 vehiclePtr.

Definition vehicle_bytes (id : string) (weight : Z) (type comment : string)
  : list byte :=
  text 64 id ++ zeros 128 ++ le_bytes 4 weight ++ text 32 type
  ++ text 32 comment.

(** A header without channels whose event pointer leads to an event at
    1762, whose venue pointer leads to a venue at 2916, whose vehicle
    pointer leads to a vehicle at 4016. *)
Definition nested_doc : Buffer := Eval vm_compute in
  let h := header_bytes 0 "23/11/2005" "09:53" "J.Doe" "Car7" "Spa" "Wet" in
  firstn 36 h ++ le_bytes 4 1762 ++ skipn 40 h
  ++ event_bytes "Race" "Q1" "dry" 2916
  ++ venue_bytes "Spa" 4016
  ++ vehicle_bytes "Car7" 1200 "GT3" "new".

(** ** Decimal texts *)

(** [parseInt] of a text of decimal digits. *)
Definition decimal (s : string) : Z :=
  match digits (String.length s) 0 s with
  | Some (v, _) => v
  | None => 0
  end.

(** A text of exactly [n] decimal digits. *)
Definition is_digits (n : nat) (s : string) : bool :=
  Nat.eqb (String.length s) n && all_chars is_digit s.

(** ** Linked channels *)

(** The channels [chs] are linked from the pointer [p]: [p] is the
    [metaPtr] of the first, the [nextMetaPtr] of each is the [metaPtr] of
    the next, and the [nextMetaPtr] of the last is 0 ([p] itself is 0
    when there is no channel). *)
Fixpoint linked (p : Z) (chs : list LdChan.t) : Prop :=
  match chs with
  | [] => p = 0
  | ch :: rest =>
      p <> 0 /\ LdChan.metaPtr ch = p /\ linked (LdChan.nextMetaPtr ch) rest
  end.

(** ** Finite numbers *)

(** The finite number [m * 2^e] counted in units of [2^(-1074)], the
    smallest positive binary64 number. *)
Definition quanta (m : positive) (e : Z) : Z := Z.pos m * 2 ^ (e + 1074).

(** ** The documents of two more sample buffers *)


(** ** Values that are not finite *)

(** The float is an infinity or NaN. *)
Definition non_finite (x : float) : bool :=
  match Prim2SF x with
  | S754_infinity _ | S754_nan => true
  | S754_zero _ | S754_finite _ _ _ => false
  end.

(** ** Chains that leave the buffer *)

(** The chain that starts at [p] visits [n] records and then names a
    record (not at offset 0) whose first 32 bytes are not all in the
    buffer. *)
Inductive chain_to_outside (b : Buffer) : Z -> nat -> Prop :=
| chain_outside (p : Z) :
    p <> 0 -> in_bounds b p 32 = false -> chain_to_outside b p 0
| chain_inside (p : Z) (n : nat) :
    p <> 0 -> in_bounds b p 32 = true ->
    chain_to_outside b (next_of b p) n ->
    chain_to_outside b p (S n).

(** * Properties *)

(** ** The data-type table *)

Lemma resolve_dtype_table (c w : Z) :
  resolve_dtype c w = spec_dtype_table c w.
Proof.
  unfold resolve_dtype, spec_dtype_table; simpl.
  destruct c as [|[[[]|[]|]|[[]|[]|]|]|]; simpl; try reflexivity;
    destruct w as [|[[[]|[]|]|[[]|[]|]|]|]; reflexivity.
Qed.

(** ** Bounds *)

Lemma in_bounds_iff (b : Buffer) (o w : Z) :
  in_bounds b o w = true <-> 0 <= o /\ o + w <= Buffer_length b.
Proof.
  unfold in_bounds. rewrite andb_true_iff, !Z.leb_le. reflexivity.
Qed.

Lemma in_bounds_false_iff (b : Buffer) (o w : Z) :
  in_bounds b o w = false <-> o < 0 \/ Buffer_length b < o + w.
Proof.
  unfold in_bounds. rewrite andb_false_iff, !Z.leb_gt. reflexivity.
Qed.

Lemma in_bounds_sub (b : Buffer) (p n o w : Z) :
  in_bounds b p n = true -> p <= o -> o + w <= p + n ->
  in_bounds b o w = true.
Proof. rewrite !in_bounds_iff. lia. Qed.

(** *** One step of a reader method *)

Lemma bind_ret {A B} (a : A) (k : A -> M B) (r : BinaryReader) :
  bind (ret a) k r = k a r.
Proof. reflexivity. Qed.

Lemma bind_seek {B} (p : Z) (k : unit -> M B) (r : BinaryReader) :
  bind (seek p) k r = k tt (set_position p r).
Proof. reflexivity. Qed.

Lemma bind_skip {B} (n : Z) (k : unit -> M B) (r : BinaryReader) :
  bind (skip n) k r = k tt (set_position (position r + n) r).
Proof. reflexivity. Qed.

Lemma bind_tell {B} (k : Z -> M B) (r : BinaryReader) :
  bind tell k r = k (position r) r.
Proof. reflexivity. Qed.

Lemma bind_readBytes {B} (n : Z) (k : Buffer -> M B) (r : BinaryReader) :
  bind (readBytes n) k r
  = k (Buffer_slice (buffer r) (position r) (position r + n))
      (set_position (position r + n) r).
Proof. reflexivity. Qed.

Lemma bind_readUInt32LE {B} (k : Z -> M B) (r : BinaryReader) :
  in_bounds (buffer r) (position r) 4 = true ->
  bind readUInt32LE k r
  = k (u32_at (buffer r) (position r)) (set_position (position r + 4) r).
Proof.
  intros H. unfold bind, readUInt32LE, read_with, Buffer_readUInt32LE,
    Buffer_readUIntLE. rewrite H. reflexivity.
Qed.

Lemma bind_readUInt16LE {B} (k : Z -> M B) (r : BinaryReader) :
  in_bounds (buffer r) (position r) 2 = true ->
  bind readUInt16LE k r
  = k (u16_at (buffer r) (position r)) (set_position (position r + 2) r).
Proof.
  intros H. unfold bind, readUInt16LE, read_with, Buffer_readUInt16LE,
    Buffer_readUIntLE. rewrite H. reflexivity.
Qed.

Lemma bind_readInt16LE {B} (k : Z -> M B) (r : BinaryReader) :
  in_bounds (buffer r) (position r) 2 = true ->
  bind readInt16LE k r
  = k (i16_at (buffer r) (position r)) (set_position (position r + 2) r).
Proof.
  intros H. unfold bind, readInt16LE, read_with, Buffer_readInt16LE,
    Buffer_readIntLE, Buffer_readUIntLE. rewrite H. reflexivity.
Qed.

Lemma bind_readInt32LE {B} (k : Z -> M B) (r : BinaryReader) :
  in_bounds (buffer r) (position r) 4 = true ->
  bind readInt32LE k r
  = k (i32_at (buffer r) (position r)) (set_position (position r + 4) r).
Proof.
  intros H. unfold bind, readInt32LE, read_with, Buffer_readInt32LE,
    Buffer_readIntLE, Buffer_readUIntLE. rewrite H. reflexivity.
Qed.

(** A read that throws ends the method, with the cursor where it was. *)
Lemma bind_read_throw {A B} (rd : Buffer -> Z -> Result A) (w : Z)
    (k : A -> M B) (r : BinaryReader) (e : Error) :
  rd (buffer r) (position r) = Throw e ->
  bind (read_with rd w) k r = (Throw e, r).
Proof. intros H. unfold bind, read_with. rewrite H. reflexivity. Qed.

(** Runs a method through its reads, all of which lie in the range that
    [H] says is in bounds. *)
Ltac in_range H :=
  cbn [buffer position set_position];
  eapply in_bounds_sub; [exact H | lia | lia].

Ltac run_step H :=
  first
    [ rewrite bind_seek
    | rewrite bind_skip
    | rewrite bind_readBytes
    | rewrite bind_tell
    | rewrite bind_ret
    | rewrite bind_readUInt32LE by in_range H
    | rewrite bind_readUInt16LE by in_range H
    | rewrite bind_readInt16LE by in_range H
    | rewrite bind_readInt32LE by in_range H ];
  cbn [buffer position set_position].

(** Brings [p + a + b] to [p + (a + b)] with the constants added up. *)
Ltac sum_offsets p :=
  repeat match goal with
  | |- context [p + ?a + ?c] =>
      replace (p + a + c) with (p + (a + c)) by lia; simpl (a + c)
  end.

Lemma LdChan_fromFile_ok (r : BinaryReader) (p : Z) :
  in_bounds (buffer r) p 32 = true ->
  LdChan_fromFile p r
  = (Ok (channel_record (buffer r) p), set_position (p + 124) r).
Proof.
  intros H. unfold LdChan_fromFile.
  repeat run_step H.
  unfold ret, channel_record, set_position. sum_offsets p.
  reflexivity.
Qed.

Lemma readU_throw (w : Z) (b : Buffer) (o : Z) :
  in_bounds b o w = false ->
  Buffer_readUIntLE w b o = Throw (RangeError o).
Proof. intros H. unfold Buffer_readUIntLE. rewrite H. reflexivity. Qed.

Lemma readI_throw (w : Z) (b : Buffer) (o : Z) :
  in_bounds b o w = false ->
  Buffer_readIntLE w b o = Throw (RangeError o).
Proof. intros H. unfold Buffer_readIntLE. rewrite readU_throw; auto. Qed.

(** One read of a method that may throw: either the read is in bounds and
    the method goes on, or the goal is closed by the exception. *)
Ltac read_or_throw :=
  match goal with
  | |- context [bind readUInt32LE ?k ?r] =>
      destruct (in_bounds (buffer r) (position r) 4) eqn:?;
      [ rewrite bind_readUInt32LE by assumption
      | unfold readUInt32LE; erewrite bind_read_throw
          by (apply readU_throw; eassumption); eauto ]
  | |- context [bind readUInt16LE ?k ?r] =>
      destruct (in_bounds (buffer r) (position r) 2) eqn:?;
      [ rewrite bind_readUInt16LE by assumption
      | unfold readUInt16LE; erewrite bind_read_throw
          by (apply readU_throw; eassumption); eauto ]
  | |- context [bind readInt16LE ?k ?r] =>
      destruct (in_bounds (buffer r) (position r) 2) eqn:?;
      [ rewrite bind_readInt16LE by assumption
      | unfold readInt16LE; erewrite bind_read_throw
          by (apply readI_throw; eassumption); eauto ]
  end.

Ltac run_or_throw :=
  repeat (first
    [ rewrite bind_seek | rewrite bind_skip | rewrite bind_readBytes
    | rewrite bind_tell | rewrite bind_ret | read_or_throw ];
    cbn [buffer position set_position]).

(** The only way [LdChan.fromFile] fails is a read outside the buffer,
    and it does fail when the first 32 bytes of the record are not all
    there. *)
Lemma LdChan_fromFile_throw (r : BinaryReader) (p : Z) :
  in_bounds (buffer r) p 32 = false ->
  exists o r', LdChan_fromFile p r = (Throw (RangeError o), r').
Proof.
  intros H. unfold LdChan_fromFile.
  run_or_throw.
  cbn [buffer position set_position] in *.
  repeat match goal with
  | E : in_bounds _ _ _ = true |- _ => apply in_bounds_iff in E
  end.
  apply in_bounds_false_iff in H. lia.
Qed.

(** ** Data-type resolution of a parsed record (C6, C8) *)

(** C6. The dtype of every parsed channel record is the one the table of
    the specification gives for its class (the 16-bit field at offset 18
    of the record) and its width (the field at offset 20): class 7 gives
    float16 for width 2 and float32 for width 4; class 0, 3 or 5 gives
    int16 for width 2 and int32 for width 4; everything else is unknown. *)
Theorem C6_dtype_resolution (r r' : BinaryReader) (metaPtr : Z) (ch : LdChan.t) :
  LdChan_fromFile metaPtr r = (Ok ch, r') ->
  LdChan.dtype ch
  = spec_dtype_table (u16_at (buffer r) (metaPtr + 18))
                     (u16_at (buffer r) (metaPtr + 20)).
Proof.
  intros H.
  destruct (in_bounds (buffer r) metaPtr 32) eqn:Hb.
  - rewrite LdChan_fromFile_ok in H by assumption.
    injection H as <- _. cbn. apply resolve_dtype_table.
  - destruct (LdChan_fromFile_throw r metaPtr Hb) as (o & r0 & E).
    rewrite E in H. discriminate.
Qed.

Lemma C6_dtype_resolution_witness :
  LdChan_fromFile 1762 (mkReader scenario_doc 0)
  = (Ok (channel_record scenario_doc 1762), mkReader scenario_doc 1886)
  /\ LdChan.dtype (channel_record scenario_doc 1762) = Some int16.
Proof.
  split.
  - vm_compute. reflexivity.
  - rewrite (C6_dtype_resolution (mkReader scenario_doc 0)
               (mkReader scenario_doc 1886) 1762).
    + vm_compute. reflexivity.
    + vm_compute. reflexivity.
Defined.

(** C8. An unknown data type is no error when the record is parsed and
    an error only when the samples are asked for:
    - whether [LdChan.fromFile] returns depends on the 32 bytes of the
      record being in the buffer and on nothing else, and for a class and
      width outside the table it returns a channel whose dtype is
      unknown;
    - [data] of such a channel throws the unknown-data-type error that
      names the channel, and leaves the channel and the shared reader as
      they were, so that the data of every other channel is what it
      would have been without the failed access. *)
Theorem C8_unknown_dtype_at_access (Math_pow : float -> float -> float) :
  (forall (r : BinaryReader) (metaPtr : Z),
      in_bounds (buffer r) metaPtr 32 = true ->
      spec_dtype_table (u16_at (buffer r) (metaPtr + 18))
                       (u16_at (buffer r) (metaPtr + 20)) = None ->
      exists ch r',
        LdChan_fromFile metaPtr r = (Ok ch, r') /\ LdChan.dtype ch = None)
  /\ (forall (r : BinaryReader) (metaPtr : Z),
      is_Ok (fst (LdChan_fromFile metaPtr r)) = in_bounds (buffer r) metaPtr 32)
  /\ (forall (ch : LdChan.t) (r : BinaryReader),
      LdChan.dtype ch = None ->
      LdChan_data Math_pow ch r
      = (Throw (UnknownDataType (LdChan.name ch)), ch, r))
  /\ (forall (ch other : LdChan.t) (r : BinaryReader),
      LdChan.dtype ch = None ->
      LdChan_data Math_pow other (snd (LdChan_data Math_pow ch r))
      = LdChan_data Math_pow other r).
Proof.
  repeat split.
  - intros r p Hb Ht. exists (channel_record (buffer r) p), (set_position (p + 124) r).
    split; [apply LdChan_fromFile_ok; assumption|].
    cbn. rewrite resolve_dtype_table. exact Ht.
  - intros r p. destruct (in_bounds (buffer r) p 32) eqn:Hb.
    + rewrite LdChan_fromFile_ok by assumption. reflexivity.
    + destruct (LdChan_fromFile_throw r p Hb) as (o & r0 & E).
      rewrite E. reflexivity.
  - intros ch r H. unfold LdChan_data. rewrite H. reflexivity.
  - intros ch other r H. unfold LdChan_data at 2. rewrite H. reflexivity.
Qed.

Lemma C8_unknown_dtype_at_access_witness :
  let r := mkReader unknown_doc 0 in
  let mystery := channel_record unknown_doc 1762 in
  let speed := channel_record unknown_doc 1886 in
  LdChan_fromFile 1762 r = (Ok mystery, mkReader unknown_doc 1886)
  /\ LdChan.dtype mystery = None
  /\ LdChan_data pow_by_products mystery r
     = (Throw (UnknownDataType "Mystery"), mystery, r)
  /\ fst (fst (LdChan_data pow_by_products speed
                 (snd (LdChan_data pow_by_products mystery r))))
     = Ok [5%float].
Proof.
  intros r mystery speed.
  destruct (C8_unknown_dtype_at_access pow_by_products) as (H1 & H2 & H3 & H4).
  split; [vm_compute; reflexivity|].
  split; [vm_compute; reflexivity|].
  split.
  - apply (H3 mystery r). vm_compute. reflexivity.
  - rewrite (H4 mystery speed r) by (vm_compute; reflexivity).
    vm_compute. reflexivity.
Defined.

(** ** The cache of a channel (C9) *)

(** C9. When [data] returns a sequence, that sequence is then in the
    cache of the channel, and every later access returns the same
    sequence whatever the reader holds (buffer and cursor) and leaves
    the reader and the channel as they are: nothing is read again. *)
Theorem C9_data_memoized (Math_pow : float -> float -> float)
    (ch ch' : LdChan.t) (r r' : BinaryReader) (xs : list float) :
  LdChan_data Math_pow ch r = (Ok xs, ch', r') ->
  LdChan._data ch' = Some xs
  /\ (LdChan._data ch = None -> ch' = LdChan.set_data xs ch)
  /\ forall r2 : BinaryReader,
       LdChan_data Math_pow ch' r2 = (Ok xs, ch', r2).
Proof.
  unfold LdChan_data. intros H.
  destruct (LdChan.dtype ch) as [dt|] eqn:Hd; [|discriminate].
  destruct (LdChan._data ch) as [d|] eqn:Hc.
  - injection H as <- <- <-. rewrite Hd, Hc. repeat split. discriminate.
  - destruct (readNumericArray _ _ _ _ _) as [[raw|e] r1]; [|discriminate].
    injection H as <- <- <-. cbn. rewrite Hd. repeat split.
Qed.

Lemma C9_data_memoized_witness :
  let ch := channel_record scenario_doc 1762 in
  let r := mkReader scenario_doc 0 in
  let xs := [1%float; 2%float; 3%float] in
  LdChan_data pow_by_products ch r
  = (Ok xs, LdChan.set_data xs ch, mkReader scenario_doc 1892)
  /\ LdChan_data pow_by_products (LdChan.set_data xs ch) (mkReader [] 0)
     = (Ok xs, LdChan.set_data xs ch, mkReader [] 0).
Proof.
  intros ch r xs.
  assert (H : LdChan_data pow_by_products ch r
              = (Ok xs, LdChan.set_data xs ch, mkReader scenario_doc 1892))
    by (vm_compute; reflexivity).
  split; [exact H|].
  exact (proj2 (proj2 (C9_data_memoized pow_by_products ch _ r _ xs H))
           (mkReader [] 0)).
Defined.

(** ** Reads of the cursor and the end of the buffer (C5) *)

Lemma range_outside_iff (b : Buffer) (o w : Z) :
  range_outside b o w <-> in_bounds b o w = false.
Proof. rewrite in_bounds_false_iff. reflexivity. Qed.

Lemma read_with_U_spec (w : Z) :
  throws_iff_outside (read_with (Buffer_readUIntLE w) w)
    w (fun b o => le_value (bytes_at b o w)).
Proof.
  intros r. unfold read_with, Buffer_readUIntLE. split; intros H.
  - apply range_outside_iff in H. rewrite H. reflexivity.
  - destruct (in_bounds (buffer r) (position r) w) eqn:E; [reflexivity|].
    exfalso. apply H, range_outside_iff, E.
Qed.

Lemma read_with_I_spec (w : Z) :
  throws_iff_outside (read_with (Buffer_readIntLE w) w)
    w (fun b o => to_signed (8 * w) (le_value (bytes_at b o w))).
Proof.
  intros r. unfold read_with, Buffer_readIntLE, Buffer_readUIntLE.
  split; intros H.
  - apply range_outside_iff in H. rewrite H. reflexivity.
  - destruct (in_bounds (buffer r) (position r) w) eqn:E; [reflexivity|].
    exfalso. apply H, range_outside_iff, E.
Qed.

Lemma bytes_at_length (b : Buffer) (s k : Z) :
  0 <= s -> 0 <= k ->
  Z.of_nat (length (bytes_at b s k))
  = Z.min k (Z.max 0 (Buffer_length b - s)).
Proof.
  intros Hs Hk. unfold bytes_at, Buffer_length.
  rewrite length_firstn, length_skipn. lia.
Qed.

Lemma adjustOffset_nonneg (o len : Z) :
  0 <= o -> 0 <= len -> adjustOffset o len = Z.min o len.
Proof.
  intros Ho Hl. unfold adjustOffset.
  destruct (Z.eqb_spec o 0); [lia|].
  destruct (Z.ltb_spec o 0); [lia|].
  destruct (Z.ltb_spec o len); lia.
Qed.

(** What [buf.slice(position, position + n)] holds of a buffer: the part
    of the range that is in the buffer. *)
Lemma Buffer_slice_length (b : Buffer) (p n : Z) :
  0 <= p -> 0 <= n ->
  Z.of_nat (length (Buffer_slice b p (p + n)))
  = Z.min n (Z.max 0 (Buffer_length b - p)).
Proof.
  intros Hp Hn. unfold Buffer_slice.
  assert (0 <= Buffer_length b) by (unfold Buffer_length; lia).
  rewrite !adjustOffset_nonneg by lia. cbn zeta.
  destruct (Z.ltb_spec (Z.min p (Buffer_length b))
              (Z.min (p + n) (Buffer_length b)));
    rewrite bytes_at_length by lia; lia.
Qed.

Lemma Buffer_slice_in_range (b : Buffer) (p n : Z) :
  in_bounds b p n = true -> 0 <= n ->
  Buffer_slice b p (p + n) = bytes_at b p n.
Proof.
  intros Hb Hn. apply in_bounds_iff in Hb. unfold Buffer_slice.
  rewrite !adjustOffset_nonneg by lia. cbn zeta.
  destruct (Z.ltb_spec (Z.min p (Buffer_length b))
              (Z.min (p + n) (Buffer_length b))).
  - f_equal; lia.
  - replace n with 0 by lia. unfold bytes_at. reflexivity.
Qed.

(** [buf.slice(position, position + n)] on any range that starts at or
    after 0: the bytes from [position] on, [n] of them or as many as the
    buffer has. *)
Lemma Buffer_slice_clamped (b : Buffer) (p n : Z) :
  0 <= p -> 0 <= n ->
  Buffer_slice b p (p + n) = bytes_at b p n.
Proof.
  intros Hp Hn. unfold Buffer_slice.
  assert (Hl : 0 <= Buffer_length b) by (unfold Buffer_length; lia).
  rewrite !adjustOffset_nonneg by lia. cbn zeta.
  pose proof (length_skipn (Z.to_nat p) b) as Hs.
  destruct (Z.ltb_spec (Z.min p (Buffer_length b))
              (Z.min (p + n) (Buffer_length b))) as [H|H].
  - replace (Z.min p (Buffer_length b)) with p by lia. unfold bytes_at.
    destruct (Z.le_gt_cases (p + n) (Buffer_length b)) as [Hin|Hout].
    + do 2 f_equal. lia.
    + rewrite !firstn_all2; [reflexivity | |];
        unfold Buffer_length in *; lia.
  - transitivity (@nil byte); [reflexivity|]. symmetry. unfold bytes_at.
    destruct (Z.eq_dec n 0) as [->|Hn0]; [reflexivity|].
    rewrite (skipn_all2 (n := Z.to_nat p))
      by (unfold Buffer_length in *; lia).
    apply firstn_nil.
Qed.

(** The bytes of a slice are those of the buffer, in place. *)
Lemma bytes_at_lookup (b : Buffer) (p n : Z) (i : nat) :
  (i < length (bytes_at b p n))%nat ->
  bytes_at b p n !! i = b !! (Z.to_nat p + i)%nat.
Proof.
  unfold bytes_at. intros Hi. rewrite length_firstn in Hi.
  rewrite lookup_take_lt by lia. apply lookup_drop.
Qed.

(** C5, as the code has it.  Each of the four integer reads throws the
    out-of-range error exactly when the range [[position, position +
    width)] is not inside the buffer, and then leaves the cursor where it
    was; inside the buffer it returns the little-endian value and advances
    by the width.  [readBytes(n)] never throws: it advances by [n] and
    returns the bytes of the range that lie within the buffer, each byte
    that of the buffer at its place, which are all [n] bytes when the
    range is inside the buffer and fewer (down to none) when it is
    not. *)
Theorem C5_reads_and_buffer_end :
  throws_iff_outside readUInt16LE 2 u16_at
  /\ throws_iff_outside readInt16LE 2 i16_at
  /\ throws_iff_outside readUInt32LE 4 u32_at
  /\ throws_iff_outside readInt32LE 4 i32_at
  /\ forall (n : Z) (r : BinaryReader),
       exists bs : Buffer,
         readBytes n r = (Ok bs, set_position (position r + n) r)
         /\ (0 <= position r -> 0 <= n ->
             Z.of_nat (length bs)
             = Z.min n (Z.max 0 (Buffer_length (buffer r) - position r))
             /\ forall i : nat,
                  (i < length bs)%nat ->
                  bs !! i = buffer r !! (Z.to_nat (position r) + i)%nat)
         /\ (in_bounds (buffer r) (position r) n = true -> 0 <= n ->
             bs = bytes_at (buffer r) (position r) n).
Proof.
  split; [exact (read_with_U_spec 2)|].
  split; [exact (read_with_I_spec 2)|].
  split; [exact (read_with_U_spec 4)|].
  split; [exact (read_with_I_spec 4)|].
  intros n r. eexists. split; [reflexivity|]. split.
  - intros Hp Hn. split; [apply Buffer_slice_length; assumption|].
    rewrite Buffer_slice_clamped by assumption. apply bytes_at_lookup.
  - apply Buffer_slice_in_range.
Qed.

(** C5 as stated fails for [readBytes]: on the empty buffer the range
    [[0, 4)] exceeds the buffer, and [readBytes(4)] returns (an empty
    slice) instead of throwing. *)
Lemma C5_readBytes_counterexample :
  let r := mkReader [] 0 in
  range_outside (buffer r) (position r) 4
  /\ readBytes 4 r = (Ok [], mkReader [] 4)
  /\ ~ (is_Ok (fst (readBytes 4 r)) = false
        <-> range_outside (buffer r) (position r) 4).
Proof.
  cbn zeta. split; [right; reflexivity|]. split; [reflexivity|].
  intros [_ H]. assert (Ho : range_outside [] 0 4) by (right; reflexivity).
  specialize (H Ho). cbn in H. discriminate.
Qed.

Lemma C5_reads_and_buffer_end_witness :
  let r := mkReader scenario_doc 1890 in
  readInt16LE r = (Ok 30, mkReader scenario_doc 1892)
  /\ readInt32LE r = (Throw (RangeError 1890), r)
  /\ readBytes 4 r = (Ok [x1e; x00], mkReader scenario_doc 1894).
Proof.
  intros r.
  destruct C5_reads_and_buffer_end as (_ & H16 & _ & H32 & HB).
  split; [|split].
  - rewrite (proj2 (H16 r)); [vm_compute; reflexivity|].
    intros [H|H]; vm_compute in H; discriminate.
  - rewrite (proj1 (H32 r)); [reflexivity|]. right. vm_compute. reflexivity.
  - destruct (HB 4 r) as (bs & E & H & _).
    destruct H as [L P]; [discriminate | discriminate |].
    change (Z.min 4 (Z.max 0 (Buffer_length (buffer r) - position r)))
      with 2 in L.
    destruct bs as [|a [|b [|c bs]]]; cbn [length] in L; try lia.
    pose proof (P 0%nat ltac:(cbn; lia)) as P0.
    pose proof (P 1%nat ltac:(cbn; lia)) as P1.
    vm_compute in P0, P1. injection P0 as ->. injection P1 as ->.
    exact E.
Defined.

(** ** Looking up a channel (C7) *)

(** Two positions of a list that satisfy [f] leave at least two
    elements in the filtered list. *)
Lemma filter_two_lt {A} (f : A -> bool) (l : list A) (i j : nat) (a b : A) :
  (i < j)%nat -> l !! i = Some a -> l !! j = Some b ->
  f a = true -> f b = true ->
  exists x y t, List.filter f l = x :: y :: t.
Proof.
  intros Hij Hi Hj Ha Hb.
  rewrite <- (take_drop_middle l i a Hi).
  assert (Hj' : drop (S i) l !! (j - S i)%nat = Some b).
  { rewrite lookup_drop. rewrite <- Hj. f_equal. lia. }
  rewrite <- (take_drop_middle _ _ b Hj').
  rewrite List.filter_app. cbn [List.filter]. rewrite Ha.
  rewrite List.filter_app. cbn [List.filter]. rewrite Hb.
  destruct (List.filter f (take i l)) as [|x [|y t]]; cbn.
  - destruct (List.filter f (take (j - S i) (drop (S i) l))); cbn; eauto.
  - destruct (List.filter f (take (j - S i) (drop (S i) l))); cbn; eauto.
  - eauto.
Qed.

Lemma filter_two {A} (f : A -> bool) (l : list A) (i j : nat) (a b : A) :
  i <> j -> l !! i = Some a -> l !! j = Some b ->
  f a = true -> f b = true ->
  exists x y t, List.filter f l = x :: y :: t.
Proof.
  intros Hij Hi Hj Ha Hb.
  destruct (Nat.lt_ge_cases i j).
  - eapply filter_two_lt; eauto.
  - eapply (filter_two_lt f l j i); eauto. lia.
Qed.

Lemma filter_none {A} (f : A -> bool) (l : list A) :
  (forall x, In x l -> f x = false) -> List.filter f l = [].
Proof.
  induction l as [|x l IH]; intros H; [reflexivity|].
  cbn. rewrite (H x) by (left; reflexivity).
  apply IH. intros y Hy. apply H. right. exact Hy.
Qed.

(** *** JS numbers that hold integers *)

(** The binary digits of a mantissa. *)
Lemma digits2_pos_bounds (p : positive) :
  2 ^ (Z.pos (digits2_pos p) - 1) <= Z.pos p < 2 ^ Z.pos (digits2_pos p).
Proof.
  induction p as [p IH|p IH|]; cbn [digits2_pos].
  - rewrite Pos2Z.inj_succ.
    replace (Z.succ (Z.pos (digits2_pos p)) - 1) with (Z.succ (Z.pos (digits2_pos p) - 1)) by lia.
    rewrite !Z.pow_succ_r by lia. lia.
  - rewrite Pos2Z.inj_succ.
    replace (Z.succ (Z.pos (digits2_pos p)) - 1) with (Z.succ (Z.pos (digits2_pos p) - 1)) by lia.
    rewrite !Z.pow_succ_r by lia. lia.
  - cbn. lia.
Qed.

Lemma digits2_pos_shift (p k : positive) :
  digits2_pos (Pos.iter xO p k) = (digits2_pos p + k)%positive.
Proof.
  induction k as [|k IH] using Pos.peano_ind.
  - cbn. lia.
  - rewrite Pos.iter_succ. cbn [digits2_pos]. rewrite IH. lia.
Qed.

Lemma shifted_mantissa (p k : positive) :
  Z.pos (Pos.iter xO p k) = Z.pos p * 2 ^ Z.pos k.
Proof.
  induction k as [|k IH] using Pos.peano_ind.
  - cbn. lia.
  - rewrite Pos.iter_succ, Pos2Z.inj_succ, Z.pow_succ_r by lia.
    rewrite Pos2Z.inj_xO, IH. lia.
Qed.

Lemma binary_round_aux_canonical (s : bool) (m : positive) (e : Z) :
  Z.pos (digits2_pos m) = 53 -> -1074 <= e <= 971 ->
  binary_round_aux prec emax s (Z.pos m) e loc_Exact = S754_finite s m e.
Proof.
  intros Hd He.
  unfold binary_round_aux, shr_fexp, fexp, emin, Zdigits2, prec, emax.
  rewrite Hd.
  replace (Z.max (53 + e - 53) (3 - 1024 - 53) - e) with 0 by lia.
  cbn [shr shr_record_of_loc shr_m loc_of_shr_record round_nearest_even].
  rewrite Hd.
  replace (Z.max (53 + e - 53) (3 - 1024 - 53) - e) with 0 by lia.
  cbn [shr shr_record_of_loc shr_m].
  destruct (Z.leb_spec e (1024 - 53)); [reflexivity|lia].
Qed.

(** The form of the number that holds a positive integer below 2^53. *)
Lemma Prim2SF_Z2F_pos (n : Z) :
  0 < n < 2 ^ 53 ->
  exists (m : positive) (e : Z),
    Prim2SF (Z2F n) = S754_finite false m e
    /\ -52 <= e <= 0
    /\ Z.pos m = n * 2 ^ (- e).
Proof.
  intros Hn. unfold Z2F. destruct (Z.ltb_spec n 0); [lia|].
  rewrite of_uint63_spec, Uint63.of_Z_spec.
  rewrite Z.mod_small by (change wB with (2 ^ 63); split; [lia|];
    apply Z.lt_trans with (2 ^ 53); [lia | reflexivity]).
  destruct n as [|p|p]; try lia.
  pose proof (digits2_pos_bounds p) as Hp.
  assert (Hd : Z.pos (digits2_pos p) <= 53).
  { destruct (Z.le_gt_cases (Z.pos (digits2_pos p)) 53) as [|Hgt]; [assumption|].
    exfalso.
    assert (2 ^ 53 <= 2 ^ (Z.pos (digits2_pos p) - 1))
      by (apply Z.pow_le_mono_r; lia).
    lia. }
  unfold binary_normalize, binary_round, shl_align, fexp, emin, prec, emax.
  replace (Z.max (Z.pos (digits2_pos p) + 0 - 53) (3 - 1024 - 53) - 0)
    with (Z.pos (digits2_pos p) - 53) by lia.
  replace (Z.max (Z.pos (digits2_pos p) + 0 - 53) (3 - 1024 - 53))
    with (Z.pos (digits2_pos p) - 53) by lia.
  destruct (Z.pos (digits2_pos p) - 53) as [|k|k] eqn:Ek; try lia.
  - exists p, 0. split; [|split; [lia | cbn; lia]].
    apply (binary_round_aux_canonical false p 0); lia.
  - exists (Pos.iter xO p k), (Z.neg k). split; [|split].
    + apply (binary_round_aux_canonical false); [|lia].
      rewrite digits2_pos_shift, Pos2Z.inj_add. lia.
    + lia.
    + rewrite shifted_mantissa. reflexivity.
Qed.

Lemma bounded_canonical (m : positive) (e : Z) :
  bounded prec emax m e = true ->
  -1074 <= e <= 971
  /\ Z.pos (digits2_pos m) <= 53
  /\ (-1074 < e -> Z.pos (digits2_pos m) = 53).
Proof.
  unfold bounded, canonical_mantissa, fexp, emin, prec, emax.
  intros H. apply andb_true_iff in H as [H1 H2].
  apply Z.eqb_eq in H1. apply Z.leb_le in H2. lia.
Qed.

Lemma quanta_lt (m1 m2 : positive) (e1 e2 : Z) :
  bounded prec emax m1 e1 = true -> bounded prec emax m2 e2 = true ->
  e1 < e2 -> quanta m1 e1 < quanta m2 e2.
Proof.
  intros H1 H2 He.
  apply bounded_canonical in H1 as (He1 & Hd1 & _).
  apply bounded_canonical in H2 as (He2 & _ & Hd2).
  specialize (Hd2 ltac:(lia)).
  pose proof (digits2_pos_bounds m1) as B1.
  pose proof (digits2_pos_bounds m2) as B2.
  rewrite Hd2 in B2. change (2 ^ (53 - 1)) with (2 ^ 52) in B2.
  assert (Z.pos m1 < 2 ^ 53).
  { apply Z.lt_le_trans with (2 ^ Z.pos (digits2_pos m1)); [lia|].
    apply Z.pow_le_mono_r; lia. }
  unfold quanta.
  assert (P1 : 0 < 2 ^ (e1 + 1074)) by (apply Z.pow_pos_nonneg; lia).
  assert (P2 : 2 ^ (e1 + 1074 + 1) <= 2 ^ (e2 + 1074))
    by (apply Z.pow_le_mono_r; lia).
  rewrite Z.pow_add_r in P2 by lia. change (2 ^ 1) with 2 in P2.
  change (2 ^ 53) with (2 * 2 ^ 52) in H.
  nia.
Qed.

Lemma Zmul_compare_r (n m p : Z) :
  0 < p -> (n * p ?= m * p) = (n ?= m).
Proof.
  intros Hp. destruct (Z.compare_spec n m) as [->|H|H].
  - apply Z.compare_refl.
  - apply Z.compare_lt_iff. nia.
  - apply Z.compare_gt_iff. nia.
Qed.

Lemma SFcompare_quanta (m1 m2 : positive) (e1 e2 : Z) :
  bounded prec emax m1 e1 = true -> bounded prec emax m2 e2 = true ->
  SFcompare (S754_finite false m1 e1) (S754_finite false m2 e2)
  = Some (quanta m1 e1 ?= quanta m2 e2).
Proof.
  intros H1 H2. cbn [SFcompare]. f_equal.
  destruct (Z.compare_spec e1 e2) as [<-|Hlt|Hgt].
  - unfold quanta. fold (Pos.compare m1 m2).
    apply bounded_canonical in H1 as (He1 & _).
    rewrite Zmul_compare_r by (apply Z.pow_pos_nonneg; lia).
    reflexivity.
  - symmetry. apply Z.compare_lt_iff. apply quanta_lt; assumption.
  - symmetry. apply Z.compare_gt_iff. apply quanta_lt; assumption.
Qed.

(** What [integer_value] says of the form of a number. *)
Lemma integer_value_zero (x : float) (s : bool) :
  Prim2SF x = S754_zero s -> integer_value x = Some 0.
Proof. intros H. unfold integer_value. rewrite H. reflexivity. Qed.

Lemma integer_value_finite (x : float) (s : bool) (m : positive) (e i : Z) :
  Prim2SF x = S754_finite s m e ->
  integer_value x = Some i ->
  -1074 <= e
  /\ quanta m e = (if s then - i else i) * 2 ^ 1074
  /\ (if s then i < 0 else 0 < i).
Proof.
  intros Hx Hi.
  pose proof (Prim2SF_valid x) as Hv. rewrite Hx in Hv. cbn in Hv.
  apply bounded_canonical in Hv as (He & _).
  split; [lia|].
  unfold integer_value in Hi. rewrite Hx in Hi. unfold quanta.
  destruct (Z.leb_spec 0 e) as [H0|H0].
  - cbn in Hi. injection Hi as <-.
    assert (0 < 2 ^ e) by (apply Z.pow_pos_nonneg; lia).
    rewrite Z.pow_add_r by lia.
    destruct s; split; nia.
  - destruct (Z.eqb_spec (Z.pos m mod 2 ^ (- e)) 0) as [Hm|Hm];
      [|discriminate].
    cbn in Hi. injection Hi as <-.
    assert (P : 0 < 2 ^ (- e)) by (apply Z.pow_pos_nonneg; lia).
    pose proof (Z.div_mod (Z.pos m) (2 ^ (- e)) ltac:(lia)) as D.
    rewrite Hm in D.
    assert (Q : 2 ^ 1074 = 2 ^ (- e) * 2 ^ (e + 1074))
      by (rewrite <- Z.pow_add_r by lia; f_equal; lia).
    assert (0 < Z.pos m / 2 ^ (- e)) by nia.
    assert (0 < 2 ^ (e + 1074)) by (apply Z.pow_pos_nonneg; lia).
    rewrite Q. destruct s; split; nia.
Qed.

(** [x < 0] for a number that holds the integer [i]. *)
Lemma ltb_zero_integer (x : float) (i : Z) :
  integer_value x = Some i -> (x <? 0)%float = (i <? 0).
Proof.
  intros Hi. rewrite FloatAxioms.ltb_spec.
  change (Prim2SF 0) with (S754_zero false).
  destruct (Prim2SF x) as [s|s| |s m e] eqn:Hx.
  - rewrite (integer_value_zero x s Hx) in Hi. injection Hi as <-. reflexivity.
  - unfold integer_value in Hi. rewrite Hx in Hi. discriminate.
  - unfold integer_value in Hi. rewrite Hx in Hi. discriminate.
  - destruct (integer_value_finite x s m e i Hx Hi) as (_ & _ & Hs).
    unfold SFltb. cbn [SFcompare].
    destruct s; destruct (Z.ltb_spec i 0); (reflexivity || lia).
Qed.

(** [n <= x] for the number that holds [n] and a number that holds the
    integer [i]. *)
Lemma leb_integer (n : Z) (x : float) (i : Z) :
  0 <= n < 2 ^ 53 ->
  integer_value x = Some i -> (Z2F n <=? x)%float = (n <=? i).
Proof.
  intros Hn Hi. rewrite FloatAxioms.leb_spec. unfold SFleb.
  destruct (Z.eq_dec n 0) as [->|Hn0].
  - change (Prim2SF (Z2F 0)) with (S754_zero false).
    destruct (Prim2SF x) as [s|s| |s m e] eqn:Hx.
    + rewrite (integer_value_zero x s Hx) in Hi. injection Hi as <-. reflexivity.
    + unfold integer_value in Hi. rewrite Hx in Hi. discriminate.
    + unfold integer_value in Hi. rewrite Hx in Hi. discriminate.
    + destruct (integer_value_finite x s m e i Hx Hi) as (_ & _ & Hs).
      cbn [SFcompare].
      destruct s; destruct (Z.leb_spec 0 i); (reflexivity || lia).
  - destruct (Prim2SF_Z2F_pos n ltac:(lia)) as (mn & en & En & Hen & Hmn).
    pose proof (Prim2SF_valid (Z2F n)) as Vn. rewrite En in Vn. cbn in Vn.
    rewrite En.
    destruct (Prim2SF x) as [s|s| |s m e] eqn:Hx.
    + rewrite (integer_value_zero x s Hx) in Hi. injection Hi as <-.
      cbn [SFcompare]. destruct (Z.leb_spec n 0); (reflexivity || lia).
    + unfold integer_value in Hi. rewrite Hx in Hi. discriminate.
    + unfold integer_value in Hi. rewrite Hx in Hi. discriminate.
    + destruct (integer_value_finite x s m e i Hx Hi) as (_ & Hsc & Hs).
      pose proof (Prim2SF_valid x) as Vx. rewrite Hx in Vx. cbn in Vx.
      destruct s.
      * cbn [SFcompare]. destruct (Z.leb_spec n i); (reflexivity || lia).
      * rewrite SFcompare_quanta by assumption. rewrite Hsc.
        assert (Sn : quanta mn en = n * 2 ^ 1074).
        { unfold quanta. rewrite Hmn, <- Z.mul_assoc, <- Z.pow_add_r by lia.
          do 2 f_equal. lia. }
        rewrite Sn.
        rewrite Zmul_compare_r by (apply Z.pow_pos_nonneg; lia).
        destruct (Z.compare_spec n i); destruct (Z.leb_spec n i);
          (reflexivity || lia).
Qed.

(** The number that holds [n] holds [n]. *)
Lemma integer_value_Z2F (n : Z) :
  0 <= n < 2 ^ 53 -> integer_value (Z2F n) = Some n.
Proof.
  intros Hn. destruct (Z.eq_dec n 0) as [->|Hn0]; [reflexivity|].
  destruct (Prim2SF_Z2F_pos n ltac:(lia)) as (m & e & E & He & Hm).
  unfold integer_value. rewrite E.
  destruct (Z.leb_spec 0 e).
  - replace e with 0 in * by lia. cbn. f_equal.
    change (2 ^ (- 0)) with 1 in Hm. lia.
  - rewrite Hm, Z.mod_mul, Z.eqb_refl
      by (apply Z.pow_nonzero; lia).
    rewrite Z.div_mul by (apply Z.pow_nonzero; lia). reflexivity.
Qed.

(** The comparisons of the guard of [getChannel] at a number that holds
    an integer. *)
Lemma getChannel_integer (d : LdData.t) (x : float) (i : Z) :
  channelCount d < 2 ^ 32 ->
  integer_value x = Some i ->
  getChannel d (Index x)
  = if (i <? 0) || (channelCount d <=? i)
    then Throw (IndexOutOfRange x)
    else Ok (LdData.channels d !! Z.to_nat i).
Proof.
  unfold channelCount. intros Hc Hi. unfold getChannel.
  rewrite (ltb_zero_integer x i Hi).
  assert (Hn : 0 <= Z.of_nat (length (LdData.channels d)) < 2 ^ 53)
    by (split; [lia|]; apply Z.lt_trans with (2 ^ 32);
        [exact Hc | reflexivity]).
  rewrite (leb_integer _ x i Hn Hi).
  destruct (Z.ltb_spec i 0); [reflexivity|].
  destruct (Z.leb_spec (Z.of_nat (length (LdData.channels d))) i);
    [reflexivity|].
  cbn [orb]. unfold Array_at. rewrite Hi.
  destruct (Z.leb_spec 0 i); [reflexivity|lia].
Qed.

(** With NaN both comparisons of the guard are false. *)
Lemma getChannel_nan (d : LdData.t) : getChannel d (Index nan) = Ok None.
Proof.
  unfold getChannel. rewrite FloatAxioms.leb_spec, FloatAxioms.ltb_spec.
  change (Prim2SF nan) with S754_nan.
  replace (SFleb (Prim2SF (Z2F (Z.of_nat (length (LdData.channels d)))))
             S754_nan) with false
    by (unfold SFleb; destruct (Prim2SF _); reflexivity).
  reflexivity.
Qed.

Lemma getChannel_index_ok (d : LdData.t) (i : nat) (ch : LdChan.t) :
  channelCount d < 2 ^ 32 ->
  LdData.channels d !! i = Some ch ->
  getChannel d (Index (Z2F (Z.of_nat i))) = Ok (Some ch).
Proof.
  intros Hc H.
  pose proof (lookup_lt_Some _ _ _ H) as Hlt.
  rewrite (getChannel_integer d _ (Z.of_nat i) Hc).
  - unfold channelCount.
    destruct (Z.ltb_spec (Z.of_nat i) 0); [lia|].
    destruct (Z.leb_spec (Z.of_nat (length (LdData.channels d))) (Z.of_nat i));
      [lia|].
    cbn [orb]. rewrite Nat2Z.id, H. reflexivity.
  - apply integer_value_Z2F. unfold channelCount in Hc. split; [lia|].
    apply Z.lt_trans with (2 ^ 32); [lia | reflexivity].
Qed.

(** C7, as the code has it on every JS number.  For a number that holds
    an integer, [getChannel] throws the index-out-of-range error exactly
    when the integer is outside [[0, channelCount)], and returns the
    channel at that index otherwise.  For NaN, which is outside the
    range as well, it throws nothing and returns [undefined]; and for a
    number that holds no integer it never returns a channel.
    [getChannel(name)] throws the not-found error when no channel has
    the name, returns the channel when exactly one has it, and throws
    the ambiguity error when two different positions carry the name,
    while [getChannel] at either position still returns its channel.
    (An array has fewer than 2^32 elements.) *)
Theorem C7_getChannel_errors (d : LdData.t) :
  channelCount d < 2 ^ 32 ->
  (forall (x : float) (i : Z),
      integer_value x = Some i ->
      (i < 0 \/ channelCount d <= i ->
         getChannel d (Index x) = Throw (IndexOutOfRange x))
      /\ (0 <= i < channelCount d ->
          exists ch, LdData.channels d !! Z.to_nat i = Some ch
                     /\ getChannel d (Index x) = Ok (Some ch)))
  /\ getChannel d (Index nan) = Ok None
  /\ (forall x : float,
      integer_value x = None ->
      getChannel d (Index x) = Throw (IndexOutOfRange x)
      \/ getChannel d (Index x) = Ok None)
  /\ (forall n : string,
      (forall ch, In ch (LdData.channels d) -> LdChan.name ch <> n) ->
      getChannel d (Name n) = Throw (ChannelNotFound n))
  /\ (forall (n : string) (ch : LdChan.t),
      List.filter (named n) (LdData.channels d) = [ch] ->
      getChannel d (Name n) = Ok (Some ch))
  /\ (forall (n : string) (i j : nat) (ci cj : LdChan.t),
      i <> j ->
      LdData.channels d !! i = Some ci -> LdData.channels d !! j = Some cj ->
      LdChan.name ci = n -> LdChan.name cj = n ->
      getChannel d (Name n) = Throw (AmbiguousChannelName n)
      /\ getChannel d (Index (Z2F (Z.of_nat i))) = Ok (Some ci)
      /\ getChannel d (Index (Z2F (Z.of_nat j))) = Ok (Some cj)).
Proof.
  intros Hc. repeat apply conj.
  - intros x i Hi. rewrite (getChannel_integer d x i Hc Hi). split; intros H.
    + destruct (Z.ltb_spec i 0); [reflexivity|].
      destruct (Z.leb_spec (channelCount d) i); [reflexivity|lia].
    + destruct (Z.ltb_spec i 0); [lia|].
      destruct (Z.leb_spec (channelCount d) i); [lia|]. cbn [orb].
      unfold channelCount in H.
      destruct (lookup_lt_is_Some_2 (LdData.channels d) (Z.to_nat i))
        as [ch Hch]; [lia|].
      exists ch. rewrite Hch. split; reflexivity.
  - apply getChannel_nan.
  - intros x Hx. unfold getChannel, Array_at. rewrite Hx.
    destruct (_ || _)%bool; [left|right]; reflexivity.
  - intros n H. unfold getChannel.
    rewrite filter_none; [reflexivity|].
    intros ch Hin. apply String.eqb_neq, H, Hin.
  - intros n ch H. unfold getChannel. fold (named n). rewrite H. reflexivity.
  - intros n i j ci cj Hij Hi Hj Hci Hcj. split; [|split].
    + unfold getChannel.
      destruct (filter_two (named n) (LdData.channels d) i j ci cj)
        as (x & y & t & E); auto.
      * unfold named. apply String.eqb_eq, Hci.
      * unfold named. apply String.eqb_eq, Hcj.
      * fold (named n). rewrite E. reflexivity.
    + apply getChannel_index_ok; assumption.
    + apply getChannel_index_ok; assumption.
Qed.

Lemma duplicate_doc_loads :
  LdData_fromBuffer 2 duplicate_doc = Some (Ok duplicate_data).
Proof. vm_compute. reflexivity. Qed.

Lemma C7_getChannel_errors_witness :
  LdData_fromBuffer 2 duplicate_doc = Some (Ok duplicate_data)
  /\ getChannel duplicate_data (Name "Speed")
     = Throw (AmbiguousChannelName "Speed")
  /\ getChannel duplicate_data (Index 0%float)
     = Ok (Some (channel_record duplicate_doc 1762))
  /\ getChannel duplicate_data (Index 1%float)
     = Ok (Some (channel_record duplicate_doc 1886))
  /\ getChannel duplicate_data (Index 2%float)
     = Throw (IndexOutOfRange 2%float)
  /\ getChannel duplicate_data (Index (-1)%float)
     = Throw (IndexOutOfRange (-1)%float)
  /\ getChannel duplicate_data (Index nan) = Ok None
  /\ getChannel duplicate_data (Index 0.5%float) = Ok None
  /\ getChannel duplicate_data (Name "Rpm") = Throw (ChannelNotFound "Rpm").
Proof.
  assert (Hc : channelCount duplicate_data < 2 ^ 32) by reflexivity.
  destruct (C7_getChannel_errors duplicate_data Hc)
    as (H1 & H2 & H3 & H4 & _ & H6).
  split; [exact duplicate_doc_loads|].
  destruct (H6 "Speed"%string 0%nat 1%nat
              (channel_record duplicate_doc 1762)
              (channel_record duplicate_doc 1886))
    as (Ha & Hi & Hj);
    [discriminate | reflexivity | reflexivity
    | vm_compute; reflexivity | vm_compute; reflexivity |].
  split; [exact Ha|]. split; [exact Hi|]. split; [exact Hj|].
  split; [|split; [|split; [|split]]].
  - apply (proj1 (H1 2%float 2 eq_refl)). right. vm_compute. discriminate.
  - apply (proj1 (H1 (-1)%float (-1) eq_refl)). left. lia.
  - exact H2.
  - destruct (H3 0.5%float eq_refl) as [H|H]; [|exact H].
    vm_compute in H. discriminate H.
  - apply H4. intros ch [<-|[<-|[]]]; vm_compute; discriminate.
Defined.

(** ** The offsets of the header (C4) *)

Lemma LdHead_readFields_ok (r : BinaryReader) :
  in_bounds (buffer r) 0 40 = true ->
  LdHead_readFields r = (Ok (header_fields (buffer r)), set_position 1762 r).
Proof.
  intros H. unfold LdHead_readFields.
  repeat run_step H.
  reflexivity.
Qed.

Lemma LdHead_readFields_throw (r : BinaryReader) :
  in_bounds (buffer r) 0 40 = false ->
  exists o r', LdHead_readFields r = (Throw (RangeError o), r').
Proof.
  intros H. unfold LdHead_readFields.
  run_or_throw.
  cbn [buffer position set_position] in *.
  repeat match goal with
  | E : in_bounds _ _ _ = true |- _ => apply in_bounds_iff in E
  end.
  apply in_bounds_false_iff in H. lia.
Qed.

(** When [LdHead.fromFile] returns, the fields it read are those of
    [header_fields]. *)
Lemma LdHead_fromFile_fields (r r' : BinaryReader) (h : LdHead.t) :
  LdHead_fromFile r = (Ok h, r') ->
  exists event,
    h = let f := header_fields (buffer r) in
        LdHead.mk (hf_metaPtr f) (hf_dataPtr f) (hf_eventPtr f) event
          (hf_driver f) (hf_vehicleId f) (hf_venue f)
          (parse_datetime (hf_dateStr f) (hf_timeStr f)) (hf_shortComment f).
Proof.
  unfold LdHead_fromFile. intros H.
  destruct (in_bounds (buffer r) 0 40) eqn:Hb.
  - unfold bind at 1 in H. rewrite LdHead_readFields_ok in H by assumption.
    unfold bind in H.
    destruct (at_pointer _ _ _) as [[event|e] r1]; [|discriminate].
    injection H as <- _. exists event. reflexivity.
  - destruct (LdHead_readFields_throw r Hb) as (o & r0 & E).
    unfold bind at 1 in H. rewrite E in H. discriminate.
Qed.

(** C4, as the code has it.  Whenever [LdHead.fromFile] returns a
    header, metaPtr, dataPtr and eventPtr are the 32-bit values at
    offsets 8, 12 and 36, the date-time is composed from the 16-byte
    texts at offsets 94 (date) and 126 (time), and driver, vehicleId,
    venue and shortComment are the 64-byte texts at offsets 158, 222,
    350 and 1572. *)
Theorem C4_header_offsets (r r' : BinaryReader) (h : LdHead.t) :
  LdHead_fromFile r = (Ok h, r') ->
  LdHead.metaPtr h = u32_at (buffer r) 8
  /\ LdHead.dataPtr h = u32_at (buffer r) 12
  /\ LdHead.eventPtr h = u32_at (buffer r) 36
  /\ LdHead.datetime h
     = parse_datetime (text_at (buffer r) 94 16) (text_at (buffer r) 126 16)
  /\ LdHead.driver h = text_at (buffer r) 158 64
  /\ LdHead.vehicleId h = text_at (buffer r) 222 64
  /\ LdHead.venue h = text_at (buffer r) 350 64
  /\ LdHead.shortComment h = text_at (buffer r) 1572 64.
Proof.
  intros H. destruct (LdHead_fromFile_fields r r' h H) as [event ->].
  cbn. repeat split.
Qed.

Lemma C4_header_offsets_witness :
  let r := mkReader scenario_doc 0 in
  LdHead_fromFile r = (Ok scenario_head, mkReader scenario_doc 1762)
  /\ text_at scenario_doc 158 64 = "J.Doe"
  /\ text_at scenario_doc 1572 64 = "Wet".
Proof.
  intros r.
  assert (H : LdHead_fromFile r
              = (Ok scenario_head, mkReader scenario_doc 1762))
    by (vm_compute; reflexivity).
  split; [exact H|].
  destruct (C4_header_offsets r _ _ H) as (_ & _ & _ & _ & Hd & _ & _ & Hs).
  split; symmetry; [exact Hd | exact Hs].
Defined.

(** C4 as stated fails: in the scenario buffer, whose header decodes to
    driver "J.Doe", vehicleId "Car7", venue "Spa", shortComment "Wet" and
    the date-time of the texts "23/11/2005" and "09:53:00", the offsets
    of the specification's table (102, 134, 166, 230, 358, 1514) hold
    other texts. *)
Lemma C4_spec_offsets_counterexample :
  let b := scenario_doc in
  fst (LdHead_fromFile (mkReader b 0)) = Ok scenario_head
  /\ LdHead.driver scenario_head <> text_at b 166 64
  /\ LdHead.vehicleId scenario_head <> text_at b 230 64
  /\ LdHead.venue scenario_head <> text_at b 358 64
  /\ LdHead.shortComment scenario_head <> text_at b 1514 64
  /\ LdHead.datetime scenario_head
     <> parse_datetime (text_at b 102 16) (text_at b 134 16)
  /\ text_at b 94 16 = "23/11/2005" /\ text_at b 102 16 = "05"
  /\ text_at b 126 16 = "09:53:00" /\ text_at b 134 16 = "".
Proof.
  cbn zeta. split; [vm_compute; reflexivity|].
  repeat split; try (vm_compute; discriminate); vm_compute; reflexivity.
Qed.

(** ** Walking the chain of channels (C3) *)

Lemma iter_next_shift (b : Buffer) (p : Z) (i : nat) :
  Nat.iter i (next_of b) (next_of b p) = Nat.iter (S i) (next_of b) p.
Proof. symmetry. apply Nat.iter_succ_r. Qed.

Lemma iter_next_add (b : Buffer) (p : Z) (i j : nat) :
  Nat.iter (i + j) (next_of b) p
  = Nat.iter i (next_of b) (Nat.iter j (next_of b) p).
Proof. apply Nat.iter_add. Qed.

Lemma chain_cycles_period (b : Buffer) (p : Z) (k : nat) :
  Nat.iter k (next_of b) p = p ->
  forall q i : nat, Nat.iter (i + q * k) (next_of b) p = Nat.iter i (next_of b) p.
Proof.
  intros Hk q. induction q as [|q IH]; intros i.
  - f_equal. lia.
  - replace (i + S q * k)%nat with ((i + q * k) + k)%nat by lia.
    rewrite iter_next_add, Hk. apply IH.
Qed.

(** A chain that cycles goes on forever. *)
Lemma chain_cycles_forever (b : Buffer) (p : Z) (k : nat) :
  chain_cycles b p k -> chain_forever b p.
Proof.
  intros (Hk & Hp & Hin) i.
  rewrite (Nat.div_mod_eq i k).
  replace (k * (i / k) + i mod k)%nat with (i mod k + (i / k) * k)%nat by lia.
  rewrite chain_cycles_period by assumption.
  apply Hin. apply Nat.mod_upper_bound. lia.
Qed.

(** So does a chain that comes back to any offset it has visited. *)
Lemma chain_revisits_forever (b : Buffer) (p : Z) (j k : nat) :
  chain_revisits b p j k -> chain_forever b p.
Proof.
  intros (Hjk & Hp & Hin) i.
  induction i as [i IH] using (well_founded_induction lt_wf).
  destruct (Nat.lt_ge_cases i k) as [Hi|Hi]; [apply Hin, Hi|].
  replace i with ((i - k) + k)%nat by lia.
  rewrite iter_next_add, Hp, <- iter_next_add.
  apply IH. lia.
Qed.

Lemma chain_forever_next (b : Buffer) (p : Z) :
  chain_forever b p -> chain_forever b (next_of b p).
Proof. intros H i. rewrite iter_next_shift. apply H. Qed.

(** On a chain that goes on forever the loop is still running when the
    fuel is spent, however much fuel there was. *)
Lemma readChannels_loop_forever (fuel : nat) :
  forall (channels : list LdChan.t) (p : Z) (r : BinaryReader),
    chain_forever (buffer r) p ->
    readChannels_loop fuel channels p r = None.
Proof.
  induction fuel as [|fuel IH]; intros channels p r H;
    destruct (H 0%nat) as [Hp Hb]; cbn [Nat.iter] in Hp, Hb;
    cbn [readChannels_loop]; destruct (Z.eqb_spec p 0); try contradiction.
  - reflexivity.
  - rewrite LdChan_fromFile_ok by assumption.
    apply IH. cbn. apply chain_forever_next, H.
Qed.

(** A loop that is still running whatever the fuel is on a chain that
    goes on forever. *)
Lemma readChannels_loop_running (i : nat) :
  forall (channels : list LdChan.t) (p : Z) (r : BinaryReader),
    (forall fuel : nat, readChannels_loop fuel channels p r = None) ->
    Nat.iter i (next_of (buffer r)) p <> 0
    /\ in_bounds (buffer r) (Nat.iter i (next_of (buffer r)) p) 32 = true.
Proof.
  induction i as [|i IH]; intros channels p r H;
    assert (Hp : p <> 0)
      by (intros ->; specialize (H 0%nat); cbn in H; discriminate);
    assert (Hb : in_bounds (buffer r) p 32 = true)
      by (destruct (in_bounds (buffer r) p 32) eqn:Hb; [reflexivity|];
          specialize (H 1%nat); cbn [readChannels_loop] in H;
          destruct (Z.eqb_spec p 0); [contradiction|];
          destruct (LdChan_fromFile_throw r p Hb) as (o & r0 & E);
          rewrite E in H; discriminate).
  - split; [exact Hp | exact Hb].
  - rewrite <- iter_next_shift.
    apply (IH (channels ++ [channel_record (buffer r) p]) (next_of (buffer r) p)
              (set_position (p + 124) r)).
    intros fuel. specialize (H (S fuel)). cbn [readChannels_loop] in H.
    destruct (Z.eqb_spec p 0); [contradiction|].
    rewrite LdChan_fromFile_ok in H by assumption. exact H.
Qed.

(** On a chain that reaches 0 the loop returns, with enough fuel, the
    records of the chain in chain order after those it already had. *)
Lemma readChannels_loop_to_zero (b : Buffer) (p : Z) (ps : list Z) :
  chain_to_zero b p ps ->
  forall (fuel : nat) (channels : list LdChan.t) (r : BinaryReader),
    buffer r = b -> (length ps <= fuel)%nat ->
    exists r',
      readChannels_loop fuel channels p r
      = Some (Ok (channels ++ map (channel_record b) ps), r').
Proof.
  induction 1 as [|p ps Hp Hb Hc IH]; intros fuel channels r Hr Hf.
  - exists r. destruct fuel; cbn; rewrite app_nil_r; reflexivity.
  - destruct fuel as [|fuel]; [cbn in Hf; lia|].
    cbn [readChannels_loop]. destruct (Z.eqb_spec p 0); [contradiction|].
    subst b. rewrite LdChan_fromFile_ok by assumption.
    destruct (IH fuel (channels ++ [channel_record (buffer r) p])
                (set_position (p + 124) r)) as [r' E].
    + reflexivity.
    + cbn in Hf. lia.
    + exists r'. cbn [LdChan.nextMetaPtr channel_record].
      fold (next_of (buffer r) p). rewrite E.
      rewrite <- app_assoc. reflexivity.
Qed.

(** The loop throws nothing but the out-of-range error of a read. *)
Lemma readChannels_loop_throws (fuel : nat) :
  forall (channels : list LdChan.t) (p : Z) (r r' : BinaryReader) (e : Error),
    readChannels_loop fuel channels p r = Some (Throw e, r') ->
    exists o, e = RangeError o.
Proof.
  induction fuel as [|fuel IH]; intros channels p r r' e H;
    cbn [readChannels_loop] in H; destruct (Z.eqb_spec p 0);
    try discriminate.
  destruct (in_bounds (buffer r) p 32) eqn:Hb.
  - rewrite LdChan_fromFile_ok in H by assumption. eapply IH, H.
  - destruct (LdChan_fromFile_throw r p Hb) as (o & r0 & E).
    rewrite E in H. injection H as <- _. eauto.
Qed.

(** C3, as the code has it.  The traversal follows [nextMetaPtr] from
    [metaPtr]: when the chain reaches 0 it returns the channels in chain
    order; the only error it can raise is the out-of-range error of a
    read outside the buffer; and it keeps no track of the offsets it has
    visited: on a chain that comes back, within the buffer, to an offset
    it has visited (its first record or a later one) it does not return
    at all.  Whatever the fuel, the loop is then still running when the
    fuel is spent; and that happens exactly on the chains that never
    reach 0 and never leave the buffer. *)
Theorem C3_chain_traversal (r : BinaryReader) (metaPtr : Z) :
  (forall ps : list Z,
      chain_to_zero (buffer r) metaPtr ps ->
      forall fuel : nat, (length ps <= fuel)%nat ->
      exists r',
        readChannels fuel metaPtr r
        = Some (Ok (map (channel_record (buffer r)) ps), r'))
  /\ (forall (fuel : nat) (e : Error) (r' : BinaryReader),
      readChannels fuel metaPtr r = Some (Throw e, r') ->
      exists o, e = RangeError o)
  /\ (forall j k : nat,
      chain_revisits (buffer r) metaPtr j k ->
      forall fuel : nat, readChannels fuel metaPtr r = None)
  /\ ((forall fuel : nat, readChannels fuel metaPtr r = None)
      <-> chain_forever (buffer r) metaPtr).
Proof.
  unfold readChannels. repeat apply conj.
  - intros ps Hc fuel Hf.
    destruct (readChannels_loop_to_zero _ _ _ Hc fuel [] r eq_refl Hf)
      as [r' E].
    exists r'. exact E.
  - intros fuel e r' H. eapply readChannels_loop_throws, H.
  - intros j k Hk fuel. apply readChannels_loop_forever.
    eapply chain_revisits_forever, Hk.
  - intros H i. eapply readChannels_loop_running, H.
  - intros H fuel. apply readChannels_loop_forever, H.
Qed.

Lemma rho_doc_revisits : chain_revisits rho_doc 1762 1 2.
Proof.
  split; [lia|]. split; [vm_compute; reflexivity|].
  intros i Hi.
  assert (Hc : i = 0%nat \/ i = 1%nat) by lia.
  destruct Hc as [->| ->]; (split; [vm_compute; discriminate
                                   | vm_compute; reflexivity]).
Qed.

Lemma cyclic_doc_cycles : chain_cycles cyclic_doc 1762 1.
Proof.
  split; [lia|]. split; [vm_compute; reflexivity|].
  intros i Hi. replace i with 0%nat by lia.
  split; [discriminate | vm_compute; reflexivity].
Qed.

Lemma C3_chain_traversal_witness :
  (exists r',
      readChannels 1 1762 (mkReader scenario_doc 1762)
      = Some (Ok [channel_record scenario_doc 1762], r'))
  /\ (forall fuel : nat,
       readChannels fuel 1762 (mkReader cyclic_doc 1762) = None)
  /\ (forall fuel : nat,
       readChannels fuel 1762 (mkReader rho_doc 1762) = None)
  /\ chain_forever rho_doc 1762.
Proof.
  split; [|split; [|split]].
  - apply (proj1 (C3_chain_traversal (mkReader scenario_doc 1762) 1762)
             [1762]); [|cbn; lia].
    apply chain_step; [discriminate | vm_compute; reflexivity |].
    replace (next_of _ _) with 0 by (vm_compute; reflexivity).
    apply chain_end.
  - apply (proj1 (proj2 (proj2 (C3_chain_traversal (mkReader cyclic_doc 1762)
                                  1762))) 0%nat 1%nat).
    exact cyclic_doc_cycles.
  - apply (proj1 (proj2 (proj2 (C3_chain_traversal (mkReader rho_doc 1762)
                                  1762))) 1%nat 2%nat).
    exact rho_doc_revisits.
  - apply (proj2 (proj2 (proj2 (C3_chain_traversal (mkReader rho_doc 1762)
                                  1762)))).
    apply (proj1 (proj2 (proj2 (C3_chain_traversal (mkReader rho_doc 1762)
                                  1762))) 1%nat 2%nat).
    exact rho_doc_revisits.
Defined.

(** C3 as stated fails: on the buffer whose only channel record names
    itself as its successor, neither the traversal nor the loading of the
    document returns, with any amount of fuel; no error is raised. *)
Lemma C3_cyclic_chain_counterexample :
  (forall fuel : nat,
      readChannels fuel 1762 (mkReader cyclic_doc 1762) = None)
  /\ (forall fuel : nat, LdData_fromBuffer fuel cyclic_doc = None).
Proof.
  assert (H : forall fuel,
             readChannels fuel 1762 (mkReader cyclic_doc 1762) = None).
  { intros fuel. apply readChannels_loop_forever.
    eapply chain_cycles_forever, cyclic_doc_cycles. }
  split; [exact H|].
  intros fuel. unfold LdData_fromBuffer.
  replace (LdHead_fromFile (mkReader cyclic_doc 0))
    with (Ok (LdHead.mk 1762 0 0 None "J.Doe" "" "" DateNow ""),
          mkReader cyclic_doc 1762) by (vm_compute; reflexivity).
  cbn [LdHead.metaPtr]. rewrite H. reflexivity.
Qed.

(** ** The half-precision decoder (C2) *)

(** The masks and shifts of [readFloat16] cut a 16-bit pattern into its
    sign bit, its 5 exponent bits and its 10 fraction bits. *)
Lemma half_fields (value : Z) :
  0 <= value < 65536 ->
  Z.shiftr (Z.land value 0x8000) 15 = value / 32768
  /\ Z.shiftr (Z.land value 0x7C00) 10 = (value / 1024) mod 32
  /\ Z.land value 0x03FF = value mod 1024.
Proof.
  intros H. repeat split.
  - rewrite Z.shiftr_land.
    change (Z.shiftr 0x8000 15) with (Z.ones 1).
    rewrite Z.land_ones, Z.shiftr_div_pow2 by lia.
    change (2 ^ 15) with 32768. change (2 ^ 1) with 2.
    apply Z.mod_small.
    split; [apply Z.div_pos; lia | apply Z.div_lt_upper_bound; lia].
  - rewrite Z.shiftr_land.
    change (Z.shiftr 0x7C00 10) with (Z.ones 5).
    rewrite Z.land_ones, Z.shiftr_div_pow2 by lia. reflexivity.
  - change 0x03FF with (Z.ones 10). rewrite Z.land_ones by lia. reflexivity.
Qed.

Lemma decodeFloat16_spec (Math_pow : float -> float -> float) (value : Z) :
  pow_exact_on_two Math_pow ->
  0 <= value < 65536 ->
  decodeFloat16 Math_pow value
  = spec_half (value / 32768) ((value / 1024) mod 32) (value mod 1024).
Proof.
  intros Hpow Hv. unfold decodeFloat16, spec_half.
  destruct (half_fields value Hv) as (-> & -> & ->).
  assert (He : 0 <= (value / 1024) mod 32 < 32) by (apply Z.mod_pos_bound; lia).
  change (Math_pow 2%float (-14)%float) with (Math_pow 2%float (Z2F (-14))).
  change (Math_pow 2%float 10%float) with (Math_pow 2%float (Z2F 10)).
  cbv zeta.
  destruct (Z.eqb_spec ((value / 1024) mod 32) 0).
  - rewrite !Hpow by lia. reflexivity.
  - change 0x1F with 31.
    destruct (Z.eqb_spec ((value / 1024) mod 32) 31); [reflexivity|].
    rewrite !Hpow by lia. reflexivity.
Qed.

(** C2. With a [Math.pow] that is exact on powers of two, the decoder
    maps every 16-bit pattern, cut into 1 sign bit, 5 exponent bits and
    10 fraction bits, to sign * 2^-14 * (fraction / 1024) when the
    exponent is 0, to NaN or the signed infinity when it is 31, and to
    sign * 2^(exponent - 15) * (1 + fraction / 1024) otherwise; and the
    six patterns of the specification decode to 1, -2, +Infinity,
    -Infinity, NaN and 0. *)
Theorem C2_half_float (Math_pow : float -> float -> float) :
  pow_exact_on_two Math_pow ->
  (forall value : Z,
      0 <= value < 65536 ->
      decodeFloat16 Math_pow value
      = spec_half (value / 32768) ((value / 1024) mod 32) (value mod 1024))
  /\ decodeFloat16 Math_pow 0x3C00 = 1%float
  /\ decodeFloat16 Math_pow 0xC000 = (-2)%float
  /\ decodeFloat16 Math_pow 0x7C00 = infinity
  /\ decodeFloat16 Math_pow 0xFC00 = neg_infinity
  /\ decodeFloat16 Math_pow 0x7E00 = nan
  /\ decodeFloat16 Math_pow 0x0000 = 0%float.
Proof.
  intros Hpow. split; [intros value; apply decodeFloat16_spec, Hpow|].
  repeat split; rewrite decodeFloat16_spec by (assumption || lia);
    vm_compute; reflexivity.
Qed.

Lemma pow_by_products_exact_on_two : pow_exact_on_two pow_by_products.
Proof.
  intros k Hk.
  assert (H : k = -14 \/ k = -13 \/ k = -12 \/ k = -11 \/ k = -10 \/ k = -9
              \/ k = -8 \/ k = -7 \/ k = -6 \/ k = -5 \/ k = -4 \/ k = -3
              \/ k = -2 \/ k = -1 \/ k = 0 \/ k = 1 \/ k = 2 \/ k = 3
              \/ k = 4 \/ k = 5 \/ k = 6 \/ k = 7 \/ k = 8 \/ k = 9
              \/ k = 10 \/ k = 11 \/ k = 12 \/ k = 13 \/ k = 14 \/ k = 15)
    by lia.
  repeat (destruct H as [->|H]; [vm_compute; reflexivity|]).
  subst k. vm_compute. reflexivity.
Qed.

Lemma C2_half_float_witness :
  decodeFloat16 pow_by_products 0x3555
  = spec_half 0 13 0x155
  /\ decodeFloat16 pow_by_products 0xC000 = (-2)%float.
Proof.
  destruct (C2_half_float pow_by_products pow_by_products_exact_on_two)
    as (H & _ & H2 & _).
  split; [|exact H2].
  rewrite (H 0x3555) by lia. reflexivity.
Defined.

(** ** Raw samples and physical values (C1) *)

Section SampleProperties.

Variable Math_pow : float -> float -> float.

Lemma width_of_pos (dtype : NumericType) : 0 < width_of dtype.
Proof. destruct dtype; reflexivity. Qed.

Lemma read_sample_ok (dtype : NumericType) (r : BinaryReader) :
  in_bounds (buffer r) (position r) (width_of dtype) = true ->
  read_sample Math_pow dtype r
  = (Ok (sample_at Math_pow dtype (buffer r) (position r)),
     set_position (position r + width_of dtype) r).
Proof.
  intros H. destruct dtype; cbn [width_of] in H; unfold read_sample, readFloat16.
  - rewrite bind_readInt16LE by assumption. reflexivity.
  - rewrite bind_readInt32LE by assumption. reflexivity.
  - unfold read_with, Buffer_readFloatLE, Buffer_readUIntLE. rewrite H.
    reflexivity.
  - rewrite bind_readUInt16LE by assumption. reflexivity.
  - unfold read_with, Buffer_readDoubleLE, Buffer_readUIntLE. rewrite H.
    reflexivity.
  - rewrite bind_readInt32LE by assumption. reflexivity.
Qed.

Lemma samples_at_succ (dtype : NumericType) (b : Buffer) (o : Z) (n : nat) :
  samples_at Math_pow dtype b o (S n)
  = sample_at Math_pow dtype b o
    :: samples_at Math_pow dtype b (o + width_of dtype) n.
Proof.
  unfold samples_at. cbn [seq map]. f_equal.
  - f_equal. lia.
  - rewrite <- seq_shift, map_map. apply map_ext. intros i. f_equal. lia.
Qed.

Lemma read_samples_ok (dtype : NumericType) (n : nat) :
  forall (result : list float) (r : BinaryReader),
    in_bounds (buffer r) (position r) (Z.of_nat n * width_of dtype) = true ->
    read_samples Math_pow n dtype result r
    = (Ok (result ++ samples_at Math_pow dtype (buffer r) (position r) n),
       set_position (position r + Z.of_nat n * width_of dtype) r).
Proof.
  pose proof (width_of_pos dtype) as Hw.
  induction n as [|n IH]; intros result r H.
  - cbn. rewrite app_nil_r. destruct r as [b p]. unfold set_position. cbn.
    do 2 f_equal. lia.
  - cbn [read_samples]. unfold bind.
    rewrite read_sample_ok by (eapply in_bounds_sub; [exact H | lia | lia]).
    rewrite IH by (cbn [buffer position set_position];
                   eapply in_bounds_sub; [exact H | lia | lia]).
    cbn [buffer position set_position]. rewrite samples_at_succ.
    rewrite <- app_assoc. cbn [app]. unfold set_position. cbn [buffer].
    do 2 f_equal. lia.
Qed.

Lemma readNumericArray_ok (dtype : NumericType) (dataPtr count : Z)
    (r : BinaryReader) :
  0 <= count ->
  in_bounds (buffer r) dataPtr (count * width_of dtype) = true ->
  readNumericArray Math_pow dataPtr count dtype r
  = (Ok (samples_at Math_pow dtype (buffer r) dataPtr (Z.to_nat count)),
     set_position (dataPtr + count * width_of dtype) r).
Proof.
  intros Hc H. unfold readNumericArray. rewrite bind_seek.
  rewrite read_samples_ok; cbn [buffer position set_position];
    rewrite Z2Nat.id by lia; [reflexivity | exact H].
Qed.

Lemma samples_at_length (dtype : NumericType) (b : Buffer) (o : Z) (n : nat) :
  length (samples_at Math_pow dtype b o n) = n.
Proof. unfold samples_at. rewrite length_map, length_seq. reflexivity. Qed.

(** The code's choice of a reader for each data type gives the raw
    values of the specification. *)
Lemma width_of_numeric (dt : DataType) :
  width_of (numeric_of dt) = raw_width dt.
Proof. destruct dt; reflexivity. Qed.

Lemma samples_at_raw (dt : DataType) (b : Buffer) (o : Z) (n : nat) :
  samples_at Math_pow (numeric_of dt) b o n
  = map (fun i => raw_value Math_pow dt b (o + Z.of_nat i * raw_width dt))
      (seq 0 n).
Proof. destruct dt; reflexivity. Qed.

(** C1. The first access to the samples of a channel of resolved dtype
    whose [dataLen] raw values lie in the buffer from [dataPtr] on
    returns [dataLen] values, the i-th being the raw value [v] of that
    dtype at [dataPtr + i * width] (a signed little-endian integer of 2
    bytes for int16 and of 4 bytes for int32, the IEEE-754 single of 4
    bytes for float32, the half-float decoder's value of 2 bytes for
    float16) turned into [(v / scale * Math.pow(10, -dec) + shift) * mul];
    and with [Math.pow(10, -1)] the double 0.1, an int16 channel with 3
    raw values 10, 20, 30 and scale 1, dec 1, shift 0, mul 1 yields 1, 2,
    3. *)
Theorem C1_physical_samples (ch : LdChan.t) (r : BinaryReader) (dt : DataType) :
  LdChan._data ch = None ->
  LdChan.dtype ch = Some dt ->
  0 <= LdChan.dataLen ch ->
  in_bounds (buffer r) (LdChan.dataPtr ch)
    (LdChan.dataLen ch * raw_width dt) = true ->
  let raw :=
    map (fun i : nat =>
           raw_value Math_pow dt (buffer r)
             (LdChan.dataPtr ch + Z.of_nat i * raw_width dt))
      (seq 0 (Z.to_nat (LdChan.dataLen ch))) in
  let scaled (v : float) : float :=
    ((v / Z2F (LdChan.scale ch) * Math_pow 10 (- Z2F (LdChan.dec ch))
      + Z2F (LdChan.shift ch)) * Z2F (LdChan.mul ch))%float in
  fst (fst (LdChan_data Math_pow ch r)) = Ok (map scaled raw)
  /\ Z.of_nat (length (map scaled raw)) = LdChan.dataLen ch
  /\ (forall i : nat,
       (i < Z.to_nat (LdChan.dataLen ch))%nat ->
       map scaled raw !! i
       = Some (scaled
                 match dt with
                 | int16 =>
                     Z2F (i16_at (buffer r)
                            (LdChan.dataPtr ch + Z.of_nat i * 2))
                 | int32 =>
                     Z2F (i32_at (buffer r)
                            (LdChan.dataPtr ch + Z.of_nat i * 4))
                 | float32 =>
                     float_of_bits 8 23
                       (u32_at (buffer r)
                          (LdChan.dataPtr ch + Z.of_nat i * 4))
                 | float16 =>
                     decodeFloat16 Math_pow
                       (u16_at (buffer r)
                          (LdChan.dataPtr ch + Z.of_nat i * 2))
                 end))
  /\ (dt = int16 -> LdChan.dataLen ch = 3 ->
      i16_at (buffer r) (LdChan.dataPtr ch) = 10 ->
      i16_at (buffer r) (LdChan.dataPtr ch + 2) = 20 ->
      i16_at (buffer r) (LdChan.dataPtr ch + 4) = 30 ->
      LdChan.scale ch = 1 -> LdChan.dec ch = 1 ->
      LdChan.shift ch = 0 -> LdChan.mul ch = 1 ->
      Math_pow 10%float (-1)%float = one_tenth ->
      fst (fst (LdChan_data Math_pow ch r))
      = Ok [1%float; 2%float; 3%float]).
Proof.
  intros Hc Hd Hn Hb raw scaled.
  assert (E : fst (fst (LdChan_data Math_pow ch r)) = Ok (map scaled raw)).
  { unfold LdChan_data. rewrite Hd, Hc.
    rewrite readNumericArray_ok
      by (rewrite ?width_of_numeric; assumption).
    rewrite samples_at_raw. reflexivity. }
  split; [exact E|]. split; [|split].
  - unfold raw. rewrite !length_map, length_seq. lia.
  - intros i Hi. unfold raw.
    rewrite !list_lookup_fmap, lookup_seq_lt by assumption.
    destruct dt; reflexivity.
  - intros -> Hl H0 H2 H4 Hs He Hsh Hm Hp. rewrite E.
    unfold raw, scaled. rewrite Hl, Hs, He, Hsh, Hm.
    cbn [raw_value raw_width].
    change (Z.to_nat 3) with 3%nat. cbn [seq map].
    replace (LdChan.dataPtr ch + Z.of_nat 0 * 2)
      with (LdChan.dataPtr ch) by lia.
    replace (LdChan.dataPtr ch + Z.of_nat 1 * 2)
      with (LdChan.dataPtr ch + 2) by lia.
    replace (LdChan.dataPtr ch + Z.of_nat 2 * 2)
      with (LdChan.dataPtr ch + 4) by lia.
    rewrite H0, H2, H4.
    change (- Z2F 1)%float with (-1)%float. rewrite Hp.
    vm_compute. reflexivity.
Qed.

End SampleProperties.

Lemma typed_doc_loads :
  exists d : LdData.t,
    LdData_fromBuffer 4 typed_doc = Some (Ok d)
    /\ LdData.channels d = map (channel_record typed_doc) [1762; 1886; 2010; 2134]
    /\ map LdChan.dtype (LdData.channels d)
       = [Some int16; Some int32; Some float32; Some float16].
Proof.
  eexists. split; [vm_compute; reflexivity|].
  split; vm_compute; reflexivity.
Qed.

Lemma C1_physical_samples_witness :
  let r := mkReader typed_doc 0 in
  pow_by_products 10%float (-1)%float = one_tenth
  /\ fst (fst (LdChan_data pow_by_products
                 (channel_record scenario_doc 1762) (mkReader scenario_doc 0)))
     = Ok [1%float; 2%float; 3%float]
  /\ fst (fst (LdChan_data pow_by_products (channel_record typed_doc 1762) r))
     = Ok [1.5%float; (-1)%float]
  /\ fst (fst (LdChan_data pow_by_products (channel_record typed_doc 1886) r))
     = Ok [(-8)%float; 140002%float]
  /\ fst (fst (LdChan_data pow_by_products (channel_record typed_doc 2010) r))
     = Ok [1.5%float; (-0.25)%float]
  /\ fst (fst (LdChan_data pow_by_products (channel_record typed_doc 2134) r))
     = Ok [1%float; (-2)%float].
Proof.
  intros r.
  split; [vm_compute; reflexivity|]. split; [|split; [|split; [|split]]].
  - apply (C1_physical_samples pow_by_products
             (channel_record scenario_doc 1762) (mkReader scenario_doc 0) int16);
      vm_compute; (reflexivity || discriminate).
  - rewrite (proj1 (C1_physical_samples pow_by_products
                      (channel_record typed_doc 1762) r int16
                      eq_refl eq_refl ltac:(discriminate) eq_refl)).
    vm_compute. reflexivity.
  - rewrite (proj1 (C1_physical_samples pow_by_products
                      (channel_record typed_doc 1886) r int32
                      eq_refl eq_refl ltac:(discriminate) eq_refl)).
    vm_compute. reflexivity.
  - rewrite (proj1 (C1_physical_samples pow_by_products
                      (channel_record typed_doc 2010) r float32
                      eq_refl eq_refl ltac:(discriminate) eq_refl)).
    vm_compute. reflexivity.
  - rewrite (proj1 (C1_physical_samples pow_by_products
                      (channel_record typed_doc 2134) r float16
                      eq_refl eq_refl ltac:(discriminate) eq_refl)).
    vm_compute. reflexivity.
Defined.

(** ** The data map (C10) *)

Section DataMapProperties.

Variable Math_pow : float -> float -> float.

(** What a successful access leaves behind. *)
Lemma LdChan_data_ok (ch ch' : LdChan.t) (r r' : BinaryReader) (d : list float) :
  LdChan_data Math_pow ch r = (Ok d, ch', r') ->
  LdChan._data ch' = Some d /\ LdChan.name ch' = LdChan.name ch.
Proof.
  unfold LdChan_data. intros H.
  destruct (LdChan.dtype ch); [|discriminate].
  destruct (LdChan._data ch) eqn:Hc.
  - injection H as <- <- _. split; [exact Hc | reflexivity].
  - destruct (readNumericArray _ _ _ _ _) as [[raw|e] r1]; [|discriminate].
    injection H as <- <- _. split; reflexivity.
Qed.

Lemma read_sample_throws (dtype : NumericType) (r r' : BinaryReader) (e : Error) :
  read_sample Math_pow dtype r = (Throw e, r') -> exists o, e = RangeError o.
Proof.
  destruct dtype; unfold read_sample, readFloat16, bind, ret, readInt16LE,
    readInt32LE, readUInt16LE, read_with, Buffer_readInt16LE,
    Buffer_readInt32LE, Buffer_readUInt16LE, Buffer_readFloatLE,
    Buffer_readDoubleLE, Buffer_readIntLE, Buffer_readUIntLE;
    destruct (in_bounds _ _ _); intros H; try discriminate;
    injection H as <- _; eauto.
Qed.

Lemma read_samples_throws (dtype : NumericType) (n : nat) :
  forall (result : list float) (r r' : BinaryReader) (e : Error),
    read_samples Math_pow n dtype result r = (Throw e, r') ->
    exists o, e = RangeError o.
Proof.
  induction n as [|n IH]; intros result r r' e H; [discriminate|].
  cbn [read_samples] in H. unfold bind in H.
  destruct (read_sample Math_pow dtype r) as [[v|e0] r1] eqn:E.
  - eapply IH, H.
  - injection H as <- _. eapply read_sample_throws, E.
Qed.

(** [data] throws the unknown-data-type error or the out-of-range error
    of a read, and nothing else. *)
Lemma LdChan_data_throws (ch ch' : LdChan.t) (r r' : BinaryReader) (e : Error) :
  LdChan_data Math_pow ch r = (Throw e, ch', r') ->
  e = UnknownDataType (LdChan.name ch) \/ exists o, e = RangeError o.
Proof.
  unfold LdChan_data. intros H.
  destruct (LdChan.dtype ch).
  - destruct (LdChan._data ch); [discriminate|].
    destruct (readNumericArray _ _ _ _ _) as [[raw|e0] r1] eqn:E;
      [discriminate|].
    injection H as <- _ _. right.
    unfold readNumericArray in E. rewrite bind_seek in E.
    eapply read_samples_throws, E.
  - injection H as <- _ _. left. reflexivity.
Qed.

(** When the loop of [toDataMap] returns, every channel it went through
    has its data in its cache, and the object is the one it started
    from with each channel's name bound, in order, to that data. *)
Lemma toDataMap_loop_ok (channels : list LdChan.t) :
  forall (o o' : JsObject (list float)) (channels' : list LdChan.t)
         (r r' : BinaryReader),
    toDataMap_loop Math_pow channels o r = (Ok o', channels', r') ->
    map LdChan.name channels' = map LdChan.name channels
    /\ Forall (fun ch => is_Some (LdChan._data ch)) channels'
    /\ o' = fold_left bind_channel channels' o.
Proof.
  induction channels as [|ch rest IH]; intros o o' channels' r r' H.
  - cbn in H. injection H as <- <- _. repeat split. constructor.
  - cbn [toDataMap_loop] in H.
    destruct (LdChan_data Math_pow ch r) as [[[d|e] ch1] r1] eqn:E;
      [|discriminate].
    destruct (toDataMap_loop Math_pow rest _ r1) as [[res rest'] r2] eqn:E2.
    injection H as -> <- _.
    destruct (LdChan_data_ok _ _ _ _ _ E) as [Hd Hn].
    destruct (IH _ _ _ _ _ E2) as (Hnames & Hall & Ho).
    repeat split.
    + cbn. rewrite Hn, Hnames. reflexivity.
    + constructor; [rewrite Hd; eauto | exact Hall].
    + cbn [fold_left]. unfold bind_channel at 2, cached.
      rewrite Hd, Hn. exact Ho.
Qed.

Lemma toDataMap_loop_throws (channels : list LdChan.t) :
  forall (o : JsObject (list float)) (channels' : list LdChan.t)
         (r r' : BinaryReader) (e : Error),
    toDataMap_loop Math_pow channels o r = (Throw e, channels', r') ->
    (exists n, e = UnknownDataType n) \/ (exists off, e = RangeError off).
Proof.
  induction channels as [|ch rest IH]; intros o channels' r r' e H;
    [discriminate|].
  cbn [toDataMap_loop] in H.
  destruct (LdChan_data Math_pow ch r) as [[[d|e0] ch1] r1] eqn:E.
  - destruct (toDataMap_loop Math_pow rest _ r1) as [[res rest'] r2] eqn:E2.
    injection H as -> _ _. eapply IH, E2.
  - injection H as <- _ _.
    destruct (LdChan_data_throws _ _ _ _ _ E) as [->|?]; eauto.
Qed.

End DataMapProperties.

(** *** Own properties after a run of assignments *)

Lemma own_bind_channel (o : JsObject (list float)) (ch : LdChan.t) (n : string) :
  is_own_key n = true ->
  own (bind_channel o ch) !! n
  = if named n ch then Some (cached ch) else own o !! n.
Proof.
  unfold is_own_key, bind_channel, JsObject_set, named. intros Hn.
  destruct (String.eqb_spec (LdChan.name ch) "__proto__") as [E|E]; cbn.
  - destruct (String.eqb_spec (LdChan.name ch) n) as [E'|E']; [|reflexivity].
    rewrite <- E', E in Hn. discriminate.
  - destruct (String.eqb_spec (LdChan.name ch) n) as [E'|E'].
    + rewrite E'. apply lookup_insert_eq.
    + apply lookup_insert_ne. exact E'.
Qed.

(** The last assignment to a name wins. *)
Lemma own_fold_bind (channels : list LdChan.t) (o : JsObject (list float))
    (n : string) :
  is_own_key n = true ->
  own (fold_left bind_channel channels o) !! n
  = match last (List.filter (named n) channels) with
    | Some ch => Some (cached ch)
    | None => own o !! n
    end.
Proof.
  intros Hn. induction channels as [|ch channels IH] using rev_ind.
  - reflexivity.
  - rewrite fold_left_app, List.filter_app. cbn [fold_left List.filter].
    rewrite own_bind_channel by assumption.
    destruct (named n ch).
    + rewrite last_snoc. reflexivity.
    + rewrite app_nil_r. exact IH.
Qed.

Lemma keys_bind_channel (o : JsObject (list float)) (ch : LdChan.t) :
  JsObject_keys (bind_channel o ch)
  = JsObject_keys o
    ∪ list_to_set (List.filter is_own_key [LdChan.name ch]).
Proof.
  unfold JsObject_keys, bind_channel, JsObject_set, is_own_key.
  cbn [List.filter].
  destruct (String.eqb (LdChan.name ch) "__proto__"); cbn.
  - rewrite (right_id_L ∅ (∪)). reflexivity.
  - rewrite dom_insert_L, (right_id_L ∅ (∪)). apply (comm_L (∪)).
Qed.

(** The own keys are the names assigned to, ["__proto__"] left out. *)
Lemma keys_fold_bind (channels : list LdChan.t) (o : JsObject (list float)) :
  JsObject_keys (fold_left bind_channel channels o)
  = JsObject_keys o
    ∪ list_to_set (List.filter is_own_key (map LdChan.name channels)).
Proof.
  revert o. induction channels as [|ch channels IH]; intros o.
  - cbn. rewrite (right_id_L ∅ (∪)). reflexivity.
  - cbn [fold_left map]. rewrite IH, keys_bind_channel.
    change (LdChan.name ch :: map LdChan.name channels)
      with ([LdChan.name ch] ++ map LdChan.name channels).
    rewrite List.filter_app, list_to_set_app_L, (assoc_L (∪)). reflexivity.
Qed.

(** What [toDataMap] does on every document: it throws nothing but the
    errors of [data]; and when it returns, every channel has its data
    cached, the own keys of the object are the channel names other than
    ["__proto__"], and each of them is bound to the data of the last
    channel of that name in chain order. *)
Lemma toDataMap_last_wins (Math_pow : float -> float -> float) (d : LdData.t) :
  (forall (e : Error) (d' : LdData.t),
      toDataMap Math_pow d = (Throw e, d') ->
      (exists n, e = UnknownDataType n) \/ (exists off, e = RangeError off))
  /\ (forall (o : JsObject (list float)) (d' : LdData.t),
      toDataMap Math_pow d = (Ok o, d') ->
      getChannelNames d' = getChannelNames d
      /\ Forall (fun ch => is_Some (LdChan._data ch)) (LdData.channels d')
      /\ JsObject_keys o
         = list_to_set (List.filter is_own_key (getChannelNames d))
      /\ forall n : string,
           is_own_key n = true ->
           own o !! n
           = cached <$> last (List.filter (named n) (LdData.channels d'))).
Proof.
  unfold toDataMap, getChannelNames. split.
  - intros e d' H.
    destruct (toDataMap_loop _ _ _ _) as [[res chs'] r'] eqn:E.
    injection H as -> _. eapply toDataMap_loop_throws, E.
  - intros o d' H.
    destruct (toDataMap_loop _ _ _ _) as [[res chs'] r'] eqn:E.
    injection H as -> <-. cbn [LdData.channels].
    destruct (toDataMap_loop_ok _ _ _ _ _ _ _ E) as (Hn & Hall & ->).
    repeat split; try assumption.
    + rewrite keys_fold_bind, Hn. unfold JsObject_keys at 1. cbn [own JsObject_empty].
      rewrite dom_empty_L, (left_id_L ∅ (∪)). reflexivity.
    + intros n Hk. rewrite own_fold_bind by assumption.
      destruct (last _); reflexivity.
Qed.

Lemma proto_doc_loads :
  LdData_fromBuffer 1 proto_doc = Some (Ok proto_data).
Proof. vm_compute. reflexivity. Qed.

(** C10 at a document whose only channel is named "__proto__" (an int16
    channel with the one raw sample 5): [toDataMap] returns, and the
    object it returns has no own key at all, although the document has
    one channel name; the assignment made the channel's data the
    prototype of the object instead. *)
Theorem C10_proto_name_is_no_key (Math_pow : float -> float -> float) :
  LdData_fromBuffer 1 proto_doc = Some (Ok proto_data)
  /\ getChannelNames proto_data = ["__proto__"%string]
  /\ exists (o : JsObject (list float)) (d' : LdData.t),
       toDataMap Math_pow proto_data = (Ok o, d')
       /\ JsObject_keys o = ∅
       /\ own o !! "__proto__"%string = None
       /\ proto o
          = Some [physical Math_pow (channel_record proto_doc 1762) 5%float].
Proof.
  split; [exact proto_doc_loads|]. split; [vm_compute; reflexivity|].
  eexists. eexists. split; [vm_compute; reflexivity|].
  split; [|split]; vm_compute; reflexivity.
Qed.

(** On the document with two channels named "Speed" the data map has the
    one key "Speed", bound to the data of the second channel. *)
Lemma toDataMap_duplicate_doc :
  exists (o : JsObject (list float)) (d' : LdData.t),
    toDataMap pow_by_products duplicate_data = (Ok o, d')
    /\ JsObject_keys o = {["Speed"%string]}
    /\ own o !! "Speed"%string = Some [9%float].
Proof.
  destruct (toDataMap pow_by_products duplicate_data) as [res d'] eqn:E.
  assert (Hr : res = fst (toDataMap pow_by_products duplicate_data))
    by (rewrite E; reflexivity).
  vm_compute in Hr.
  match type of Hr with res = Ok ?o => exists o, d' end.
  subst res. split; [reflexivity|].
  destruct (toDataMap_last_wins pow_by_products duplicate_data) as [_ H].
  destruct (H _ _ E) as (Hn & Hall & Hk & Hl).
  split.
  - rewrite Hk. vm_compute. reflexivity.
  - reflexivity.
Qed.

(** ** The decoded half floats are the IEEE-754 binary16 values *)

Lemma In_zrange (n : nat) :
  forall from v : Z,
    from <= v < from + Z.of_nat n -> In v (zrange n from).
Proof.
  induction n as [|n IH]; intros from v H; [lia|].
  cbn [zrange]. destruct (Z.eq_dec from v) as [->|Hne]; [left; reflexivity|].
  right. apply IH. lia.
Qed.

(** The products of the three rules are exact in binary64: on each of
    the 65536 patterns they give the double that the IEEE-754 binary16
    encoding (5 exponent bits, 10 fraction bits) denotes. *)
Lemma spec_half_binary16_all :
  forallb
    (fun v : Z =>
       PrimFloat.Leibniz.eqb
         (spec_half (v / 32768) ((v / 1024) mod 32) (v mod 1024))
         (float_of_bits 5 10 v))
    (zrange (Z.to_nat 65536) 0)
  = true.
Proof. vm_compute. reflexivity. Qed.

Lemma decodeFloat16_binary16 (Math_pow : float -> float -> float) (value : Z) :
  pow_exact_on_two Math_pow ->
  0 <= value < 65536 ->
  decodeFloat16 Math_pow value = float_of_bits 5 10 value.
Proof.
  intros Hpow Hv. rewrite decodeFloat16_spec by assumption.
  apply FloatAxioms.Leibniz.eqb_spec.
  pose proof spec_half_binary16_all as H.
  rewrite forallb_forall in H.
  apply (H value). apply In_zrange. rewrite Z2Nat.id; lia.
Qed.

(** ** The scenario of the specification, from the bytes to the samples *)

Lemma scenario_end_to_end :
  exists d : LdData.t,
    LdData_fromBuffer 1 scenario_doc = Some (Ok d)
    /\ LdHead.driver (LdData.head d) = "J.Doe"%string
    /\ getChannelNames d = ["Speed"%string]
    /\ exists ch : LdChan.t,
         getChannel d (Index 0%float) = Ok (Some ch)
         /\ LdChan.dtype ch = Some int16
         /\ fst (fst (LdChan_data pow_by_products ch (LdData.reader d)))
            = Ok [1%float; 2%float; 3%float].
Proof.
  eexists. split; [vm_compute; reflexivity|].
  split; [reflexivity|]. split; [reflexivity|].
  eexists. split; [vm_compute; reflexivity|].
  split; vm_compute; reflexivity.
Qed.

(** * Further properties of the code *)

(** ** decodeString *)

Lemma byte_val_zero (x : byte) : byte_val x = 0 <-> x = x00.
Proof.
  split; [|intros ->; reflexivity].
  destruct x; intros H; try reflexivity; vm_compute in H; discriminate.
Qed.

Lemma byte_val_range (x : byte) : 0 <= byte_val x < 256.
Proof. destruct x; vm_compute; split; congruence. Qed.

Lemma Buffer_indexOf0_range (b : Buffer) :
  -1 <= Buffer_indexOf0 b < Buffer_length b.
Proof.
  unfold Buffer_length. induction b as [|x b IH]; cbn [Buffer_indexOf0 length].
  - lia.
  - destruct (byte_val x =? 0); [lia|].
    destruct (Z.ltb_spec (Buffer_indexOf0 b) 0); lia.
Qed.

Lemma Buffer_indexOf0_app (pre rest : Buffer) :
  Forall (fun x => x <> x00) pre ->
  Buffer_indexOf0 (pre ++ x00 :: rest) = Z.of_nat (length pre).
Proof.
  induction 1 as [|x pre Hx _ IH]; [reflexivity|].
  cbn [app Buffer_indexOf0 length].
  destruct (Z.eqb_spec (byte_val x) 0) as [E|_].
  - apply byte_val_zero in E. contradiction.
  - rewrite IH. destruct (Z.ltb_spec (Z.of_nat (length pre)) 0); lia.
Qed.

Lemma Buffer_indexOf0_none (b : Buffer) :
  Forall (fun x => x <> x00) b -> Buffer_indexOf0 b = -1.
Proof.
  induction 1 as [|x b Hx _ IH]; [reflexivity|].
  cbn [Buffer_indexOf0].
  destruct (Z.eqb_spec (byte_val x) 0) as [E|_].
  - apply byte_val_zero in E. contradiction.
  - rewrite IH. reflexivity.
Qed.

Lemma Buffer_slice_prefix (b : Buffer) (k : Z) :
  0 <= k <= Buffer_length b ->
  Buffer_slice b 0 k = firstn (Z.to_nat k) b.
Proof.
  intros H. unfold Buffer_slice.
  rewrite !adjustOffset_nonneg by lia. cbn zeta.
  rewrite Z.min_l, Z.min_l by lia.
  destruct (Z.ltb_spec 0 k).
  - unfold bytes_at. rewrite Z.sub_0_r. reflexivity.
  - replace k with 0 by lia. reflexivity.
Qed.

(** What [decodeString] decodes: the bytes before the first NUL. *)
Lemma decodeString_no_nul (b : Buffer) :
  Forall (fun x => x <> x00) b ->
  decodeString b = String_trim (Buffer_toString_ascii b).
Proof.
  intros H. unfold decodeString. rewrite Buffer_indexOf0_none by assumption.
  cbn. rewrite Buffer_slice_prefix by (unfold Buffer_length; lia).
  unfold Buffer_length. rewrite Nat2Z.id, firstn_all. reflexivity.
Qed.

Lemma decodeString_nul (pre rest : Buffer) :
  Forall (fun x => x <> x00) pre ->
  decodeString (pre ++ x00 :: rest) = String_trim (Buffer_toString_ascii pre).
Proof.
  intros H. unfold decodeString. rewrite Buffer_indexOf0_app by assumption.
  destruct (Z.leb_spec 0 (Z.of_nat (length pre))); [|lia].
  rewrite Buffer_slice_prefix
    by (unfold Buffer_length; rewrite length_app; cbn [length]; lia).
  rewrite Nat2Z.id, firstn_app, Nat.sub_diag, firstn_all. cbn [firstn].
  rewrite app_nil_r. reflexivity.
Qed.

(** X1. [decodeString] reads a field up to its first NUL byte: whatever
    follows that byte does not change the result, which is the one
    of the bytes before it. *)
Theorem X1_decodeString_stops_at_nul (pre rest : Buffer) :
  Forall (fun x => x <> x00) pre ->
  decodeString (pre ++ x00 :: rest) = decodeString pre.
Proof.
  intros H. rewrite decodeString_nul, decodeString_no_nul by assumption.
  reflexivity.
Qed.

Lemma X1_decodeString_stops_at_nul_witness :
  Forall (fun x => x <> x00) ["A"%byte; "b"%byte]
  /\ decodeString (["A"%byte; "b"%byte] ++ x00 :: ["Z"%byte; x00; "!"%byte])
     = "Ab"%string.
Proof.
  assert (H : Forall (fun x => x <> x00) ["A"%byte; "b"%byte])
    by (repeat constructor; discriminate).
  split; [exact H|].
  rewrite (X1_decodeString_stops_at_nul _ _ H). reflexivity.
Defined.

Lemma trim_start_first (s : string) : first_is_space (trim_start s) = false.
Proof.
  induction s as [|c s IH]; [reflexivity|].
  cbn [trim_start]. destruct (is_js_space c) eqn:E; [exact IH|].
  cbn. exact E.
Qed.

Lemma trim_end_last (s : string) : last_is_space (trim_end s) = false.
Proof.
  induction s as [|c s IH]; [reflexivity|].
  cbn [trim_end]. destruct (trim_end s) as [|c' t] eqn:E.
  - destruct (is_js_space c) eqn:Ec; [reflexivity|]. cbn. exact Ec.
  - exact IH.
Qed.

Lemma trim_end_first (s : string) :
  first_is_space s = false -> first_is_space (trim_end s) = false.
Proof.
  destruct s as [|c s]; [reflexivity|]. cbn [first_is_space trim_end].
  intros H. destruct (trim_end s); [rewrite H|]; cbn; auto.
Qed.

Lemma trim_start_length (s : string) :
  (String.length (trim_start s) <= String.length s)%nat.
Proof.
  induction s as [|c s IH]; [reflexivity|].
  cbn [trim_start]. destruct (is_js_space c); cbn [String.length]; lia.
Qed.

Lemma trim_end_length (s : string) :
  (String.length (trim_end s) <= String.length s)%nat.
Proof.
  induction s as [|c s IH]; [reflexivity|].
  cbn [trim_end]. destruct (trim_end s); [destruct (is_js_space c)|];
    cbn [String.length] in *; lia.
Qed.

Lemma trim_start_all (p : ascii -> bool) (s : string) :
  all_chars p s = true -> all_chars p (trim_start s) = true.
Proof.
  induction s as [|c s IH]; [reflexivity|].
  cbn [trim_start all_chars]. intros H. apply andb_true_iff in H as [Hc Hs].
  destruct (is_js_space c); [auto|]. cbn. rewrite Hc, Hs. reflexivity.
Qed.

Lemma trim_end_all (p : ascii -> bool) (s : string) :
  all_chars p s = true -> all_chars p (trim_end s) = true.
Proof.
  induction s as [|c s IH]; [reflexivity|].
  cbn [trim_end all_chars]. intros H. apply andb_true_iff in H as [Hc Hs].
  specialize (IH Hs). destruct (trim_end s).
  - destruct (is_js_space c); [reflexivity|]. cbn. rewrite Hc. reflexivity.
  - cbn [all_chars] in *. rewrite Hc, IH. reflexivity.
Qed.

Lemma ascii_char_7bit (x : byte) : (N_of_ascii (ascii_char x) <? 128)%N = true.
Proof. destruct x; reflexivity. Qed.

Lemma Buffer_toString_ascii_7bit (b : Buffer) :
  all_chars (fun c => (N_of_ascii c <? 128)%N) (Buffer_toString_ascii b) = true.
Proof.
  induction b as [|x b IH]; [reflexivity|].
  cbn [Buffer_toString_ascii all_chars]. rewrite ascii_char_7bit, IH.
  reflexivity.
Qed.

Lemma Buffer_toString_ascii_length (b : Buffer) :
  String.length (Buffer_toString_ascii b) = length b.
Proof. induction b as [|x b IH]; cbn; [|rewrite IH]; reflexivity. Qed.

Lemma Buffer_slice_shorter (b : Buffer) (s e : Z) :
  (length (Buffer_slice b s e) <= length b)%nat.
Proof.
  unfold Buffer_slice, bytes_at. rewrite length_firstn, length_skipn. lia.
Qed.

Lemma decodeString_length (b : Buffer) :
  (String.length (decodeString b) <= length b)%nat.
Proof.
  unfold decodeString, String_trim.
  etransitivity; [apply trim_end_length|].
  etransitivity; [apply trim_start_length|].
  rewrite Buffer_toString_ascii_length. apply Buffer_slice_shorter.
Qed.

(** X2. Whatever the bytes of a field, the text [decodeString] returns
    has no white space at either end, is made of 7-bit characters, and is
    no longer than the field. *)
Theorem X2_decodeString_trimmed (b : Buffer) :
  first_is_space (decodeString b) = false
  /\ last_is_space (decodeString b) = false
  /\ all_chars (fun c => (N_of_ascii c <? 128)%N) (decodeString b) = true
  /\ (String.length (decodeString b) <= length b)%nat.
Proof.
  unfold decodeString, String_trim. repeat apply conj.
  - apply trim_end_first, trim_start_first.
  - apply trim_end_last.
  - apply trim_end_all, trim_start_all, Buffer_toString_ascii_7bit.
  - apply decodeString_length.
Qed.

Lemma trim_start_id (s : string) :
  first_is_space s = false -> trim_start s = s.
Proof. destruct s as [|c s]; [reflexivity|]. cbn. intros ->. reflexivity. Qed.

Lemma trim_end_id (s : string) :
  last_is_space s = false -> trim_end s = s.
Proof.
  induction s as [|c s IH]; [reflexivity|].
  cbn [last_is_space trim_end]. destruct s as [|c' s'].
  - cbn. intros ->. reflexivity.
  - intros H. rewrite (IH H). reflexivity.
Qed.

Lemma ascii_char_byte_of_ascii (c : ascii) :
  is_ascii7 c = true -> ascii_char (byte_of_ascii c) = c.
Proof.
  destruct c as [[] [] [] [] [] [] [] []]; intros H;
    solve [reflexivity | vm_compute in H; discriminate].
Qed.

Lemma byte_of_ascii_not_nul (c : ascii) :
  is_ascii7 c = true -> byte_of_ascii c <> x00.
Proof.
  destruct c as [[] [] [] [] [] [] [] []]; intros H;
    solve [discriminate | vm_compute in H; discriminate].
Qed.

Lemma bytes_of_string_no_nul (s : string) :
  all_chars is_ascii7 s = true ->
  Forall (fun x => x <> x00) (bytes_of_string s).
Proof.
  unfold bytes_of_string. induction s as [|c s IH]; cbn; [constructor|].
  intros H. apply andb_true_iff in H as [Hc Hs].
  constructor; [apply byte_of_ascii_not_nul, Hc | apply IH, Hs].
Qed.

Lemma Buffer_toString_ascii_bytes (s : string) :
  all_chars is_ascii7 s = true ->
  Buffer_toString_ascii (bytes_of_string s) = s.
Proof.
  unfold bytes_of_string. induction s as [|c s IH]; cbn; [reflexivity|].
  intros H. apply andb_true_iff in H as [Hc Hs].
  rewrite ascii_char_byte_of_ascii, IH by assumption. reflexivity.
Qed.

Lemma bytes_of_string_length (s : string) :
  length (bytes_of_string s) = String.length s.
Proof.
  unfold bytes_of_string. induction s as [|c s IH]; cbn; [|rewrite IH];
    reflexivity.
Qed.

Lemma firstn_repeat_le {A} (x : A) (k n : nat) :
  (k <= n)%nat -> firstn k (repeat x n) = repeat x k.
Proof.
  revert n. induction k as [|k IH]; intros n H; [reflexivity|].
  destruct n as [|n]; [lia|]. cbn. rewrite IH by lia. reflexivity.
Qed.

(** A text field of [n] bytes holding [s]: the bytes of [s], then
    zeros. *)
Lemma text_padded (n : nat) (s : string) :
  (String.length s <= n)%nat ->
  text n s = bytes_of_string s ++ repeat x00 (n - String.length s).
Proof.
  intros H. unfold text. fold (bytes_of_string s).
  rewrite firstn_app, bytes_of_string_length, firstn_all2
    by (rewrite bytes_of_string_length; lia).
  f_equal. apply firstn_repeat_le. lia.
Qed.

(** The text a field decodes to, for any bytes after it. *)
Lemma decodeString_clean (s : string) (pad : list byte) :
  clean_text s = true ->
  (pad = [] \/ exists rest, pad = x00 :: rest) ->
  decodeString (bytes_of_string s ++ pad) = s.
Proof.
  unfold clean_text. intros H Hp.
  apply andb_true_iff in H as [H Hl]. apply andb_true_iff in H as [Ha Hf].
  apply negb_true_iff in Hl, Hf.
  assert (E : String_trim (Buffer_toString_ascii (bytes_of_string s)) = s).
  { rewrite Buffer_toString_ascii_bytes by assumption. unfold String_trim.
    rewrite trim_start_id, trim_end_id by assumption. reflexivity. }
  destruct Hp as [->|[rest ->]].
  - rewrite app_nil_r, decodeString_no_nul
      by (apply bytes_of_string_no_nul; assumption).
    exact E.
  - rewrite decodeString_nul by (apply bytes_of_string_no_nul; assumption).
    exact E.
Qed.

(** X3. A text of 7-bit characters without NUL and without white space
    at its ends, stored as its bytes followed by any number of zero
    bytes (none when the text fills its field), is what [decodeString]
    returns. *)
Theorem X3_decodeString_round_trip (s : string) (k : nat) :
  clean_text s = true ->
  decodeString (bytes_of_string s ++ repeat x00 k) = s.
Proof.
  intros Hc. apply decodeString_clean; [assumption|].
  destruct k; [left|right; eexists]; reflexivity.
Qed.

Lemma X3_decodeString_round_trip_witness :
  clean_text "Ground Speed" = true
  /\ decodeString (bytes_of_string "Ground Speed" ++ repeat x00 20)
     = "Ground Speed"%string
  /\ decodeString (bytes_of_string "Ground Speed" ++ repeat x00 0)
     = "Ground Speed"%string.
Proof.
  split; [reflexivity|]. split.
  - apply X3_decodeString_round_trip. reflexivity.
  - apply X3_decodeString_round_trip. reflexivity.
Defined.

(** The same for the fields the sample buffers are built from. *)
Lemma decodeString_text (n : nat) (s : string) :
  clean_text s = true ->
  (String.length s <= n)%nat ->
  decodeString (text n s) = s.
Proof.
  intros Hc Hn. rewrite text_padded by assumption.
  apply decodeString_clean; [assumption|].
  destruct (n - String.length s)%nat; [left|right; eexists]; reflexivity.
Qed.

(** ** The integer reads of the cursor *)

Lemma le_value_range (bs : list byte) :
  0 <= le_value bs < 256 ^ Z.of_nat (length bs).
Proof.
  induction bs as [|x bs IH]; [cbn; lia|].
  cbn [le_value length]. rewrite Nat2Z.inj_succ, Z.pow_succ_r by lia.
  pose proof (byte_val_range x). lia.
Qed.

Lemma bytes_at_in_bounds_length (b : Buffer) (o w : Z) :
  in_bounds b o w = true -> 0 <= w -> Z.of_nat (length (bytes_at b o w)) = w.
Proof.
  intros H Hw. apply in_bounds_iff in H.
  rewrite bytes_at_length by lia. lia.
Qed.

Lemma le_value_at_range (b : Buffer) (o w : Z) :
  in_bounds b o w = true -> 0 <= w ->
  0 <= le_value (bytes_at b o w) < 256 ^ w.
Proof.
  intros H Hw. pose proof (le_value_range (bytes_at b o w)) as R.
  rewrite bytes_at_in_bounds_length in R by assumption. exact R.
Qed.

Lemma to_signed_range (w u : Z) :
  0 < w -> 0 <= u < 2 ^ w ->
  - 2 ^ (w - 1) <= to_signed w u < 2 ^ (w - 1)
  /\ (to_signed w u) mod 2 ^ w = u.
Proof.
  intros Hw Hu. unfold to_signed.
  assert (E : 2 ^ w = 2 * 2 ^ (w - 1)).
  { rewrite <- Z.pow_succ_r by lia. f_equal. lia. }
  destruct (Z.ltb_spec u (2 ^ (w - 1))).
  - split; [lia|]. apply Z.mod_small. lia.
  - split; [lia|].
    replace (u - 2 ^ w) with (u + (-1) * 2 ^ w) by lia.
    rewrite Z.mod_add by lia. apply Z.mod_small. lia.
Qed.

(** X4. What the integer reads return: an unsigned read of 2 or 4 bytes
    returns a value in [[0, 2^16)] or [[0, 2^32)]; a signed read returns a
    value in [[-2^15, 2^15)] or [[-2^31, 2^31)], which is the unsigned
    value at the same place modulo 2^16 or 2^32; and every read that
    returns advances the cursor by its width. *)
Theorem X4_integer_reads (r r' : BinaryReader) (v : Z) :
  (readUInt16LE r = (Ok v, r') ->
     0 <= v < 65536 /\ r' = set_position (position r + 2) r)
  /\ (readUInt32LE r = (Ok v, r') ->
     0 <= v < 4294967296 /\ r' = set_position (position r + 4) r)
  /\ (readInt16LE r = (Ok v, r') ->
     -32768 <= v < 32768
     /\ fst (readUInt16LE r) = Ok (v mod 65536)
     /\ r' = set_position (position r + 2) r)
  /\ (readInt32LE r = (Ok v, r') ->
     -2147483648 <= v < 2147483648
     /\ fst (readUInt32LE r) = Ok (v mod 4294967296)
     /\ r' = set_position (position r + 4) r).
Proof.
  unfold readUInt16LE, readUInt32LE, readInt16LE, readInt32LE, read_with,
    Buffer_readUInt16LE, Buffer_readUInt32LE, Buffer_readInt16LE,
    Buffer_readInt32LE, Buffer_readIntLE, Buffer_readUIntLE.
  repeat apply conj; intros H.
  - destruct (in_bounds (buffer r) (position r) 2) eqn:E; [|discriminate].
    injection H as <- <-. split; [|reflexivity].
    apply (le_value_at_range _ _ 2 E). lia.
  - destruct (in_bounds (buffer r) (position r) 4) eqn:E; [|discriminate].
    injection H as <- <-. split; [|reflexivity].
    apply (le_value_at_range _ _ 4 E). lia.
  - destruct (in_bounds (buffer r) (position r) 2) eqn:E; [|discriminate].
    injection H as <- <-.
    pose proof (le_value_at_range _ _ 2 E ltac:(lia)) as R.
    destruct (to_signed_range 16 _ ltac:(lia) R) as [R1 R2].
    change (2 ^ 16) with 65536 in R2.
    change (2 ^ (16 - 1)) with 32768 in R1.
    change (8 * 2) with 16. cbn [fst]. rewrite R2.
    split; [exact R1|]. split; reflexivity.
  - destruct (in_bounds (buffer r) (position r) 4) eqn:E; [|discriminate].
    injection H as <- <-.
    pose proof (le_value_at_range _ _ 4 E ltac:(lia)) as R.
    destruct (to_signed_range 32 _ ltac:(lia) R) as [R1 R2].
    change (2 ^ 32) with 4294967296 in R2.
    change (2 ^ (32 - 1)) with 2147483648 in R1.
    change (8 * 4) with 32. cbn [fst]. rewrite R2.
    split; [exact R1|]. split; reflexivity.
Qed.

Lemma X4_integer_reads_witness :
  let r := mkReader [xff; xff; xff; xff] 0 in
  readInt16LE r = (Ok (-1), mkReader [xff; xff; xff; xff] 2)
  /\ fst (readUInt16LE r) = Ok 65535
  /\ readInt32LE r = (Ok (-1), mkReader [xff; xff; xff; xff] 4)
  /\ fst (readUInt32LE r) = Ok 4294967295.
Proof.
  intros r.
  assert (H16 : readInt16LE r = (Ok (-1), mkReader [xff; xff; xff; xff] 2))
    by reflexivity.
  assert (H32 : readInt32LE r = (Ok (-1), mkReader [xff; xff; xff; xff] 4))
    by reflexivity.
  split; [exact H16|]. split.
  - exact (proj1 (proj2 (proj1 (proj2 (proj2
             (X4_integer_reads r _ (-1)))) H16))).
  - split; [exact H32|].
    exact (proj1 (proj2 (proj2 (proj2 (proj2
             (X4_integer_reads r _ (-1)))) H32))).
Defined.

(** ** The nested records of the header *)

Lemma bind_ok {A B} (m : M A) (k : A -> M B) (r r' : BinaryReader) (a : A) :
  m r = (Ok a, r') -> bind m k r = k a r'.
Proof. intros H. unfold bind. rewrite H. reflexivity. Qed.

Lemma bind_throw {A B} (m : M A) (k : A -> M B) (r r' : BinaryReader)
    (e : Error) :
  m r = (Throw e, r') -> bind m k r = (Throw e, r').
Proof. intros H. unfold bind. rewrite H. reflexivity. Qed.

Lemma LdVehicle_fromFile_eq (r : BinaryReader) :
  LdVehicle_fromFile r
  = if vehicle_in_buffer (buffer r) (position r)
    then (Ok (vehicle_record (buffer r) (position r)),
          set_position (position r + 260) r)
    else (Throw (RangeError (position r + 192)),
          set_position (position r + 192) r).
Proof.
  unfold LdVehicle_fromFile, vehicle_in_buffer.
  rewrite bind_readBytes, bind_skip. cbn [buffer position set_position].
  replace (position r + 64 + 128) with (position r + 192) by lia.
  destruct (in_bounds (buffer r) (position r + 192) 4) eqn:E.
  - rewrite bind_readUInt32LE by exact E.
    cbn [buffer position set_position].
    rewrite !bind_readBytes. cbn [buffer position set_position].
    unfold ret, vehicle_record, text_at, set_position.
    sum_offsets (position r). reflexivity.
  - unfold readUInt32LE. erewrite bind_read_throw; [reflexivity|].
    apply readU_throw. exact E.
Qed.

(** X5. [LdVehicle.fromFile] at cursor [p] reads the id at [p], the
    weight at [p + 192], the type at [p + 196] and the comment at
    [p + 228], and leaves the cursor at [p + 260]; it fails, with the
    out-of-range error at [p + 192], exactly when the four bytes of the
    weight are not in the buffer (the three texts may be cut short by the
    end of the buffer without error). *)
Theorem X5_vehicle_layout (r : BinaryReader) :
  let b := buffer r in
  let p := position r in
  (in_bounds b (p + 192) 4 = true ->
     LdVehicle_fromFile r
     = (Ok (LdVehicle.mk (text_at b p 64) (u32_at b (p + 192))
              (text_at b (p + 196) 32) (text_at b (p + 228) 32)),
        set_position (p + 260) r))
  /\ (in_bounds b (p + 192) 4 = false ->
     fst (LdVehicle_fromFile r) = Throw (RangeError (p + 192))).
Proof.
  cbn zeta. rewrite LdVehicle_fromFile_eq. unfold vehicle_in_buffer.
  split; intros ->; reflexivity.
Qed.

Lemma at_pointer_zero {A} (ptr : Z) (parse : M A) (r : BinaryReader) :
  ptr <= 0 -> at_pointer ptr parse r = (Ok None, r).
Proof.
  intros H. unfold at_pointer. destruct (Z.ltb_spec 0 ptr); [lia|].
  reflexivity.
Qed.

(** The save, seek, parse, restore block: the cursor is back where it
    was when the nested record has been parsed, and stays in the nested
    record when its parser threw. *)
Lemma at_pointer_follow {A} (ptr : Z) (parse : M A) (r : BinaryReader) :
  0 < ptr ->
  at_pointer ptr parse r
  = match parse (set_position ptr r) with
    | (Ok x, r') => (Ok (Some x), set_position (position r) r')
    | (Throw e, r') => (Throw e, r')
    end.
Proof.
  intros H. unfold at_pointer. destruct (Z.ltb_spec 0 ptr); [|lia].
  rewrite bind_tell, bind_seek. unfold bind at 1.
  destruct (parse (set_position ptr r)) as [[x|e] r']; reflexivity.
Qed.

Lemma at_pointer_throw {A} (ptr : Z) (parse : M A) (r r' : BinaryReader)
    (e : Error) :
  0 < ptr -> parse (set_position ptr r) = (Throw e, r') ->
  at_pointer ptr parse r = (Throw e, r').
Proof.
  intros H E. rewrite at_pointer_follow by exact H. rewrite E. reflexivity.
Qed.

Lemma LdVenue_fromFile_ok (r : BinaryReader) :
  venue_in_buffer (buffer r) (position r) = true ->
  LdVenue_fromFile r
  = (Ok (venue_record (buffer r) (position r)),
     set_position (position r + 1100) r).
Proof.
  unfold venue_in_buffer, venue_record. intros H.
  apply andb_true_iff in H as [Hb Hv]. cbn zeta in Hv.
  unfold LdVenue_fromFile.
  rewrite bind_readBytes, bind_skip. cbn [buffer position set_position].
  replace (position r + 64 + 1034) with (position r + 1098) by lia.
  rewrite bind_readUInt16LE by exact Hb. cbn [buffer position set_position].
  destruct (Z.ltb_spec 0 (u16_at (buffer r) (position r + 1098))) as [Hp|Hp].
  - erewrite bind_ok.
    2:{ rewrite at_pointer_follow by exact Hp.
        rewrite LdVehicle_fromFile_eq. cbn [buffer position set_position].
        rewrite Hv. reflexivity. }
    unfold ret, set_position. cbn [buffer position]. unfold text_at.
    do 2 f_equal. lia.
  - erewrite bind_ok by (apply at_pointer_zero; exact Hp).
    unfold ret, set_position. cbn [buffer position]. unfold text_at.
    do 2 f_equal. lia.
Qed.

Lemma LdVenue_fromFile_throw (r : BinaryReader) :
  venue_in_buffer (buffer r) (position r) = false ->
  exists o r', LdVenue_fromFile r = (Throw (RangeError o), r').
Proof.
  unfold venue_in_buffer. intros H. unfold LdVenue_fromFile.
  rewrite bind_readBytes, bind_skip. cbn [buffer position set_position].
  replace (position r + 64 + 1034) with (position r + 1098) by lia.
  destruct (in_bounds (buffer r) (position r + 1098) 2) eqn:Hb.
  - cbn [andb] in H. cbn zeta in H.
    rewrite bind_readUInt16LE by exact Hb. cbn [buffer position set_position].
    destruct (Z.ltb_spec 0 (u16_at (buffer r) (position r + 1098))) as [Hp|Hp];
      [|discriminate].
    erewrite bind_throw; [eauto|].
    rewrite at_pointer_follow by exact Hp.
    rewrite LdVehicle_fromFile_eq. cbn [buffer position set_position].
    rewrite H. reflexivity.
  - unfold readUInt16LE. erewrite bind_read_throw; [eauto|].
    apply readU_throw. exact Hb.
Qed.

Lemma u16_at_range (b : Buffer) (o : Z) :
  in_bounds b o 2 = true -> 0 <= u16_at b o < 65536.
Proof. intros H. apply (le_value_at_range b o 2 H). lia. Qed.

(** X6. [LdVenue.fromFile] at cursor [p] reads the name at [p] and the
    16-bit vehicle pointer at [p + 1098].  It returns exactly when those
    two bytes are in the buffer and, for a non-zero pointer, the vehicle
    record it leads to can be read; the venue then has no vehicle exactly
    when the pointer is 0, has the vehicle record at the pointer
    otherwise, and in both cases the cursor is left at [p + 1100]: the
    jump to the vehicle is undone. *)
Theorem X6_venue_pointer (r : BinaryReader) :
  let b := buffer r in
  let p := position r in
  (venue_in_buffer b p = true ->
     exists v : LdVenue.t,
       LdVenue_fromFile r = (Ok v, set_position (p + 1100) r)
       /\ LdVenue.name v = text_at b p 64
       /\ LdVenue.vehiclePtr v = u16_at b (p + 1098)
       /\ 0 <= LdVenue.vehiclePtr v < 65536
       /\ (LdVenue.vehiclePtr v = 0 -> LdVenue.vehicle v = None)
       /\ (LdVenue.vehiclePtr v <> 0 ->
           LdVenue.vehicle v
           = Some (vehicle_record b (LdVenue.vehiclePtr v))))
  /\ (venue_in_buffer b p = false ->
     exists o, fst (LdVenue_fromFile r) = Throw (RangeError o)).
Proof.
  cbn zeta. split; intros H.
  - exists (venue_record (buffer r) (position r)).
    split; [apply LdVenue_fromFile_ok, H|].
    unfold venue_in_buffer in H. apply andb_true_iff in H as [Hb _].
    pose proof (u16_at_range _ _ Hb) as R.
    unfold venue_record. cbn.
    repeat apply conj; try reflexivity; try lia.
    + intros ->. reflexivity.
    + intros Hne. destruct (Z.ltb_spec 0 (u16_at (buffer r) (position r + 1098)));
        [reflexivity|lia].
  - destruct (LdVenue_fromFile_throw r H) as (o & r' & E).
    exists o. rewrite E. reflexivity.
Qed.

Lemma X5_vehicle_layout_witness :
  let r := mkReader nested_doc 4016 in
  LdVehicle_fromFile r
  = (Ok (LdVehicle.mk "Car7" 1200 "GT3" "new"), mkReader nested_doc 4276)
  /\ fst (LdVehicle_fromFile (mkReader nested_doc 4100))
     = Throw (RangeError 4292).
Proof.
  intros r. split.
  - rewrite (proj1 (X5_vehicle_layout r)); vm_compute; reflexivity.
  - rewrite (proj2 (X5_vehicle_layout (mkReader nested_doc 4100)));
      vm_compute; reflexivity.
Defined.

Lemma X6_venue_pointer_witness :
  let r := mkReader nested_doc 2916 in
  venue_in_buffer nested_doc 2916 = true
  /\ exists v : LdVenue.t,
       LdVenue_fromFile r = (Ok v, mkReader nested_doc 4016)
       /\ LdVenue.vehiclePtr v = 4016
       /\ LdVenue.vehicle v = Some (LdVehicle.mk "Car7" 1200 "GT3" "new").
Proof.
  intros r.
  assert (H : venue_in_buffer nested_doc 2916 = true) by (vm_compute; reflexivity).
  split; [exact H|].
  destruct (proj1 (X6_venue_pointer r) H) as (v & E & _ & Hp & _ & _ & Hv).
  exists v. split; [exact E|].
  assert (Hp' : LdVenue.vehiclePtr v = 4016) by (rewrite Hp; vm_compute; reflexivity).
  split; [exact Hp'|].
  rewrite Hv by (rewrite Hp'; discriminate).
  rewrite Hp'. vm_compute. reflexivity.
Defined.

Lemma LdEvent_fromFile_ok (r : BinaryReader) :
  event_in_buffer (buffer r) (position r) = true ->
  LdEvent_fromFile r
  = (Ok (event_record (buffer r) (position r)),
     set_position (position r + 1154) r).
Proof.
  unfold event_in_buffer, event_record. intros H.
  apply andb_true_iff in H as [Hb Hv]. cbn zeta in Hv.
  unfold LdEvent_fromFile.
  rewrite !bind_readBytes. cbn [buffer position set_position].
  replace (position r + 64 + 64 + 1024) with (position r + 1152) by lia.
  rewrite bind_readUInt16LE by exact Hb. cbn [buffer position set_position].
  destruct (Z.ltb_spec 0 (u16_at (buffer r) (position r + 1152))) as [Hp|Hp].
  - erewrite bind_ok.
    2:{ rewrite at_pointer_follow by exact Hp.
        rewrite LdVenue_fromFile_ok by exact Hv. reflexivity. }
    unfold ret, set_position. cbn [buffer position]. unfold text_at.
    sum_offsets (position r). reflexivity.
  - erewrite bind_ok by (apply at_pointer_zero; exact Hp).
    unfold ret, set_position. cbn [buffer position]. unfold text_at.
    sum_offsets (position r). reflexivity.
Qed.

Lemma LdEvent_fromFile_throw (r : BinaryReader) :
  event_in_buffer (buffer r) (position r) = false ->
  exists o r', LdEvent_fromFile r = (Throw (RangeError o), r').
Proof.
  unfold event_in_buffer. intros H. unfold LdEvent_fromFile.
  rewrite !bind_readBytes. cbn [buffer position set_position].
  replace (position r + 64 + 64 + 1024) with (position r + 1152) by lia.
  destruct (in_bounds (buffer r) (position r + 1152) 2) eqn:Hb.
  - cbn [andb] in H. cbn zeta in H.
    rewrite bind_readUInt16LE by exact Hb. cbn [buffer position set_position].
    destruct (Z.ltb_spec 0 (u16_at (buffer r) (position r + 1152))) as [Hp|Hp];
      [|discriminate].
    match goal with
    | |- context [bind (at_pointer ?ptr _) _ ?R] =>
        destruct (LdVenue_fromFile_throw (set_position ptr R) H)
          as (o & r' & E);
        erewrite (bind_throw (at_pointer ptr LdVenue_fromFile) _ R);
          [eauto | apply at_pointer_throw; [exact Hp | exact E]]
    end.
  - unfold readUInt16LE. erewrite bind_read_throw; [eauto|].
    apply readU_throw. exact Hb.
Qed.

(** X7. [LdEvent.fromFile] at cursor [p] reads the name at [p], the
    session at [p + 64], the comment at [p + 128] and the 16-bit venue
    pointer at [p + 1152].  It returns exactly when the pointer is in
    the buffer and, for a non-zero pointer, the venue it leads to can be
    read; the event then has no venue exactly when the pointer is 0, and
    the cursor is left at [p + 1154] whether or not a venue (and a
    vehicle) was read on the way. *)
Theorem X7_event_pointer (r : BinaryReader) :
  let b := buffer r in
  let p := position r in
  (event_in_buffer b p = true ->
     exists e : LdEvent.t,
       LdEvent_fromFile r = (Ok e, set_position (p + 1154) r)
       /\ LdEvent.name e = text_at b p 64
       /\ LdEvent.session e = text_at b (p + 64) 64
       /\ LdEvent.comment e = text_at b (p + 128) 1024
       /\ LdEvent.venuePtr e = u16_at b (p + 1152)
       /\ 0 <= LdEvent.venuePtr e < 65536
       /\ (LdEvent.venuePtr e = 0 -> LdEvent.venue e = None)
       /\ (LdEvent.venuePtr e <> 0 ->
           LdEvent.venue e = Some (venue_record b (LdEvent.venuePtr e))))
  /\ (event_in_buffer b p = false ->
     exists o, fst (LdEvent_fromFile r) = Throw (RangeError o)).
Proof.
  cbn zeta. split; intros H.
  - exists (event_record (buffer r) (position r)).
    split; [apply LdEvent_fromFile_ok, H|].
    unfold event_in_buffer in H. apply andb_true_iff in H as [Hb _].
    pose proof (u16_at_range _ _ Hb) as R.
    unfold event_record. cbn.
    repeat apply conj; try reflexivity; try lia.
    + intros ->. reflexivity.
    + intros Hne. destruct (Z.ltb_spec 0 (u16_at (buffer r) (position r + 1152)));
        [reflexivity|lia].
  - destruct (LdEvent_fromFile_throw r H) as (o & r' & E).
    exists o. rewrite E. reflexivity.
Qed.

Lemma X7_event_pointer_witness :
  let r := mkReader nested_doc 1762 in
  event_in_buffer nested_doc 1762 = true
  /\ exists e : LdEvent.t,
       LdEvent_fromFile r = (Ok e, mkReader nested_doc 2916)
       /\ LdEvent.name e = "Race"%string
       /\ LdEvent.venuePtr e = 2916
       /\ LdEvent.venue e = Some (venue_record nested_doc 2916).
Proof.
  intros r.
  assert (H : event_in_buffer nested_doc 1762 = true) by (vm_compute; reflexivity).
  split; [exact H|].
  destruct (proj1 (X7_event_pointer r) H)
    as (e & E & Hn & _ & _ & Hp & _ & _ & Hv).
  exists e. split; [exact E|].
  split; [rewrite Hn; vm_compute; reflexivity|].
  assert (Hp' : LdEvent.venuePtr e = 2916) by (rewrite Hp; vm_compute; reflexivity).
  split; [exact Hp'|].
  rewrite Hv by (rewrite Hp'; discriminate).
  rewrite Hp'. reflexivity.
Defined.

Lemma u32_at_range (b : Buffer) (o : Z) :
  in_bounds b o 4 = true -> 0 <= u32_at b o < 4294967296.
Proof. intros H. apply (le_value_at_range b o 4 H). lia. Qed.

Lemma LdHead_fromFile_ok (r : BinaryReader) :
  head_in_buffer (buffer r) = true ->
  LdHead_fromFile r = (Ok (head_record (buffer r)), set_position 1762 r).
Proof.
  unfold head_in_buffer, head_record. intros H.
  apply andb_true_iff in H as [Hb Hv]. cbn zeta in Hv.
  unfold LdHead_fromFile.
  erewrite bind_ok by (apply LdHead_readFields_ok; exact Hb).
  cbn [hf_eventPtr header_fields] in *.
  destruct (Z.ltb_spec 0 (u32_at (buffer r) 36)) as [Hp|Hp].
  - erewrite bind_ok.
    2:{ rewrite at_pointer_follow by exact Hp.
        rewrite LdEvent_fromFile_ok by exact Hv. reflexivity. }
    reflexivity.
  - erewrite bind_ok by (apply at_pointer_zero; exact Hp).
    reflexivity.
Qed.

Lemma LdHead_fromFile_throw (r : BinaryReader) :
  head_in_buffer (buffer r) = false ->
  exists o r', LdHead_fromFile r = (Throw (RangeError o), r').
Proof.
  unfold head_in_buffer. intros H. unfold LdHead_fromFile.
  destruct (in_bounds (buffer r) 0 40) eqn:Hb.
  - cbn [andb] in H. cbn zeta in H.
    erewrite bind_ok by (apply LdHead_readFields_ok; exact Hb).
    cbn [hf_eventPtr header_fields].
    destruct (Z.ltb_spec 0 (u32_at (buffer r) 36)) as [Hp|Hp]; [|discriminate].
    match goal with
    | |- context [bind (at_pointer ?ptr _) _ ?R] =>
        destruct (LdEvent_fromFile_throw (set_position ptr R) H)
          as (o & r' & E);
        erewrite (bind_throw (at_pointer ptr LdEvent_fromFile) _ R);
          [eauto | apply at_pointer_throw; [exact Hp | exact E]]
    end.
  - destruct (LdHead_readFields_throw r Hb) as (o & r' & E).
    erewrite bind_throw; eauto.
Qed.

(** X8. [LdHead.fromFile] returns exactly when the buffer has the 40
    bytes that hold the three pointers and, for a non-zero event pointer,
    the event it leads to (with its venue and vehicle) can be read; the
    rest of the 1762-byte header may be missing, its texts are then
    decoded from what is there.  The header has no event exactly when
    the event pointer is 0, and the cursor is left at 1762, after the
    header, whatever nested records were read. *)
Theorem X8_header_sentinel (r : BinaryReader) :
  let b := buffer r in
  (head_in_buffer b = true ->
     exists h : LdHead.t,
       LdHead_fromFile r = (Ok h, set_position 1762 r)
       /\ 0 <= LdHead.eventPtr h < 4294967296
       /\ (LdHead.eventPtr h = 0 -> LdHead.event h = None)
       /\ (LdHead.eventPtr h <> 0 ->
           LdHead.event h = Some (event_record b (LdHead.eventPtr h))))
  /\ (head_in_buffer b = false ->
     exists o, fst (LdHead_fromFile r) = Throw (RangeError o))
  /\ (Buffer_length b < 40 -> head_in_buffer b = false)
  /\ (40 <= Buffer_length b -> u32_at b 36 = 0 -> head_in_buffer b = true).
Proof.
  cbn zeta. repeat apply conj.
  - intros H. exists (head_record (buffer r)).
    split; [apply LdHead_fromFile_ok, H|].
    unfold head_in_buffer in H. apply andb_true_iff in H as [Hb _].
    assert (Hb' : in_bounds (buffer r) 36 4 = true)
      by (eapply in_bounds_sub; [exact Hb | lia | lia]).
    pose proof (u32_at_range _ _ Hb') as R.
    unfold head_record. cbn.
    repeat apply conj; try lia.
    + intros ->. reflexivity.
    + intros Hne. destruct (Z.ltb_spec 0 (u32_at (buffer r) 36));
        [reflexivity|lia].
  - intros H. destruct (LdHead_fromFile_throw r H) as (o & r' & E).
    exists o. rewrite E. reflexivity.
  - intros H. unfold head_in_buffer.
    replace (in_bounds (buffer r) 0 40) with false; [reflexivity|].
    symmetry. apply in_bounds_false_iff. lia.
  - intros H H0. unfold head_in_buffer. apply andb_true_iff. split.
    + apply in_bounds_iff. lia.
    + cbn zeta. rewrite H0. reflexivity.
Qed.

Lemma X8_header_sentinel_witness :
  head_in_buffer nested_doc = true
  /\ (exists h : LdHead.t,
       LdHead_fromFile (mkReader nested_doc 0) = (Ok h, mkReader nested_doc 1762)
       /\ LdHead.event h = Some (event_record nested_doc 1762))
  /\ head_in_buffer (zeros 40) = true
  /\ exists o, fst (LdHead_fromFile (mkReader (zeros 39) 0))
               = Throw (RangeError o).
Proof.
  assert (H : head_in_buffer nested_doc = true) by (vm_compute; reflexivity).
  split; [exact H|]. split; [|split].
  - destruct (proj1 (X8_header_sentinel (mkReader nested_doc 0)) H)
      as (h & E & _ & _ & Hv).
    exists h. split; [exact E|].
    assert (Hp : LdHead.eventPtr h = 1762).
    { apply LdHead_fromFile_fields in E as [ev ->]. vm_compute. reflexivity. }
    rewrite Hv by (rewrite Hp; discriminate). rewrite Hp. reflexivity.
  - apply (proj2 (proj2 (proj2 (X8_header_sentinel (mkReader (zeros 40) 0)))));
      vm_compute; (reflexivity || discriminate).
  - apply (proj1 (proj2 (X8_header_sentinel (mkReader (zeros 39) 0)))).
    vm_compute. reflexivity.
Defined.

(** ** The date and time of the header *)

Lemma digit_facts (c : ascii) :
  is_digit c = true ->
  Ascii.eqb "/" c = false /\ Ascii.eqb ":" c = false /\ is_js_space c = false.
Proof.
  destruct c as [[] [] [] [] [] [] [] []]; intros H;
    solve [repeat split | vm_compute in H; discriminate].
Qed.

(** Runs the two patterns over a text whose digits are variables. *)
Ltac run_regex :=
  repeat (
    cbv [regex_search match_date_hms match_date_hm digits expect spaces1
         trim_start String.length];
    repeat match goal with
    | H : is_digit ?c = true |- context [is_digit ?c] => rewrite H
    | H : Ascii.eqb ?a ?c = false |- context [Ascii.eqb ?a ?c] => rewrite H
    | H : is_js_space ?c = false |- context [is_js_space ?c] => rewrite H
    end;
    change (is_digit "/") with false;
    change (is_digit ":") with false;
    change (is_digit " ") with false;
    change (is_js_space " ") with true;
    change (Ascii.eqb "/" "/") with true;
    change (Ascii.eqb ":" ":") with true;
    change (Ascii.eqb "/" ":") with false;
    change (Ascii.eqb "/" " ") with false;
    change (Ascii.eqb ":" " ") with false;
    change (Ascii.eqb ":" "/") with false;
    cbv iota beta).

Lemma is_digits_2 (s : string) :
  is_digits 2 s = true ->
  exists c1 c2,
    s = String c1 (String c2 EmptyString)
    /\ is_digit c1 = true /\ is_digit c2 = true.
Proof.
  unfold is_digits. intros H. apply andb_true_iff in H as [Hl Hd].
  destruct s as [|c1 [|c2 [|c3 s]]]; try discriminate.
  cbn in Hd. apply andb_true_iff in Hd as [H1 Hd].
  apply andb_true_iff in Hd as [H2 _]. eauto.
Qed.

Lemma is_digits_4 (s : string) :
  is_digits 4 s = true ->
  exists c1 c2 c3 c4,
    s = String c1 (String c2 (String c3 (String c4 EmptyString)))
    /\ is_digit c1 = true /\ is_digit c2 = true
    /\ is_digit c3 = true /\ is_digit c4 = true.
Proof.
  unfold is_digits. intros H. apply andb_true_iff in H as [Hl Hd].
  destruct s as [|c1 [|c2 [|c3 [|c4 [|c5 s]]]]]; try discriminate.
  cbn in Hd. apply andb_true_iff in Hd as [H1 Hd].
  apply andb_true_iff in Hd as [H2 Hd]. apply andb_true_iff in Hd as [H3 Hd].
  apply andb_true_iff in Hd as [H4 _]. exists c1, c2, c3, c4. auto.
Qed.

(** Takes the digit texts of a goal apart and records what the patterns
    need to know of each digit. *)
Ltac open_digits :=
  repeat match goal with
  | H : is_digits 2 ?s = true |- _ =>
      let c1 := fresh "c" in let c2 := fresh "c" in
      destruct (is_digits_2 s H) as (c1 & c2 & -> & ? & ?); clear H
  | H : is_digits 4 ?s = true |- _ =>
      let c1 := fresh "c" in let c2 := fresh "c" in
      let c3 := fresh "c" in let c4 := fresh "c" in
      destruct (is_digits_4 s H) as (c1 & c2 & c3 & c4 & -> & ? & ? & ? & ?);
      clear H
  end;
  repeat match goal with
  | H : is_digit ?c = true |- _ =>
      lazymatch goal with
      | _ : is_js_space c = false |- _ => fail
      | _ => destruct (digit_facts c H) as (? & ? & ?)
      end
  end.

(** X9. For any date text of the form dd/mm/yyyy and any time text of
    the form HH:MM:SS (any decimal digits: no range is checked), the
    header's date-time is built from year yyyy, month index mm - 1, day
    dd, hour HH, minute MM and second SS. *)
Theorem X9_datetime_with_seconds (dd mm yyyy HH MM SS : string) :
  is_digits 2 dd = true -> is_digits 2 mm = true -> is_digits 4 yyyy = true ->
  is_digits 2 HH = true -> is_digits 2 MM = true -> is_digits 2 SS = true ->
  parse_datetime (dd ++ "/" ++ mm ++ "/" ++ yyyy) (HH ++ ":" ++ MM ++ ":" ++ SS)
  = DateOf (decimal yyyy) (decimal mm - 1) (decimal dd)
      (decimal HH) (decimal MM) (decimal SS).
Proof.
  intros. open_digits. unfold parse_datetime, decimal.
  cbv [String.append]. run_regex. reflexivity.
Qed.

Lemma X9_datetime_with_seconds_witness :
  is_digits 2 "23" = true /\ is_digits 4 "2005" = true
  /\ parse_datetime "23/11/2005" "09:53:07" = DateOf 2005 10 23 9 53 7
  /\ parse_datetime "99/00/0000" "77:88:99" = DateOf 0 (-1) 99 77 88 99.
Proof.
  split; [reflexivity|]. split; [reflexivity|]. split.
  - apply (X9_datetime_with_seconds "23" "11" "2005" "09" "53" "07");
      reflexivity.
  - apply (X9_datetime_with_seconds "99" "00" "0000" "77" "88" "99");
      reflexivity.
Defined.

(** X10. With a time text of the form HH:MM, without seconds, the
    date-time is built with second 0. *)
Theorem X10_datetime_without_seconds (dd mm yyyy HH MM : string) :
  is_digits 2 dd = true -> is_digits 2 mm = true -> is_digits 4 yyyy = true ->
  is_digits 2 HH = true -> is_digits 2 MM = true ->
  parse_datetime (dd ++ "/" ++ mm ++ "/" ++ yyyy) (HH ++ ":" ++ MM)
  = DateOf (decimal yyyy) (decimal mm - 1) (decimal dd)
      (decimal HH) (decimal MM) 0.
Proof.
  intros. open_digits. unfold parse_datetime, decimal.
  cbv [String.append]. run_regex. reflexivity.
Qed.

Lemma X10_datetime_without_seconds_witness :
  is_digits 2 "09" = true
  /\ parse_datetime "23/11/2005" "09:53" = DateOf 2005 10 23 9 53 0.
Proof.
  split; [reflexivity|].
  apply (X10_datetime_without_seconds "23" "11" "2005" "09" "53"); reflexivity.
Defined.

Lemma digits_length (n : nat) :
  forall (acc : Z) (s rest : string) (v : Z),
    digits n acc s = Some (v, rest) ->
    String.length s = (n + String.length rest)%nat.
Proof.
  induction n as [|n IH]; intros acc s rest v H; cbn [digits] in H.
  - injection H as _ <-. reflexivity.
  - destruct s as [|c s]; [discriminate|].
    destruct (is_digit c); [|discriminate].
    apply IH in H. cbn [String.length]. lia.
Qed.

Lemma expect_length (c : ascii) (s rest : string) :
  expect c s = Some rest -> String.length s = S (String.length rest).
Proof.
  destruct s as [|c' s]; [discriminate|]. cbn [expect].
  destruct (Ascii.eqb c c'); [|discriminate]. intros [= <-]. reflexivity.
Qed.

Lemma spaces1_length (s rest : string) :
  spaces1 s = Some rest -> (S (String.length rest) <= String.length s)%nat.
Proof.
  destruct s as [|c s]; [discriminate|]. cbn [spaces1].
  destruct (is_js_space c); [|discriminate]. intros [= <-].
  pose proof (trim_start_length s). cbn [String.length]. lia.
Qed.

(** The pattern without seconds needs 16 characters. *)
Lemma match_date_hm_length (s : string) :
  (String.length s < 16)%nat -> match_date_hm s = None.
Proof.
  intros H. unfold match_date_hm.
  destruct (digits 2 0 s) as [[day s1]|] eqn:E1; [|reflexivity].
  destruct (expect "/" s1) as [s2|] eqn:E2; [|reflexivity].
  destruct (digits 2 0 s2) as [[month s3]|] eqn:E3; [|reflexivity].
  destruct (expect "/" s3) as [s4|] eqn:E4; [|reflexivity].
  destruct (digits 4 0 s4) as [[year s5]|] eqn:E5; [|reflexivity].
  destruct (spaces1 s5) as [s6|] eqn:E6; [|reflexivity].
  destruct (digits 2 0 s6) as [[hour s7]|] eqn:E7; [|reflexivity].
  destruct (expect ":" s7) as [s8|] eqn:E8; [|reflexivity].
  destruct (digits 2 0 s8) as [[minute s9]|] eqn:E9; [|reflexivity].
  apply digits_length in E1, E3, E5, E7, E9.
  apply expect_length in E2, E4, E8. apply spaces1_length in E6. lia.
Qed.

Lemma match_date_hms_length (s : string) :
  (String.length s < 16)%nat -> match_date_hms s = None.
Proof.
  intros H. unfold match_date_hms. rewrite match_date_hm_length by assumption.
  reflexivity.
Qed.

Lemma regex_search_short {A} (f : string -> option A) (n : nat) (s : string) :
  (forall t, (String.length t < n)%nat -> f t = None) ->
  (String.length s < n)%nat -> regex_search f s = None.
Proof.
  intros Hf. induction s as [|c s IH]; intros H; cbn [regex_search];
    rewrite Hf by assumption; [reflexivity|].
  apply IH. cbn [String.length] in H. lia.
Qed.

Lemma string_length_app (s t : string) :
  String.length (s ++ t) = (String.length s + String.length t)%nat.
Proof.
  induction s as [|c s IH]; [reflexivity|].
  change (String c s ++ t)%string with (String c (s ++ t)).
  cbn [String.length]. rewrite IH. reflexivity.
Qed.

(** X11. When the date text and the time text have fewer than 15
    characters together (an empty date, a date without a time, ...), no
    pattern can match and the date-time is the clock's, [new Date()]:
    nothing of the texts is used and no error is raised. *)
Theorem X11_datetime_fallback (dateStr timeStr : string) :
  (String.length dateStr + String.length timeStr < 15)%nat ->
  parse_datetime dateStr timeStr = DateNow.
Proof.
  intros H. unfold parse_datetime.
  assert (L : (String.length (dateStr ++ " " ++ timeStr) < 16)%nat).
  { rewrite !string_length_app. cbn [String.length]. lia. }
  rewrite (regex_search_short match_date_hms 16)
    by (assumption || apply match_date_hms_length).
  rewrite (regex_search_short match_date_hm 16)
    by (assumption || apply match_date_hm_length).
  reflexivity.
Qed.

Lemma X11_datetime_fallback_witness :
  parse_datetime "23/11/2005" "" = DateNow
  /\ parse_datetime "" "09:53:00" = DateNow.
Proof.
  split; apply X11_datetime_fallback; cbn; lia.
Defined.

(** ** Channel records and their chain *)

Lemma i16_at_range (b : Buffer) (o : Z) :
  in_bounds b o 2 = true -> -32768 <= i16_at b o < 32768.
Proof.
  intros H. unfold i16_at.
  apply (to_signed_range 16); [lia|]. apply u16_at_range, H.
Qed.

Lemma text_at_length (b : Buffer) (o n : Z) :
  0 <= o -> 0 <= n -> Z.of_nat (String.length (text_at b o n)) <= n.
Proof.
  intros Ho Hn. unfold text_at.
  pose proof (decodeString_length (Buffer_slice b o (o + n))).
  pose proof (Buffer_slice_length b o n Ho Hn). lia.
Qed.

(** X12. A channel that [LdChan.fromFile] returns for the offset
    [metaPtr] records that offset, has an empty cache, has its four
    32-bit fields in [[0, 2^32)], its frequency in [[0, 2^16)] and its four
    scaling parameters in [[-2^15, 2^15)], has a name of at most 32, a
    short name of at most 8 and a unit of at most 12 characters; the
    cursor is then 124 bytes after [metaPtr]. *)
Theorem X12_channel_fields (r r' : BinaryReader) (metaPtr : Z) (ch : LdChan.t) :
  LdChan_fromFile metaPtr r = (Ok ch, r') ->
  r' = set_position (metaPtr + 124) r
  /\ LdChan.metaPtr ch = metaPtr
  /\ LdChan._data ch = None
  /\ 0 <= LdChan.prevMetaPtr ch < 4294967296
  /\ 0 <= LdChan.nextMetaPtr ch < 4294967296
  /\ 0 <= LdChan.dataPtr ch < 4294967296
  /\ 0 <= LdChan.dataLen ch < 4294967296
  /\ 0 <= LdChan.freq ch < 65536
  /\ -32768 <= LdChan.shift ch < 32768
  /\ -32768 <= LdChan.mul ch < 32768
  /\ -32768 <= LdChan.scale ch < 32768
  /\ -32768 <= LdChan.dec ch < 32768
  /\ Z.of_nat (String.length (LdChan.name ch)) <= 32
  /\ Z.of_nat (String.length (LdChan.shortName ch)) <= 8
  /\ Z.of_nat (String.length (LdChan.unit ch)) <= 12.
Proof.
  intros H.
  destruct (in_bounds (buffer r) metaPtr 32) eqn:Hb.
  2:{ destruct (LdChan_fromFile_throw r metaPtr Hb) as (o & r0 & E).
      rewrite E in H. discriminate. }
  rewrite LdChan_fromFile_ok in H by assumption. injection H as <- <-.
  pose proof (proj1 (in_bounds_iff _ _ _) Hb) as [Hp _].
  cbn [channel_record LdChan.metaPtr LdChan._data LdChan.prevMetaPtr
       LdChan.nextMetaPtr LdChan.dataPtr LdChan.dataLen LdChan.freq
       LdChan.shift LdChan.mul LdChan.scale LdChan.dec LdChan.name
       LdChan.shortName LdChan.unit].
  repeat apply conj; try reflexivity;
    try (apply u32_at_range; eapply in_bounds_sub; [exact Hb | lia | lia]);
    try (apply u16_at_range; eapply in_bounds_sub; [exact Hb | lia | lia]);
    try (apply i16_at_range; eapply in_bounds_sub; [exact Hb | lia | lia]).
  - pose proof (text_at_length (buffer r) (metaPtr + 32) 32
                  ltac:(lia) ltac:(lia)) as T.
    unfold text_at in T.
    replace (metaPtr + 32 + 32) with (metaPtr + 64) in T by lia. exact T.
  - pose proof (text_at_length (buffer r) (metaPtr + 64) 8
                  ltac:(lia) ltac:(lia)) as T.
    unfold text_at in T.
    replace (metaPtr + 64 + 8) with (metaPtr + 72) in T by lia. exact T.
  - pose proof (text_at_length (buffer r) (metaPtr + 72) 12
                  ltac:(lia) ltac:(lia)) as T.
    unfold text_at in T.
    replace (metaPtr + 72 + 12) with (metaPtr + 84) in T by lia. exact T.
Qed.

Lemma X12_channel_fields_witness :
  let r := mkReader scenario_doc 0 in
  LdChan_fromFile 1762 r
  = (Ok (channel_record scenario_doc 1762), mkReader scenario_doc 1886)
  /\ LdChan.dataLen (channel_record scenario_doc 1762) = 3
  /\ 0 <= LdChan.dataPtr (channel_record scenario_doc 1762) < 4294967296.
Proof.
  intros r.
  assert (H : LdChan_fromFile 1762 r
              = (Ok (channel_record scenario_doc 1762),
                 mkReader scenario_doc 1886)) by (vm_compute; reflexivity).
  split; [exact H|]. split; [vm_compute; reflexivity|].
  exact (proj1 (proj2 (proj2 (proj2 (proj2 (proj2
           (X12_channel_fields r _ 1762 _ H))))))).
Defined.

Lemma readChannels_loop_buffer (fuel : nat) :
  forall (channels : list LdChan.t) (p : Z) (r r' : BinaryReader)
         (res : Result (list LdChan.t)),
    readChannels_loop fuel channels p r = Some (res, r') ->
    buffer r' = buffer r.
Proof.
  induction fuel as [|fuel IH]; intros channels p r r' res H;
    cbn [readChannels_loop] in H; destruct (Z.eqb_spec p 0);
    try discriminate; try (injection H as _ <-; reflexivity).
  destruct (in_bounds (buffer r) p 32) eqn:Hb.
  - rewrite LdChan_fromFile_ok in H by assumption.
    apply IH in H. exact H.
  - revert H. unfold LdChan_fromFile. run_or_throw;
      try (intros [= _ <-]; reflexivity).
    cbn [buffer position set_position] in *.
    repeat match goal with
    | E : in_bounds _ _ _ = true |- _ => apply in_bounds_iff in E
    end.
    apply in_bounds_false_iff in Hb. lia.
Qed.

(** What the loop has read when it returns: a chain that reaches 0. *)
Lemma readChannels_loop_ok_inv (fuel : nat) :
  forall (channels out : list LdChan.t) (p : Z) (r r' : BinaryReader),
    readChannels_loop fuel channels p r = Some (Ok out, r') ->
    exists ps : list Z,
      chain_to_zero (buffer r) p ps
      /\ (length ps <= fuel)%nat
      /\ out = channels ++ map (channel_record (buffer r)) ps.
Proof.
  induction fuel as [|fuel IH]; intros channels out p r r' H;
    cbn [readChannels_loop] in H; destruct (Z.eqb_spec p 0) as [->|Hp];
    try discriminate.
  - injection H as <- _. exists []. rewrite app_nil_r.
    repeat split; [constructor | cbn; lia].
  - injection H as <- _. exists []. rewrite app_nil_r.
    repeat split; [constructor | cbn; lia].
  - destruct (in_bounds (buffer r) p 32) eqn:Hb.
    + rewrite LdChan_fromFile_ok in H by assumption.
      apply IH in H as (ps & Hc & Hl & ->). cbn [buffer set_position] in *.
      exists (p :: ps). repeat split.
      * constructor; assumption.
      * cbn; lia.
      * rewrite <- app_assoc. reflexivity.
    + destruct (LdChan_fromFile_throw r p Hb) as (o & r0 & E).
      rewrite E in H. discriminate.
Qed.

Lemma readChannels_loop_S (fuel : nat) (channels : list LdChan.t) (p : Z)
    (r : BinaryReader) :
  readChannels_loop (S fuel) channels p r
  = if p =? 0 then Some (Ok channels, r)
    else match LdChan_fromFile p r with
         | (Ok chan, r') =>
             readChannels_loop fuel (channels ++ [chan])
               (LdChan.nextMetaPtr chan) r'
         | (Throw e, r') => Some (Throw e, r')
         end.
Proof. reflexivity. Qed.

Lemma readChannels_loop_more_fuel (fuel : nat) :
  forall (channels : list LdChan.t) (p : Z) (r : BinaryReader)
         (x : Result (list LdChan.t) * BinaryReader),
    readChannels_loop fuel channels p r = Some x ->
    readChannels_loop (S fuel) channels p r = Some x.
Proof.
  induction fuel as [|fuel IH]; intros channels p r x H.
  - cbn [readChannels_loop] in *. destruct (p =? 0); [exact H|discriminate].
  - rewrite readChannels_loop_S in H. rewrite readChannels_loop_S.
    destruct (p =? 0); [exact H|].
    destruct (LdChan_fromFile p r) as [[ch|e] r1]; [|exact H].
    apply IH, H.
Qed.

Lemma chain_to_zero_linked (b : Buffer) (p : Z) (ps : list Z) :
  chain_to_zero b p ps -> linked p (map (channel_record b) ps).
Proof.
  induction 1 as [|p ps Hp Hb Hc IH]; cbn; [reflexivity|].
  repeat split; assumption.
Qed.

Lemma chain_to_zero_functional (b : Buffer) (p : Z) (ps : list Z) :
  chain_to_zero b p ps -> forall qs, chain_to_zero b p qs -> ps = qs.
Proof.
  induction 1 as [|p ps Hp Hb Hc IH]; intros qs Hq; inversion Hq; subst;
    try reflexivity; try contradiction.
  f_equal. apply IH. assumption.
Qed.

Lemma chain_to_zero_suffix (b : Buffer) (p : Z) (ps : list Z) :
  chain_to_zero b p ps ->
  forall q, In q ps -> exists qs, chain_to_zero b q (q :: qs)
                                  /\ (length (q :: qs) <= length ps)%nat.
Proof.
  induction 1 as [|p ps Hp Hb Hc IH]; intros q Hq; [destruct Hq|].
  destruct Hq as [<-|Hq].
  - exists ps. split; [constructor; assumption | reflexivity].
  - destruct (IH q Hq) as (qs & Hqs & Hl). exists qs.
    split; [exact Hqs | cbn in *; lia].
Qed.

(** A chain that reaches 0 visits no record twice. *)
Lemma chain_to_zero_NoDup (b : Buffer) (p : Z) (ps : list Z) :
  chain_to_zero b p ps -> NoDup ps.
Proof.
  induction 1 as [|p ps Hp Hb Hc IH]; constructor; [|exact IH].
  rewrite list_elem_of_In. intros Hin.
  destruct (chain_to_zero_suffix _ _ _ Hc p Hin) as (qs & Hqs & Hl).
  assert (E : p :: ps = p :: qs).
  { apply (chain_to_zero_functional b p); [constructor; assumption|exact Hqs]. }
  injection E as ->. cbn in Hl. lia.
Qed.

(** X13. When [readChannels] returns, the channels it returns are linked
    from [metaPtr] ([metaPtr] is the first channel's offset, each
    [nextMetaPtr] is the next channel's offset, the last one is 0), each
    is the record at its own offset with an empty cache, no record
    occurs twice, the buffer is unchanged, and the loop would have
    returned the same with any larger bound on its turns. *)
Theorem X13_channels_linked (fuel : nat) (metaPtr : Z) (r r' : BinaryReader)
    (chs : list LdChan.t) :
  readChannels fuel metaPtr r = Some (Ok chs, r') ->
  linked metaPtr chs
  /\ Forall (fun ch => ch = channel_record (buffer r) (LdChan.metaPtr ch)) chs
  /\ Forall (fun ch => LdChan._data ch = None) chs
  /\ NoDup (map LdChan.metaPtr chs)
  /\ (length chs <= fuel)%nat
  /\ buffer r' = buffer r
  /\ forall fuel' : nat,
       (fuel <= fuel')%nat ->
       readChannels fuel' metaPtr r = Some (Ok chs, r').
Proof.
  unfold readChannels. intros H.
  pose proof (readChannels_loop_buffer _ _ _ _ _ _ H) as Hbuf.
  destruct (readChannels_loop_ok_inv _ _ _ _ _ _ H) as (ps & Hc & Hl & ->).
  cbn [app].
  assert (Hm : map LdChan.metaPtr (map (channel_record (buffer r)) ps) = ps).
  { rewrite map_map. cbn. apply map_id. }
  repeat apply conj.
  - apply chain_to_zero_linked, Hc.
  - apply List.Forall_forall. intros ch Hin.
    apply in_map_iff in Hin as (q & <- & _). reflexivity.
  - apply List.Forall_forall. intros ch Hin.
    apply in_map_iff in Hin as (q & <- & _). reflexivity.
  - rewrite Hm. eapply chain_to_zero_NoDup, Hc.
  - rewrite length_map. exact Hl.
  - exact Hbuf.
  - intros fuel' Hf. induction Hf as [|fuel' Hf IH]; [exact H|].
    apply readChannels_loop_more_fuel, IH.
Qed.

Lemma X13_channels_linked_witness :
  let r := mkReader duplicate_doc 1762 in
  let chs := [channel_record duplicate_doc 1762;
              channel_record duplicate_doc 1886] in
  readChannels 2 1762 r = Some (Ok chs, mkReader duplicate_doc 2010)
  /\ linked 1762 chs
  /\ readChannels 7 1762 r = Some (Ok chs, mkReader duplicate_doc 2010).
Proof.
  intros r chs.
  assert (H : readChannels 2 1762 r
              = Some (Ok chs, mkReader duplicate_doc 2010))
    by (vm_compute; reflexivity).
  split; [exact H|].
  destruct (X13_channels_linked 2 1762 r _ chs H)
    as (Hl & _ & _ & _ & _ & _ & Hf).
  split; [exact Hl | apply Hf; lia].
Defined.

(** ** Loading a document *)

(** X14. A document that [LdData.fromFile] returns for a buffer has the
    header of that buffer, a reader over that same buffer, channels that
    are linked from the header's [metaPtr] (so none when it is 0) and
    whose caches are all empty: loading decodes no sample.  The only
    error loading can raise is the out-of-range error of a read. *)
Theorem X14_loaded_document (fuel : nat) (buf : Buffer) :
  (forall d : LdData.t,
      LdData_fromBuffer fuel buf = Some (Ok d) ->
      LdData.head d = head_record buf
      /\ buffer (LdData.reader d) = buf
      /\ linked (LdHead.metaPtr (LdData.head d)) (LdData.channels d)
      /\ Forall (fun ch => LdChan._data ch = None) (LdData.channels d)
      /\ (LdHead.metaPtr (LdData.head d) = 0 -> LdData.channels d = []))
  /\ (forall e : Error,
      LdData_fromBuffer fuel buf = Some (Throw e) ->
      exists o, e = RangeError o).
Proof.
  unfold LdData_fromBuffer. split.
  - intros d H. destruct (head_in_buffer buf) eqn:Hh.
    + rewrite LdHead_fromFile_ok in H by exact Hh.
      cbn [buffer] in H.
      destruct (readChannels fuel _ _) as [[[chs|e] r']|] eqn:E;
        try discriminate.
      injection H as <-. cbn [LdData.head LdData.channels LdData.reader].
      unfold readChannels in E.
      pose proof (readChannels_loop_buffer _ _ _ _ _ _ E) as Hbuf.
      destruct (readChannels_loop_ok_inv _ _ _ _ _ _ E) as (ps & Hc & _ & ->).
      cbn [buffer set_position app] in *.
      repeat apply conj; try reflexivity; try assumption.
      * apply chain_to_zero_linked, Hc.
      * apply List.Forall_forall. intros ch Hin.
        apply in_map_iff in Hin as (q & <- & _). reflexivity.
      * intros H0. rewrite H0 in Hc. inversion Hc; [reflexivity|contradiction].
    + destruct (LdHead_fromFile_throw (mkReader buf 0) Hh) as (o & r' & E).
      rewrite E in H. discriminate.
  - intros e H. destruct (head_in_buffer buf) eqn:Hh.
    + rewrite LdHead_fromFile_ok in H by exact Hh.
      destruct (readChannels fuel _ _) as [[[chs|e'] r']|] eqn:E;
        try discriminate.
      injection H as <-. eapply readChannels_loop_throws, E.
    + destruct (LdHead_fromFile_throw (mkReader buf 0) Hh) as (o & r' & E).
      rewrite E in H. injection H as <-. eauto.
Qed.

Lemma X14_loaded_document_witness :
  LdData_fromBuffer 2 duplicate_doc = Some (Ok duplicate_data)
  /\ linked 1762 (LdData.channels duplicate_data)
  /\ (exists e, LdData_fromBuffer 2 (firstn 1900 duplicate_doc)
                = Some (Throw (RangeError e))).
Proof.
  split; [exact duplicate_doc_loads|]. split.
  - exact (proj1 (proj2 (proj2
             (proj1 (X14_loaded_document 2 duplicate_doc) _
                duplicate_doc_loads)))).
  - destruct (LdData_fromBuffer 2 (firstn 1900 duplicate_doc))
      as [[d|e]|] eqn:E; try (vm_compute in E; discriminate).
    destruct (proj2 (X14_loaded_document 2 (firstn 1900 duplicate_doc)) e E)
      as [o ->].
    exists o. reflexivity.
Defined.

(** ** Access to the samples *)

Section AccessProperties.

Variable Math_pow : float -> float -> float.

Lemma read_sample_throw (dtype : NumericType) (r : BinaryReader) :
  in_bounds (buffer r) (position r) (width_of dtype) = false ->
  read_sample Math_pow dtype r = (Throw (RangeError (position r)), r).
Proof.
  intros H. destruct dtype; cbn [width_of] in H;
    unfold read_sample, readFloat16, bind, readInt16LE, readInt32LE,
      readUInt16LE, read_with, Buffer_readInt16LE, Buffer_readInt32LE,
      Buffer_readUInt16LE, Buffer_readFloatLE, Buffer_readDoubleLE,
      Buffer_readIntLE, Buffer_readUIntLE;
    rewrite H; reflexivity.
Qed.

(** When the samples do not all lie in the buffer, the loop throws at
    the first sample that does not. *)
Lemma read_samples_throw (dtype : NumericType) (n : nat) :
  forall (result : list float) (r : BinaryReader),
    (0 < n)%nat ->
    in_bounds (buffer r) (position r) (Z.of_nat n * width_of dtype) = false ->
    exists i : Z,
      0 <= i < Z.of_nat n
      /\ (forall j : Z,
            0 <= j < i ->
            in_bounds (buffer r) (position r + j * width_of dtype)
              (width_of dtype) = true)
      /\ in_bounds (buffer r) (position r + i * width_of dtype)
           (width_of dtype) = false
      /\ read_samples Math_pow n dtype result r
         = (Throw (RangeError (position r + i * width_of dtype)),
            set_position (position r + i * width_of dtype) r).
Proof.
  pose proof (width_of_pos dtype) as Hw.
  induction n as [|n IH]; intros result r Hn H; [lia|].
  cbn [read_samples].
  destruct (in_bounds (buffer r) (position r) (width_of dtype)) eqn:E.
  - unfold bind. rewrite read_sample_ok by exact E.
    assert (Hn' : (0 < n)%nat).
    { destruct n; [|lia]. exfalso.
      replace (Z.of_nat 1 * width_of dtype) with (width_of dtype) in H by lia.
      congruence. }
    destruct (IH (result ++ [sample_at Math_pow dtype (buffer r) (position r)])
                (set_position (position r + width_of dtype) r) Hn')
      as (i & Hi & Hmin & Hb & ->).
    { cbn [buffer position set_position].
      apply in_bounds_iff in E. apply in_bounds_false_iff in H.
      apply in_bounds_false_iff. lia. }
    cbn [buffer position set_position] in *.
    exists (i + 1). split; [lia|].
    replace (position r + (i + 1) * width_of dtype)
      with (position r + width_of dtype + i * width_of dtype) by lia.
    split; [|split; [exact Hb | reflexivity]].
    intros j Hj. destruct (Z.eq_dec j 0) as [->|Hj0].
    + replace (position r + 0 * width_of dtype) with (position r) by lia.
      exact E.
    + replace (position r + j * width_of dtype)
        with (position r + width_of dtype + (j - 1) * width_of dtype) by lia.
      apply Hmin. lia.
  - exists 0. split; [lia|]. split; [intros j Hj; lia|].
    replace (position r + 0 * width_of dtype) with (position r) by lia.
    split; [exact E|].
    unfold bind. rewrite read_sample_throw by exact E.
    destruct r; reflexivity.
Qed.

(** X15. The first access to the samples of a channel of resolved
    dtype: with no sample ([dataLen] 0) it returns the empty sequence
    wherever [dataPtr] points, even outside the buffer; with samples that
    do not all lie in the buffer it throws the out-of-range error at the
    offset of the first sample that does not (every sample before it
    lies in the buffer), and caches nothing: the channel is left as it
    was. *)
Theorem X15_data_out_of_range (ch : LdChan.t) (r : BinaryReader) (dt : DataType) :
  LdChan._data ch = None ->
  LdChan.dtype ch = Some dt ->
  let w := raw_width dt in
  (LdChan.dataLen ch <= 0 ->
     LdChan_data Math_pow ch r
     = (Ok [], LdChan.set_data [] ch, set_position (LdChan.dataPtr ch) r))
  /\ (0 < LdChan.dataLen ch ->
      in_bounds (buffer r) (LdChan.dataPtr ch) (LdChan.dataLen ch * w) = false ->
      exists i : Z,
        0 <= i < LdChan.dataLen ch
        /\ (forall j : Z,
              0 <= j < i ->
              in_bounds (buffer r) (LdChan.dataPtr ch + j * w) w = true)
        /\ in_bounds (buffer r) (LdChan.dataPtr ch + i * w) w = false
        /\ LdChan_data Math_pow ch r
           = (Throw (RangeError (LdChan.dataPtr ch + i * w)), ch,
              set_position (LdChan.dataPtr ch + i * w) r)).
Proof.
  intros Hc Hd w. unfold LdChan_data. rewrite Hd, Hc.
  unfold readNumericArray. rewrite bind_seek. split.
  - intros Hn. replace (Z.to_nat (LdChan.dataLen ch)) with 0%nat by lia.
    reflexivity.
  - intros Hn Hb.
    assert (Hw : width_of (numeric_of dt) = w) by (destruct dt; reflexivity).
    destruct (read_samples_throw (numeric_of dt) (Z.to_nat (LdChan.dataLen ch))
                [] (set_position (LdChan.dataPtr ch) r))
      as (i & Hi & Hmin & Hi' & E).
    + lia.
    + cbn [buffer position set_position]. rewrite Z2Nat.id by lia.
      rewrite Hw. exact Hb.
    + cbn [buffer position set_position] in *. rewrite Hw in *. exists i.
      split; [lia|]. split; [exact Hmin|]. split; [exact Hi'|].
      rewrite E. reflexivity.
Qed.

Lemma read_samples_buffer (dtype : NumericType) (n : nat) :
  forall (result : list float) (r r' : BinaryReader)
         (res : Result (list float)),
    read_samples Math_pow n dtype result r = (res, r') ->
    buffer r' = buffer r.
Proof.
  induction n as [|n IH]; intros result r r' res H; cbn [read_samples] in H.
  - injection H as _ <-. reflexivity.
  - unfold bind in H.
    destruct (in_bounds (buffer r) (position r) (width_of dtype)) eqn:E.
    + rewrite read_sample_ok in H by exact E. apply IH in H. exact H.
    + rewrite read_sample_throw in H by exact E. injection H as _ <-.
      reflexivity.
Qed.

(** The shared reader keeps its buffer through an access. *)
Lemma LdChan_data_buffer (ch : LdChan.t) (r : BinaryReader) :
  buffer (snd (LdChan_data Math_pow ch r)) = buffer r.
Proof.
  unfold LdChan_data. destruct (LdChan.dtype ch); [|reflexivity].
  destruct (LdChan._data ch); [reflexivity|].
  unfold readNumericArray. rewrite bind_seek.
  destruct (read_samples _ _ _ _ _) as [[raw|e] r'] eqn:E;
    apply read_samples_buffer in E; exact E.
Qed.

(** An access depends on the reader through its buffer only. *)
Lemma LdChan_data_cursor (ch : LdChan.t) (r1 r2 : BinaryReader) :
  buffer r1 = buffer r2 ->
  fst (LdChan_data Math_pow ch r1) = fst (LdChan_data Math_pow ch r2).
Proof.
  intros H. unfold LdChan_data. destruct (LdChan.dtype ch); [|reflexivity].
  destruct (LdChan._data ch); [reflexivity|].
  unfold readNumericArray. rewrite !bind_seek.
  replace (set_position (LdChan.dataPtr ch) r1)
    with (set_position (LdChan.dataPtr ch) r2)
    by (unfold set_position; rewrite H; reflexivity).
  destruct (read_samples _ _ _ _ _) as [[raw|e] r']; reflexivity.
Qed.

(** X16. What an access to the samples of a channel returns (or
    throws), and what it caches, does not depend on where the shared
    cursor stands, and so not on which other channels were accessed
    before: the samples of [b] are the same before and after an access
    to [a], whether that access returned or threw. *)
Theorem X16_access_order (a b : LdChan.t) (r : BinaryReader) :
  (forall p : Z,
      fst (LdChan_data Math_pow b (set_position p r))
      = fst (LdChan_data Math_pow b r))
  /\ fst (LdChan_data Math_pow b (snd (LdChan_data Math_pow a r)))
     = fst (LdChan_data Math_pow b r).
Proof.
  split.
  - intros p. apply LdChan_data_cursor. reflexivity.
  - apply LdChan_data_cursor, LdChan_data_buffer.
Qed.

End AccessProperties.

Lemma X15_data_out_of_range_witness :
  let ch := channel_record scenario_doc 1762 in
  let r := mkReader (firstn 1889 scenario_doc) 0 in
  in_bounds (buffer r) (LdChan.dataPtr ch) (LdChan.dataLen ch * 2) = false
  /\ in_bounds (buffer r) 1886 2 = true
  /\ LdChan_data pow_by_products ch r
     = (Throw (RangeError 1888), ch, set_position 1888 r).
Proof.
  intros ch r.
  assert (Hb : in_bounds (buffer r) (LdChan.dataPtr ch) (LdChan.dataLen ch * 2)
               = false) by (vm_compute; reflexivity).
  split; [exact Hb|]. split; [vm_compute; reflexivity|].
  destruct (proj2 (X15_data_out_of_range pow_by_products ch r int16
                     eq_refl eq_refl))
    as (i & Hi & Hmin & Hout & E); [reflexivity | exact Hb |].
  assert (H1 : i = 1).
  { destruct (Z.eq_dec i 0) as [->|H0]; [vm_compute in Hout; discriminate Hout|].
    destruct (Z.eq_dec i 1) as [->|H1]; [reflexivity|].
    assert (Hj : 0 <= 1 < i) by (change (LdChan.dataLen ch) with 3 in Hi; lia).
    specialize (Hmin 1 Hj). vm_compute in Hmin. discriminate Hmin. }
  rewrite H1 in E. exact E.
Defined.

(** ** Scaling *)

(** With scale 1, dec 0, shift 0, mul 1 and a power that is 1, the
    scaling of each 16-bit integer is that integer. *)
Lemma identity_scaling_int16_all :
  forallb
    (fun z : Z =>
       PrimFloat.Leibniz.eqb
         ((Z2F z / Z2F 1 * 1 + Z2F 0) * Z2F 1)%float (Z2F z))
    (zrange (Z.to_nat 65536) (-32768))
  = true.
Proof. vm_compute. reflexivity. Qed.

(** X17. Identity scaling: for a channel with scale 1, dec 0, shift 0
    and mul 1, and [Math.pow(10, -0)] being 1 (as ECMAScript requires of
    a zero exponent), the physical value of every 16-bit raw integer
    is that integer, exactly; so the samples of such an int16 channel
    are its raw values. *)
Theorem X17_identity_scaling (Math_pow : float -> float -> float)
    (ch : LdChan.t) :
  Math_pow 10%float (-0)%float = 1%float ->
  LdChan.scale ch = 1 -> LdChan.dec ch = 0 ->
  LdChan.shift ch = 0 -> LdChan.mul ch = 1 ->
  (forall z : Z,
      -32768 <= z < 32768 -> physical Math_pow ch (Z2F z) = Z2F z)
  /\ (forall r : BinaryReader,
      LdChan._data ch = None -> LdChan.dtype ch = Some int16 ->
      0 <= LdChan.dataLen ch ->
      in_bounds (buffer r) (LdChan.dataPtr ch) (LdChan.dataLen ch * 2) = true ->
      fst (fst (LdChan_data Math_pow ch r))
      = Ok (map (fun i => Z2F (i16_at (buffer r)
                                 (LdChan.dataPtr ch + Z.of_nat i * 2)))
              (seq 0 (Z.to_nat (LdChan.dataLen ch))))).
Proof.
  intros Hp Hs Hd Hsh Hm.
  assert (Hphys : forall z, -32768 <= z < 32768 ->
                            physical Math_pow ch (Z2F z) = Z2F z).
  { intros z Hz. unfold physical. rewrite Hs, Hd, Hsh, Hm.
    change (- Z2F 0)%float with (-0)%float. rewrite Hp.
    apply FloatAxioms.Leibniz.eqb_spec.
    pose proof identity_scaling_int16_all as H.
    rewrite forallb_forall in H. apply (H z).
    apply In_zrange. rewrite Z2Nat.id; lia. }
  split; [exact Hphys|].
  intros r Hc Ht Hn Hb. unfold LdChan_data. rewrite Ht, Hc.
  rewrite readNumericArray_ok by assumption. cbn [fst].
  f_equal. unfold samples_at. rewrite map_map. apply map_ext_in.
  intros i Hi. cbn [numeric_of sample_at width_of].
  apply Hphys. apply i16_at_range.
  apply in_seq in Hi. eapply in_bounds_sub; [exact Hb | lia | lia].
Qed.

Lemma X17_identity_scaling_witness :
  let ch := channel_record duplicate_doc 1762 in
  pow_by_products 10%float (-0)%float = 1%float
  /\ LdChan.scale ch = 1 /\ LdChan.dec ch = 0
  /\ fst (fst (LdChan_data pow_by_products ch (mkReader duplicate_doc 0)))
     = Ok [7%float; 8%float].
Proof.
  intros ch. split; [reflexivity|]. split; [reflexivity|].
  split; [reflexivity|].
  rewrite (proj2 (X17_identity_scaling pow_by_products ch
                    eq_refl eq_refl eq_refl eq_refl eq_refl)
             (mkReader duplicate_doc 0));
    vm_compute; (reflexivity || discriminate).
Defined.

Lemma non_finite_div_zero (v : float) : non_finite (v / Z2F 0) = true.
Proof.
  unfold non_finite. rewrite FloatAxioms.div_spec.
  change (Prim2SF (Z2F 0)) with (S754_zero false).
  destruct (Prim2SF v) as [s|s| |s m e]; reflexivity.
Qed.

Lemma non_finite_mul (x y : float) :
  non_finite x = true -> non_finite (x * y) = true.
Proof.
  unfold non_finite. rewrite FloatAxioms.mul_spec.
  destruct (Prim2SF x) as [s|s| |s m e]; try discriminate; intros _;
    destruct (Prim2SF y) as [s'|s'| |s' m' e']; reflexivity.
Qed.

Lemma non_finite_add_int (x : float) (z : Z) :
  -32768 <= z < 32768 ->
  non_finite x = true -> non_finite (x + Z2F z) = true.
Proof.
  unfold non_finite. rewrite FloatAxioms.add_spec. intros Hz.
  destruct (Prim2SF x) as [s|s| |s m e]; try discriminate; intros _;
    [|reflexivity].
  destruct (Prim2SF (Z2F z)) as [s'|s'| |s' m' e'] eqn:E; try reflexivity.
  exfalso.
  assert (F : non_finite (Z2F z) = false).
  { pose proof (forallb_forall
                  (fun z => negb (non_finite (Z2F z)))
                  (zrange (Z.to_nat 65536) (-32768))) as [A _].
    assert (C : forallb (fun z => negb (non_finite (Z2F z)))
                  (zrange (Z.to_nat 65536) (-32768)) = true)
      by (vm_compute; reflexivity).
    apply negb_true_iff, (A C z), In_zrange. rewrite Z2Nat.id; lia. }
  unfold non_finite in F. rewrite E in F. discriminate.
Qed.

(** X18. A scale of 0 is not rejected: the division by it makes every
    physical value of the channel an infinity or NaN, whatever the raw
    value, the other parameters (16-bit) and [Math.pow] are; no error is
    raised. *)
Theorem X18_zero_scale (Math_pow : float -> float -> float)
    (ch : LdChan.t) (v : float) :
  LdChan.scale ch = 0 ->
  -32768 <= LdChan.shift ch < 32768 ->
  non_finite (physical Math_pow ch v) = true.
Proof.
  intros Hs Hsh. unfold physical. rewrite Hs.
  apply non_finite_mul, non_finite_add_int; [exact Hsh|].
  apply non_finite_mul, non_finite_div_zero.
Qed.

Lemma X18_zero_scale_witness :
  let ch := LdChan.mk None 0 0 0 0 1 (Some int16) 50 0 1 0 1 "" "" "" in
  LdChan.scale ch = 0
  /\ non_finite (physical pow_by_products ch 5%float) = true
  /\ physical pow_by_products ch 5%float = infinity
  /\ physical pow_by_products ch 0%float = nan.
Proof.
  intros ch. split; [reflexivity|]. split.
  - apply X18_zero_scale; [reflexivity | vm_compute; split; congruence].
  - split; reflexivity.
Defined.

(** ** The data map, again *)

Section DataMapAgain.

Variable Math_pow : float -> float -> float.

Lemma LdChan_data_ok_typed (ch ch' : LdChan.t) (r r' : BinaryReader)
    (d : list float) :
  LdChan_data Math_pow ch r = (Ok d, ch', r') ->
  is_Some (LdChan.dtype ch) /\ LdChan.dtype ch' = LdChan.dtype ch.
Proof.
  unfold LdChan_data. intros H.
  destruct (LdChan.dtype ch) eqn:Hd; [|discriminate].
  split; [eauto|].
  destruct (LdChan._data ch).
  - injection H as _ <- _. exact Hd.
  - destruct (readNumericArray _ _ _ _ _) as [[raw|e] r1]; [|discriminate].
    injection H as _ <- _. exact Hd.
Qed.

(** When the loop of [toDataMap] returns, every channel had a resolved
    dtype, and has it still. *)
Lemma toDataMap_loop_typed (channels : list LdChan.t) :
  forall (o o' : JsObject (list float)) (channels' : list LdChan.t)
         (r r' : BinaryReader),
    toDataMap_loop Math_pow channels o r = (Ok o', channels', r') ->
    Forall (fun ch => is_Some (LdChan.dtype ch)) channels
    /\ Forall (fun ch => is_Some (LdChan.dtype ch)) channels'.
Proof.
  induction channels as [|ch rest IH]; intros o o' channels' r r' H.
  - cbn in H. injection H as _ <- _. split; constructor.
  - cbn [toDataMap_loop] in H.
    destruct (LdChan_data Math_pow ch r) as [[[d|e] ch1] r1] eqn:E;
      [|discriminate].
    destruct (toDataMap_loop Math_pow rest _ r1) as [[res rest'] r2] eqn:E2.
    injection H as -> <- _.
    destruct (LdChan_data_ok_typed _ _ _ _ _ E) as [Ht Ht'].
    destruct (IH _ _ _ _ _ E2) as [H1 H2].
    split; constructor; try assumption. rewrite Ht'. exact Ht.
Qed.

(** On channels that all have their data cached, the loop reads
    nothing. *)
Lemma toDataMap_loop_cached (channels : list LdChan.t) :
  forall (o : JsObject (list float)) (r : BinaryReader),
    Forall (fun ch => is_Some (LdChan._data ch)) channels ->
    Forall (fun ch => is_Some (LdChan.dtype ch)) channels ->
    toDataMap_loop Math_pow channels o r
    = (Ok (fold_left bind_channel channels o), channels, r).
Proof.
  induction channels as [|ch rest IH]; intros o r Hc Ht; [reflexivity|].
  inversion Hc as [|? ? [d Hd] Hc']; subst.
  inversion Ht as [|? ? [t Hty] Ht']; subst.
  cbn [toDataMap_loop fold_left]. unfold LdChan_data. rewrite Hty, Hd.
  rewrite IH by assumption.
  replace (bind_channel o ch) with (JsObject_set (LdChan.name ch) d o)
    by (unfold bind_channel, cached; rewrite Hd; reflexivity).
  reflexivity.
Qed.

(** X20. When [toDataMap] returns, every channel of the document had a
    resolved dtype and now has its samples cached, under its old name;
    and a second [toDataMap], on the document as the first left it,
    returns the same object and changes nothing, neither a channel nor
    the cursor. *)
Theorem X20_data_map_again (d d' : LdData.t) (o : JsObject (list float)) :
  toDataMap Math_pow d = (Ok o, d') ->
  Forall (fun ch => is_Some (LdChan.dtype ch)) (LdData.channels d)
  /\ Forall (fun ch => is_Some (LdChan._data ch)) (LdData.channels d')
  /\ getChannelNames d' = getChannelNames d
  /\ toDataMap Math_pow d' = (Ok o, d').
Proof.
  unfold toDataMap, getChannelNames. intros H.
  destruct (toDataMap_loop _ _ _ _) as [[res chs'] r'] eqn:E.
  injection H as -> <-. cbn [LdData.channels LdData.reader LdData.head].
  destruct (toDataMap_loop_ok _ _ _ _ _ _ _ E) as (Hn & Hc & ->).
  destruct (toDataMap_loop_typed _ _ _ _ _ _ E) as [Ht Ht'].
  repeat apply conj; try assumption.
  rewrite toDataMap_loop_cached by assumption. reflexivity.
Qed.

End DataMapAgain.

Lemma duplicate_data_map :
  exists (o : JsObject (list float)) (d' : LdData.t),
    toDataMap pow_by_products duplicate_data = (Ok o, d').
Proof.
  destruct (toDataMap pow_by_products duplicate_data) as [res d'] eqn:E.
  assert (Hr : res = fst (toDataMap pow_by_products duplicate_data))
    by (rewrite E; reflexivity).
  vm_compute in Hr.
  match type of Hr with res = Ok ?o => exists o, d' end.
  subst res. reflexivity.
Qed.

Lemma X20_data_map_again_witness :
  exists (o : JsObject (list float)) (d' : LdData.t),
    toDataMap pow_by_products duplicate_data = (Ok o, d')
    /\ toDataMap pow_by_products d' = (Ok o, d').
Proof.
  destruct duplicate_data_map as (o & d' & E).
  exists o, d'. split; [exact E|].
  exact (proj2 (proj2 (proj2 (X20_data_map_again pow_by_products _ _ _ E)))).
Defined.

Lemma proto_fold_bind (channels : list LdChan.t) (o : JsObject (list float)) :
  Forall (fun ch => LdChan.name ch <> "__proto__"%string) channels ->
  proto (fold_left bind_channel channels o) = proto o.
Proof.
  intros H. revert o. induction H as [|ch channels Hn _ IH]; intros o;
    [reflexivity|].
  cbn [fold_left]. rewrite IH. unfold bind_channel, JsObject_set.
  destruct (String.eqb_spec (LdChan.name ch) "__proto__"); [contradiction|].
  reflexivity.
Qed.

Lemma filter_own_keys (names : list string) :
  Forall (fun n => n <> "__proto__"%string) names ->
  List.filter is_own_key names = names.
Proof.
  induction 1 as [|n names Hn _ IH]; [reflexivity|].
  cbn [List.filter]. unfold is_own_key at 1.
  destruct (String.eqb_spec n "__proto__"); [contradiction|].
  cbn. rewrite IH. reflexivity.
Qed.

(** X19. For a document in which no channel is named "__proto__": when
    [toDataMap] returns, the own keys of the object are exactly the
    channel names, its prototype is untouched, and each name is bound to
    the cached samples of the last channel of that name in chain
    order. *)
Theorem X19_data_map_last_wins (Math_pow : float -> float -> float)
    (d d' : LdData.t) (o : JsObject (list float)) :
  Forall (fun ch => LdChan.name ch <> "__proto__"%string) (LdData.channels d) ->
  toDataMap Math_pow d = (Ok o, d') ->
  JsObject_keys o = list_to_set (getChannelNames d)
  /\ proto o = None
  /\ forall n : string,
       In n (getChannelNames d) ->
       exists ch : LdChan.t,
         last (List.filter (named n) (LdData.channels d')) = Some ch
         /\ own o !! n = Some (cached ch).
Proof.
  intros Hp H.
  assert (Hnames : Forall (fun n => n <> "__proto__"%string) (getChannelNames d)).
  { unfold getChannelNames. apply List.Forall_forall. intros n Hin.
    apply in_map_iff in Hin as (ch & <- & Hin).
    rewrite List.Forall_forall in Hp. apply Hp, Hin. }
  destruct (toDataMap_last_wins Math_pow d) as [_ L].
  destruct (L o d' H) as (Hn & _ & Hk & Hl).
  split; [|split].
  - rewrite Hk, filter_own_keys by assumption. reflexivity.
  - unfold toDataMap in H.
    destruct (toDataMap_loop _ _ _ _) as [[res chs'] r'] eqn:E.
    injection H as -> <-.
    destruct (toDataMap_loop_ok _ _ _ _ _ _ _ E) as (Hn' & _ & ->).
    apply proto_fold_bind. apply List.Forall_forall. intros ch Hin.
    assert (Hin' : In (LdChan.name ch) (map LdChan.name (LdData.channels d))).
    { rewrite <- Hn'. apply in_map, Hin. }
    rewrite List.Forall_forall in Hnames. apply Hnames, Hin'.
  - intros n Hin.
    assert (Hk' : is_own_key n = true).
    { unfold is_own_key. apply negb_true_iff, String.eqb_neq.
      rewrite List.Forall_forall in Hnames. apply Hnames, Hin. }
    rewrite Hl by exact Hk'.
    rewrite <- Hn in Hin. unfold getChannelNames in Hin.
    apply in_map_iff in Hin as (ch & Hch & Hin).
    destruct (last (List.filter (named n) (LdData.channels d'))) as [c|] eqn:E.
    + exists c. split; reflexivity.
    + exfalso. apply last_None in E.
      assert (Hf : In ch (List.filter (named n) (LdData.channels d'))).
      { apply filter_In. split; [exact Hin|].
        unfold named. apply String.eqb_eq, Hch. }
      rewrite E in Hf. destruct Hf.
Qed.

Lemma X19_data_map_last_wins_witness :
  Forall (fun ch => LdChan.name ch <> "__proto__"%string)
    (LdData.channels duplicate_data)
  /\ exists (o : JsObject (list float)) (d' : LdData.t),
       toDataMap pow_by_products duplicate_data = (Ok o, d')
       /\ JsObject_keys o = list_to_set ["Speed"%string; "Speed"%string]
       /\ proto o = None.
Proof.
  assert (Hp : Forall (fun ch => LdChan.name ch <> "__proto__"%string)
                 (LdData.channels duplicate_data))
    by (repeat constructor; vm_compute; discriminate).
  split; [exact Hp|].
  destruct duplicate_data_map as (o & d' & E).
  exists o, d'. split; [exact E|].
  destruct (X19_data_map_last_wins pow_by_products _ _ _ Hp E) as (Hk & Hpr & _).
  split; [exact Hk | exact Hpr].
Defined.

(** ** Half floats as they are read *)

(** X21. With a [Math.pow] that is exact on powers of two,
    [readFloat16] at a cursor with two bytes left returns exactly the
    number that the two bytes denote as an IEEE-754 binary16 value in
    little-endian order (subnormals, signed zeros, infinities and NaN
    included), and advances the cursor by 2; the three products of the
    decoder round nothing. *)
Theorem X21_readFloat16_binary16 (Math_pow : float -> float -> float)
    (r : BinaryReader) :
  pow_exact_on_two Math_pow ->
  in_bounds (buffer r) (position r) 2 = true ->
  readFloat16 Math_pow r
  = (Ok (float_of_bits 5 10 (u16_at (buffer r) (position r))),
     set_position (position r + 2) r).
Proof.
  intros Hp Hb. unfold readFloat16.
  rewrite bind_readUInt16LE by exact Hb. unfold ret.
  rewrite decodeFloat16_binary16; [reflexivity | exact Hp |].
  apply u16_at_range, Hb.
Qed.

Lemma X21_readFloat16_binary16_witness :
  let r := mkReader [x01; x80; xff; x7b] 0 in
  in_bounds (buffer r) (position r) 2 = true
  /\ readFloat16 pow_by_products r
     = (Ok (- Z.ldexp 1 (-24))%float, mkReader [x01; x80; xff; x7b] 2)
  /\ readFloat16 pow_by_products (mkReader [x01; x80; xff; x7b] 2)
     = (Ok 65504%float, mkReader [x01; x80; xff; x7b] 4).
Proof.
  intros r. split; [reflexivity|]. split.
  - rewrite (X21_readFloat16_binary16 pow_by_products r
               pow_by_products_exact_on_two eq_refl).
    vm_compute. reflexivity.
  - rewrite (X21_readFloat16_binary16 pow_by_products
               (mkReader [x01; x80; xff; x7b] 2)
               pow_by_products_exact_on_two eq_refl).
    vm_compute. reflexivity.
Defined.

(** ** What [getChannel] returns *)




(** ** The layout of a channel record *)

(** X23. The fields of a channel that [LdChan.fromFile] returns for the
    offset [p] are read at fixed places of the record: the 32-bit
    prevMetaPtr, nextMetaPtr, dataPtr and dataLen at [p], [p + 4],
    [p + 8], [p + 12]; the 16-bit frequency at [p + 22]; the signed
    16-bit shift, mul, scale and dec at [p + 24], [p + 26], [p + 28],
    [p + 30]; the name in the 32 bytes from [p + 32], the short name in
    the 8 bytes from [p + 64] and the unit in the 12 bytes from
    [p + 72]. *)
Theorem X23_channel_layout (r r' : BinaryReader) (p : Z) (ch : LdChan.t) :
  LdChan_fromFile p r = (Ok ch, r') ->
  let b := buffer r in
  LdChan.prevMetaPtr ch = u32_at b p
  /\ LdChan.nextMetaPtr ch = u32_at b (p + 4)
  /\ LdChan.dataPtr ch = u32_at b (p + 8)
  /\ LdChan.dataLen ch = u32_at b (p + 12)
  /\ LdChan.freq ch = u16_at b (p + 22)
  /\ LdChan.shift ch = i16_at b (p + 24)
  /\ LdChan.mul ch = i16_at b (p + 26)
  /\ LdChan.scale ch = i16_at b (p + 28)
  /\ LdChan.dec ch = i16_at b (p + 30)
  /\ LdChan.name ch = text_at b (p + 32) 32
  /\ LdChan.shortName ch = text_at b (p + 64) 8
  /\ LdChan.unit ch = text_at b (p + 72) 12.
Proof.
  intros H b.
  destruct (in_bounds (buffer r) p 32) eqn:Hb.
  2:{ destruct (LdChan_fromFile_throw r p Hb) as (o & r0 & E).
      rewrite E in H. discriminate. }
  rewrite LdChan_fromFile_ok in H by assumption. injection H as <- _.
  unfold channel_record, text_at. cbn.
  repeat apply conj; try reflexivity; do 2 f_equal; lia.
Qed.

Lemma X23_channel_layout_witness :
  let r := mkReader scenario_doc 0 in
  LdChan_fromFile 1762 r
  = (Ok (channel_record scenario_doc 1762), mkReader scenario_doc 1886)
  /\ text_at scenario_doc (1762 + 32) 32 = "Speed"%string
  /\ i16_at scenario_doc (1762 + 30) = 1.
Proof.
  intros r.
  assert (H : LdChan_fromFile 1762 r
              = (Ok (channel_record scenario_doc 1762),
                 mkReader scenario_doc 1886)) by (vm_compute; reflexivity).
  split; [exact H|].
  destruct (X23_channel_layout r _ 1762 _ H)
    as (_ & _ & _ & _ & _ & _ & _ & _ & Hd & Hn & _).
  split.
  - transitivity (LdChan.name (channel_record scenario_doc 1762));
      [symmetry; exact Hn | vm_compute; reflexivity].
  - transitivity (LdChan.dec (channel_record scenario_doc 1762));
      [symmetry; exact Hd | vm_compute; reflexivity].
Defined.

(** ** Truncated buffers *)

Lemma text_at_beyond (b : Buffer) (o n : Z) :
  Buffer_length b <= o -> 0 <= n -> text_at b o n = EmptyString.
Proof.
  intros Ho Hn. unfold text_at.
  assert (Hl : 0 <= Buffer_length b) by (unfold Buffer_length; lia).
  assert (E : Buffer_slice b o (o + n) = []).
  { apply length_zero_iff_nil.
    pose proof (Buffer_slice_length b o n ltac:(lia) Hn). lia. }
  rewrite E. reflexivity.
Qed.

(** X24. A text field that starts at or after the end of the buffer
    decodes to the empty text, without error; so a buffer that holds the
    40 bytes of the pointers with an event pointer of 0 but stops at or
    before offset 94 loads as a header whose date-time is the clock's
    and whose driver, vehicleId, venue and shortComment are empty. *)
Theorem X24_truncated_header (r : BinaryReader) :
  let b := buffer r in
  40 <= Buffer_length b <= 94 -> u32_at b 36 = 0 ->
  exists h : LdHead.t,
    LdHead_fromFile r = (Ok h, set_position 1762 r)
    /\ LdHead.metaPtr h = u32_at b 8
    /\ LdHead.event h = None
    /\ LdHead.datetime h = DateNow
    /\ LdHead.driver h = EmptyString
    /\ LdHead.vehicleId h = EmptyString
    /\ LdHead.venue h = EmptyString
    /\ LdHead.shortComment h = EmptyString.
Proof.
  cbn zeta. intros Hl H0.
  assert (Hh : head_in_buffer (buffer r) = true).
  { unfold head_in_buffer. apply andb_true_iff. split.
    - apply in_bounds_iff. lia.
    - cbn zeta. rewrite H0. reflexivity. }
  exists (head_record (buffer r)).
  split; [apply LdHead_fromFile_ok, Hh|].
  unfold head_record, header_fields.
  cbn [hf_metaPtr hf_dataPtr hf_eventPtr hf_dateStr hf_timeStr hf_driver
       hf_vehicleId hf_venue hf_shortComment LdHead.metaPtr LdHead.event
       LdHead.datetime LdHead.driver LdHead.vehicleId LdHead.venue
       LdHead.shortComment].
  rewrite H0, !text_at_beyond by lia.
  repeat split.
Qed.

Lemma X24_truncated_header_witness :
  let r := mkReader (firstn 60 scenario_doc) 0 in
  40 <= Buffer_length (buffer r) <= 94
  /\ exists h : LdHead.t,
       LdHead_fromFile r = (Ok h, mkReader (firstn 60 scenario_doc) 1762)
       /\ LdHead.metaPtr h = 1762
       /\ LdHead.driver h = EmptyString.
Proof.
  intros r.
  assert (Hl : 40 <= Buffer_length (buffer r) <= 94)
    by (vm_compute; split; discriminate).
  split; [exact Hl|].
  destruct (X24_truncated_header r Hl) as (h & E & Hm & _ & _ & Hd & _);
    [vm_compute; reflexivity|].
  exists h. split; [exact E|]. split; [|exact Hd].
  rewrite Hm. vm_compute. reflexivity.
Defined.

(** ** A chain that leaves the buffer *)

(** X25. When the chain of channel records reaches, after any number of
    records, a non-zero pointer to a record whose first 32 bytes are not
    all in the buffer, [readChannels] throws the out-of-range error of a
    read (given turns enough to get there): the channels read so far are
    not returned. *)
Theorem X25_chain_leaves_buffer (fuel n : nat) (metaPtr : Z) (r : BinaryReader) :
  chain_to_outside (buffer r) metaPtr n ->
  (n < fuel)%nat ->
  exists o r', readChannels fuel metaPtr r = Some (Throw (RangeError o), r').
Proof.
  unfold readChannels. generalize (@nil LdChan.t) as channels.
  intros channels H. revert fuel channels.
  remember (buffer r) as b eqn:Hb. revert r Hb.
  induction H as [p Hp Ho|p n Hp Hi Hc IH]; intros r Hb fuel channels Hf;
    (destruct fuel as [|fuel]; [lia|]); rewrite readChannels_loop_S;
    (destruct (Z.eqb_spec p 0); [contradiction|]); subst b.
  - destruct (LdChan_fromFile_throw r p Ho) as (o & r0 & E).
    rewrite E. eauto.
  - rewrite LdChan_fromFile_ok by assumption.
    apply IH; [reflexivity | lia].
Qed.

Lemma X25_chain_leaves_buffer_witness :
  let r := mkReader (firstn 1900 duplicate_doc) 1762 in
  chain_to_outside (buffer r) 1762 1
  /\ exists o r', readChannels 2 1762 r = Some (Throw (RangeError o), r').
Proof.
  intros r.
  assert (H : chain_to_outside (buffer r) 1762 1).
  { apply chain_inside; [discriminate | vm_compute; reflexivity|].
    replace (next_of (buffer r) 1762) with 1886 by (vm_compute; reflexivity).
    apply chain_outside; [discriminate | vm_compute; reflexivity]. }
  split; [exact H|].
  apply (X25_chain_leaves_buffer 2 1 1762 r H). lia.
Defined.

(** ** readNumericArray on all its types *)

(** X26. For each of the six types [readNumericArray] accepts (the
    8-byte 'gps' doubles and the 'timestamp' values, read as int32,
    included): when [count] values of the type's width lie in the buffer
    from [dataPtr] on, it returns [count] values, the i-th decoded at
    [dataPtr + i * width], wherever the cursor stood before, and leaves
    the cursor just after the last value. *)
Theorem X26_readNumericArray (Math_pow : float -> float -> float)
    (dtype : NumericType) (dataPtr count : Z) (r : BinaryReader) :
  0 <= count ->
  in_bounds (buffer r) dataPtr (count * width_of dtype) = true ->
  exists xs : list float,
    readNumericArray Math_pow dataPtr count dtype r
    = (Ok xs, set_position (dataPtr + count * width_of dtype) r)
    /\ Z.of_nat (length xs) = count
    /\ (forall i : nat,
         (i < Z.to_nat count)%nat ->
         xs !! i
         = Some (sample_at Math_pow dtype (buffer r)
                   (dataPtr + Z.of_nat i * width_of dtype)))
    /\ sample_at Math_pow Ttimestamp = sample_at Math_pow Tint32.
Proof.
  intros Hc Hb.
  exists (samples_at Math_pow dtype (buffer r) dataPtr (Z.to_nat count)).
  split; [apply readNumericArray_ok; assumption|]. split; [|split].
  - rewrite samples_at_length. lia.
  - intros i Hi. unfold samples_at.
    rewrite list_lookup_fmap, lookup_seq_lt by assumption. reflexivity.
  - reflexivity.
Qed.

Lemma X26_readNumericArray_witness :
  let b := [x00; x00; x00; x00; x00; x00; xf0; x3f; xff; xff; xff; xff] in
  in_bounds b 0 (1 * width_of Tgps) = true
  /\ (exists xs : list float,
        readNumericArray pow_by_products 0 1 Tgps (mkReader b 5)
        = (Ok xs, mkReader b 8)
        /\ xs !! 0%nat = Some 1%float)
  /\ (exists xs : list float,
        readNumericArray pow_by_products 8 1 Ttimestamp (mkReader b 0)
        = (Ok xs, mkReader b 12)
        /\ xs !! 0%nat = Some (-1)%float).
Proof.
  intros b. split; [reflexivity|]. split.
  - destruct (X26_readNumericArray pow_by_products Tgps 0 1 (mkReader b 5))
      as (xs & E & _ & Hx & _); [lia | reflexivity |].
    exists xs. split; [exact E|].
    rewrite (Hx 0%nat) by (cbn; lia). reflexivity.
  - destruct (X26_readNumericArray pow_by_products Ttimestamp 8 1 (mkReader b 0))
      as (xs & E & _ & Hx & _); [lia | reflexivity |].
    exists xs. split; [exact E|].
    rewrite (Hx 0%nat) by (cbn; lia). reflexivity.
Defined.
